(** * SB-account importer ([be/scripts/upload_sb_accounts.py])

    A shallow embedding of the spreadsheet importer: the three field
    normalisers, the per-row reconciliation body, the row loop with its
    [try]/[except], and the store it talks to.

    Conventions.
    - A Python [str] is a Rocq [string] that holds its UTF-8 bytes;
      [str.strip], [str.isspace] and [str.isdigit] go character by
      character, with the character tables of Unicode 14 (Python 3.11).
    - A spreadsheet cell is a [cell]: pandas hands the script [None], a
      float NaN, text, an integer or a float.
    - [decimal.Decimal] is [Dec.decimal]: sign, coefficient and exponent,
      the infinities and the two kinds of NaN, under the default context
      (InvalidOperation is trapped, so it raises).
    - Code that can raise returns a [result]; code that talks to the store
      lives in the state-and-error monad [M]. *)

From Stdlib Require Import Ascii String.
From stdpp Require Import base numbers list strings pretty sorting.

Local Open Scope string_scope.
Local Open Scope list_scope.

(** ** Exceptions *)

Inductive exn : Type :=
| InvalidOperation            (* decimal.InvalidOperation *)
| StoreError (msg : string).  (* anything the ORM client raises *)

(** [str(row_error)] *)
Definition str_exn (e : exn) : string :=
  match e with
  | InvalidOperation => "[<class 'decimal.InvalidOperation'>]"
  | StoreError msg => msg
  end.

Definition result (A : Type) : Type := exn + A.

Abbreviation Ok := (@inr exn _).
Abbreviation Raise := (@inl exn _).

(** [try: body except: handler] for a body without store effects. *)
Definition try_except {A} (body : result A) (handler : exn → result A) : result A :=
  match body with
  | inl e => handler e
  | inr a => inr a
  end.

(** ** Python built-ins on text *)

Module Py.

(** *** Characters

    A [str] is a sequence of Unicode characters.  It is kept as its UTF-8
    bytes, and a character as the bytes that encode it: one byte below 128,
    or a first byte from 192 on followed by one, two or three more.  The
    first byte of a character tells how many bytes it has.  (Bytes that are
    not the UTF-8 form of a text are cut up the same way; what comes out is
    no character of any class and is left where it stands.) *)
Definition width (c : ascii) : nat :=
  let n := N_of_ascii c in
  if (n <? 192)%N then 1 else if (n <? 224)%N then 2 else if (n <? 240)%N then 3 else 4.

(** [split k s]: the bytes, [k] at most, that still belong to the character
    being read, and the characters after it *)
Fixpoint split (k : nat) (s : string) : string * list string :=
  match s with
  | EmptyString => (EmptyString, [])
  | String c t =>
      match k with
      | S k' => let '(cur, rest) := split k' t in (String c cur, rest)
      | O =>
          let '(cur, rest) := split (width c - 1) t in
          (EmptyString, String c cur :: rest)
      end
  end.

(** [list(s)]: the characters of [s] *)
Definition chars (s : string) : list string := (split 0 s).2.

(** [''.join(l)] *)
Fixpoint join (l : list string) : string :=
  match l with
  | [] => EmptyString
  | c :: rest => c +:+ join rest
  end.

(** the six bits a byte after the first one carries *)
Definition continuation (c : ascii) : option N :=
  let n := N_of_ascii c in
  if ((128 <=? n) && (n <? 192))%N then Some (n - 128)%N else None.

(** [ord(c)], when the bytes of [c] are the UTF-8 form of a code point:
    the shortest form, no surrogate, nothing above U+10FFFF *)
Definition ord (c : string) : option N :=
  match c with
  | String a EmptyString =>
      let n := N_of_ascii a in
      if (n <? 128)%N then Some n else None
  | String a (String b EmptyString) =>
      let n := N_of_ascii a in
      match continuation b with
      | Some x =>
          if ((194 <=? n) && (n <? 224))%N then Some ((n - 192) * 64 + x)%N else None
      | None => None
      end
  | String a (String b (String c EmptyString)) =>
      let n := N_of_ascii a in
      match continuation b, continuation c with
      | Some x, Some y =>
          let p := ((n - 224) * 4096 + x * 64 + y)%N in
          if ((224 <=? n) && (n <? 240) && (2048 <=? p)
              && negb ((55296 <=? p) && (p <? 57344)))%N
          then Some p else None
      | _, _ => None
      end
  | String a (String b (String c (String d EmptyString))) =>
      let n := N_of_ascii a in
      match continuation b, continuation c, continuation d with
      | Some x, Some y, Some z =>
          let p := ((n - 240) * 262144 + x * 4096 + y * 64 + z)%N in
          if ((240 <=? n) && (n <? 248) && (65536 <=? p) && (p <? 1114112))%N
          then Some p else None
      | _, _, _ => None
      end
  | _ => None
  end.

Definition in_ranges (ranges : list (N * N)) (n : N) : bool :=
  existsb (λ r, (r.1 <=? n) && (n <=? r.2))%N ranges.

(** the code points [str.isspace] accepts (Unicode 14, as Python 3.11 has it) *)
Definition whitespace : list (N * N) :=
  [(9, 13); (28, 32); (133, 133); (160, 160); (5760, 5760); (8192, 8202);
   (8232, 8233); (8239, 8239); (8287, 8287); (12288, 12288)]%N.

(** the runs of decimal digits (category Nd), each from its digit zero on *)
Definition decimal_runs : list (N * N) :=
  [(48, 57); (1632, 1641); (1776, 1785); (1984, 1993); (2406, 2415);
   (2534, 2543); (2662, 2671); (2790, 2799); (2918, 2927); (3046, 3055);
   (3174, 3183); (3302, 3311); (3430, 3439); (3558, 3567); (3664, 3673);
   (3792, 3801); (3872, 3881); (4160, 4169); (4240, 4249); (6112, 6121);
   (6160, 6169); (6470, 6479); (6608, 6617); (6784, 6793); (6800, 6809);
   (6992, 7001); (7088, 7097); (7232, 7241); (7248, 7257); (42528, 42537);
   (43216, 43225); (43264, 43273); (43472, 43481); (43504, 43513);
   (43600, 43609); (44016, 44025); (65296, 65305); (66720, 66729);
   (68912, 68921); (69734, 69743); (69872, 69881); (69942, 69951);
   (70096, 70105); (70384, 70393); (70736, 70745); (70864, 70873);
   (71248, 71257); (71360, 71369); (71472, 71481); (71904, 71913);
   (72016, 72025); (72784, 72793); (73040, 73049); (73120, 73129);
   (92768, 92777); (92864, 92873); (93008, 93017); (120782, 120831);
   (123200, 123209); (123632, 123641); (125264, 125273); (130032, 130041)]%N.

(** the digits that are not decimal: superscripts, subscripts, circled
    digits and the like *)
Definition other_digits : list (N * N) :=
  [(178, 179); (185, 185); (4969, 4977); (6618, 6618); (8304, 8304);
   (8308, 8313); (8320, 8329); (9312, 9320); (9332, 9340); (9352, 9360);
   (9450, 9450); (9461, 9469); (9471, 9471); (10102, 10110); (10112, 10120);
   (10122, 10130); (68160, 68163); (69216, 69224); (69714, 69722);
   (127232, 127242)]%N.

(** [unicodedata.decimal]: the value of a decimal digit *)
Definition decimal (n : N) : option N :=
  match List.find (λ r, (r.1 <=? n) && (n <=? r.2))%N decimal_runs with
  | Some r => Some ((n - r.1) mod 10)%N
  | None => None
  end.

(** [str.isspace] of one character *)
Definition isspace (c : string) : bool :=
  match ord c with
  | Some n => in_ranges whitespace n
  | None => false
  end.

(** [str.isdecimal] of one character *)
Definition isdecimal (c : string) : bool :=
  match ord c with
  | Some n => in_ranges decimal_runs n
  | None => false
  end.

(** [str.isdigit] of one character *)
Definition isdigit (c : string) : bool :=
  match ord c with
  | Some n => in_ranges decimal_runs n || in_ranges other_digits n
  | None => false
  end.

(** *** Texts *)

Fixpoint lstrip_chars (l : list string) : list string :=
  match l with
  | c :: t => if isspace c then lstrip_chars t else l
  | [] => []
  end.

Fixpoint rstrip_chars (l : list string) : list string :=
  match l with
  | c :: t =>
      match rstrip_chars t with
      | [] => if isspace c then [] else [c]
      | t' => c :: t'
      end
  | [] => []
  end.

Definition strip_chars (l : list string) : list string :=
  rstrip_chars (lstrip_chars l).

(** [s.strip()] *)
Definition strip (s : string) : string := join (strip_chars (chars s)).

(** [''.join(filter(p, s))] *)
Definition filter (p : string → bool) (s : string) : string :=
  join (List.filter p (chars s)).

(** [all(p(c) for c in s)] *)
Definition all (p : string → bool) (s : string) : bool :=
  forallb p (chars s).

(** truth value of a [str]: the empty string is falsy. *)
Definition truthy (s : string) : bool :=
  match s with EmptyString => false | _ => true end.

(** truth value of [None]-or-[str]. *)
Definition truthy_opt (o : option string) : bool :=
  match o with None => false | Some s => truthy s end.

End Py.

(** ** [decimal.Decimal] *)

Module Dec.

Inductive decimal : Type :=
| Finite (neg : bool) (coeff : N) (exp : Z)   (* (-1)^neg * coeff * 10^exp *)
| Infinity (neg : bool)
| NaN (neg : bool) (diag : N)                 (* quiet NaN *)
| sNaN (neg : bool) (diag : N).               (* signalling NaN *)

#[global] Instance decimal_eq_dec : EqDecision decimal.
Proof. solve_decision. Defined.

(** [Decimal('0')] *)
Definition zero : decimal := Finite false 0 0.

(** *** The constructor from text

    [Decimal(s)], as the C module [_decimal] does it.  The text loses the
    white space at both ends and every underscore, and is written down in
    ASCII: an ASCII character as it is, a decimal digit of any script as
    the ASCII digit of its value; any other character fails the
    conversion.  What is left is matched against
    [[-+]? ( digits [. digits] [E [-+]? digits] | Inf(inity)? | s?NaN digits* )],
    letters in either case, and a number is taken exactly or not at all: its
    exponent lies between [MIN_ETINY] and [MAX_EMAX] less the digits of its
    coefficient.  Anything else raises InvalidOperation. *)

(** one character as [numeric_as_ascii] writes it down *)
Definition as_ascii (c : string) : option ascii :=
  match Py.ord c with
  | Some n =>
      if ((0 <? n) && (n <=? 127))%N then Some (ascii_of_N n)
      else if Py.in_ranges Py.whitespace n then Some " "%char
      else match Py.decimal n with
           | Some d => Some (ascii_of_N (48 + d))
           | None => None
           end
  | None => None
  end.

(** [numeric_as_ascii] on the characters between the white space *)
Fixpoint numeric_as_ascii (l : list string) : option string :=
  match l with
  | [] => Some EmptyString
  | c :: rest =>
      if String.eqb c "_" then numeric_as_ascii rest
      else match as_ascii c, numeric_as_ascii rest with
           | Some a, Some t => Some (String a t)
           | _, _ => None
           end
  end.

(** C's [isdigit] on a byte *)
Definition isdigit (c : ascii) : bool :=
  let n := N_of_ascii c in ((48 <=? n) && (n <=? 57))%N.

Fixpoint digits_prefix (s : string) : string * string :=
  match s with
  | String c t =>
      if isdigit c
      then let '(d, r) := digits_prefix t in (String c d, r)
      else (EmptyString, s)
  | EmptyString => (EmptyString, EmptyString)
  end.

Fixpoint all_digits (s : string) : bool :=
  match s with
  | String c t => isdigit c && all_digits t
  | EmptyString => true
  end.

Definition digit_value (c : ascii) : N := (N_of_ascii c - 48)%N.

Fixpoint digits_to_N (acc : N) (s : string) : N :=
  match s with
  | String c t => digits_to_N (10 * acc + digit_value c)%N t
  | EmptyString => acc
  end.

Definition split_sign (s : string) : bool * string :=
  match s with
  | String "-" t => (true, t)
  | String "+" t => (false, t)
  | _ => (false, s)
  end.

(** [[-+]?\d+] up to the end of the text *)
Definition parse_exponent (s : string) : option Z :=
  let '(neg, r) := split_sign s in
  let '(d, rest) := digits_prefix r in
  if Py.truthy d && negb (Py.truthy rest)
  then Some (if neg then - Z.of_N (digits_to_N 0 d) else Z.of_N (digits_to_N 0 d))%Z
  else None.

Definition tolower (c : ascii) : ascii :=
  let n := N_of_ascii c in
  if ((65 <=? n) && (n <=? 90))%N then ascii_of_N (n + 32) else c.

Fixpoint lower (s : string) : string :=
  match s with
  | String c t => String (tolower c) (lower t)
  | EmptyString => EmptyString
  end.

(** [(?=\d|\.\d) \d* (\.\d* )? (E[-+]?\d+)?] up to the end of the text;
    the result is the coefficient and the exponent. *)
Definition parse_number (s : string) : option (N * Z) :=
  let '(int_part, r1) := digits_prefix s in
  let '(frac_part, r2) :=
    match r1 with
    | String "." t => digits_prefix t
    | _ => (EmptyString, r1)
    end in
  if Py.truthy int_part || Py.truthy frac_part then
    let coeff := digits_to_N 0 (int_part +:+ frac_part) in
    let shift := Z.of_nat (String.length frac_part) in
    match r2 with
    | EmptyString => Some (coeff, (0 - shift)%Z)
    | String e t =>
        if Ascii.eqb (tolower e) "e"
        then match parse_exponent t with
             | Some x => Some (coeff, (x - shift)%Z)
             | None => None
             end
        else None
    end
  else None.

(** [s.removeprefix(p)] when [s] starts with [p] *)
Fixpoint strip_prefix (p s : string) : option string :=
  match p, s with
  | EmptyString, _ => Some s
  | String a p', String b s' => if Ascii.eqb a b then strip_prefix p' s' else None
  | _, _ => None
  end.

(** [Inf(inity)?] or [s?NaN\d*], given in lower case, after the sign *)
Definition parse_special (neg : bool) (s : string) : option decimal :=
  if String.eqb s "inf" || String.eqb s "infinity" then Some (Infinity neg)
  else match strip_prefix "nan" s, strip_prefix "snan" s with
       | Some d, _ =>
           if all_digits d then Some (NaN neg (digits_to_N 0 d)) else None
       | None, Some d =>
           if all_digits d then Some (sNaN neg (digits_to_N 0 d)) else None
       | None, None => None
       end.

Definition MAX_EMAX : Z := 999999999999999999.
Definition MIN_ETINY : Z := -1999999999999999997.

(** the number of digits of a coefficient; zero has one *)
Definition precision (coeff : N) : Z := Z.of_nat (String.length (pretty coeff)).

(** the number [coeff * 10^exp] is a [Decimal] as it stands: the exponent
    is [MIN_ETINY] at least, and the exponent of the first digit is
    [MAX_EMAX] at most.  (A coefficient of [MAX_EMAX] digits or more is
    refused as well; no text is that long, and the bound is not looked
    at.) *)
Definition representable (coeff : N) (exp : Z) : bool :=
  ((MIN_ETINY <=? exp) && (exp + Z.min (precision coeff - 1) MAX_EMAX <=? MAX_EMAX))%Z.

(** the ASCII text, read as a decimal ([mpd_qset_string], taken exactly) *)
Definition of_ascii (text : string) : result decimal :=
  let '(neg, body) := split_sign text in
  match parse_number body with
  | Some (coeff, exp) =>
      if representable coeff exp then Ok (Finite neg coeff exp)
      else Raise InvalidOperation
  | None =>
      match parse_special neg (lower body) with
      | Some d => Ok d
      | None => Raise InvalidOperation
      end
  end.

(** [Decimal(s)] for a [str] [s] *)
Definition of_string (s : string) : result decimal :=
  match numeric_as_ascii (Py.strip_chars (Py.chars s)) with
  | Some text => of_ascii text
  | None => Raise InvalidOperation
  end.

(** *** Comparison *)

Definition is_nan (d : decimal) : bool :=
  match d with NaN _ _ | sNaN _ _ => true | _ => false end.

Definition is_snan (d : decimal) : bool :=
  match d with sNaN _ _ => true | _ => false end.

Definition signed (neg : bool) (z : Z) : Z := if neg then (- z)%Z else z.

(** [Decimal._cmp] on two numbers (no NaN): the order of the values. *)
Definition cmp (a b : decimal) : comparison :=
  match a, b with
  | Finite n1 c1 e1, Finite n2 c2 e2 =>
      let m := Z.min e1 e2 in
      Z.compare (signed n1 (Z.of_N c1 * 10 ^ (e1 - m)))
                (signed n2 (Z.of_N c2 * 10 ^ (e2 - m)))
  | Infinity n1, Infinity n2 =>
      match n1, n2 with
      | true, false => Lt
      | false, true => Gt
      | _, _ => Eq
      end
  | Infinity n1, _ => if n1 then Lt else Gt
  | _, Infinity n2 => if n2 then Gt else Lt
  | _, _ => Eq
  end.

(** [a > b]: a comparison that involves a NaN raises. *)
Definition gt (a b : decimal) : result bool :=
  if is_nan a || is_nan b then Raise InvalidOperation
  else Ok (match cmp a b with Gt => true | _ => false end).

(** [a != b]: a signalling NaN raises, a quiet NaN differs from everything. *)
Definition ne (a b : decimal) : result bool :=
  if is_snan a || is_snan b then Raise InvalidOperation
  else if is_nan a || is_nan b then Ok true
  else Ok (match cmp a b with Eq => false | _ => true end).

(** [d] is a number and [d >= 0]. *)
Definition nonneg (d : decimal) : bool :=
  match d with
  | Finite neg c _ => negb neg || (c =? 0)%N
  | Infinity neg => negb neg
  | _ => false
  end.

End Dec.

Export Dec(decimal).

(** ** Spreadsheet cells *)

Inductive cell : Type :=
| CNone                 (* [None]: what [row.get] gives for a missing column *)
| CNaN                  (* the float NaN pandas puts in an empty cell *)
| CStr (s : string)     (* text *)
| CInt (n : Z)          (* an integer *)
| CFloat (repr : string). (* a finite or infinite float, kept as the text [str] gives for it *)

#[global] Instance cell_eq_dec : EqDecision cell.
Proof. solve_decision. Defined.

(** [pd.isna(value)] *)
Definition isna (value : cell) : bool :=
  match value with CNone | CNaN => true | _ => false end.

(** [str(value)] *)
Definition str (value : cell) : string :=
  match value with
  | CNone => "None"
  | CNaN => "nan"
  | CStr s => s
  | CInt n => pretty n
  | CFloat repr => repr
  end.

(** ** The normalisers *)

(** [clean_string] (lines 22-26) *)
Definition clean_string (value : cell) : option string :=
  if isna value || bool_decide (value = CNone) || String.eqb (Py.strip (str value)) "NaN"
  then None
  else Some (Py.strip (str value)).

(** [clean_number] (lines 28-35) *)
Definition clean_number (value : cell) : result decimal :=
  if isna value || bool_decide (value = CNone) || String.eqb (Py.strip (str value)) "NaN"
  then Ok Dec.zero
  else try_except (Dec.of_string (str value)) (λ _, Ok Dec.zero).

(** [generate_account_number] (lines 37-42) *)
Definition generate_account_number (original_account_number : cell) : option string :=
  let cleaned := clean_string original_account_number in
  if negb (Py.truthy_opt cleaned) then None else cleaned.

(** [generate_user_id_number] (lines 44-50); the argument is [None] or text. *)
Definition generate_user_id_number (account_number : option string) : string :=
  match account_number with
  | Some text =>
      if negb (Py.truthy text) then "000000"
      else
        let numbers := Py.filter Py.isdigit text in
        if Py.truthy numbers then numbers else "000000"
  | None => "000000"
  end.

(** ** Records of the two tables *)

Record datetime : Type := mk_datetime
  { year : Z; month : Z; day : Z; microsecond_of_day : N }.

#[global] Instance datetime_eq_dec : EqDecision datetime.
Proof. solve_decision. Defined.

Definition ident : Type := nat.

(** the [user_data] dictionary (lines 102-113) *)
Record UserData : Type := mk_user_data
  { fullName : string;
    dateOfBirth : datetime;
    gender : option string;
    contactNumber : string;
    email : option string;
    address : string;
    idType : string;
    idNumber : string;
    userType : string;
    isActive : bool }.

(** the [account_data] dictionary (lines 135-144) *)
Record AccountData : Type := mk_account_data
  { accountNumber : option string;
    userId : ident;
    balance : decimal;
    interestRate : decimal;
    openingDate : datetime;
    lastTransactionDate : datetime;
    status : string;
    accountType : string }.

#[global] Instance UserData_eq_dec : EqDecision UserData.
Proof. solve_decision. Defined.

#[global] Instance AccountData_eq_dec : EqDecision AccountData.
Proof. solve_decision. Defined.

(** what the ORM client hands back: the record with its [id] *)
Record User : Type := mk_user { user_id : ident; user_fields : UserData }.
Record UserAccount : Type := mk_account { account_id : ident; account_fields : AccountData }.

(** [data={'balance': b}] applied to a record *)
Definition set_balance (b : decimal) (a : AccountData) : AccountData :=
  {| accountNumber := accountNumber a;
     userId := userId a;
     balance := b;
     interestRate := interestRate a;
     openingDate := openingDate a;
     lastTransactionDate := lastTransactionDate a;
     status := status a;
     accountType := accountType a |}.

(** Configuration (lines 19-20) *)
Definition DEFAULT_INTEREST_RATE : decimal := Dec.Finite false 40 (-1).
Definition DEFAULT_OPENING_DATE : datetime := mk_datetime 2024 1 1 0.

(** ** The state-and-error monad of the row body *)

Definition M (St A : Type) : Type := St → result A * St.

Definition ret {St A} (a : A) : M St A := λ s, (Ok a, s).

Definition bind {St A B} (c : M St A) (k : A → M St B) : M St B :=
  λ s, match c s with
       | (inl e, s') => (inl e, s')
       | (inr a, s') => k a s'
       end.

(** a computation without store effects, run inside the row body *)
Definition lift {St A} (r : result A) : M St A := λ s, (r, s).

Notation "'let*' x ':=' c 'in' k" := (bind c (λ x, k))
  (at level 10, x name, c at level 100, k at level 200).

(** ** The store interface

    The five calls the script makes on the ORM client.  Each may raise and
    each may change the store. *)

Record Store (St : Type) : Type := mk_store
  { (* prisma.user.find_first(where={'OR': [{'idNumber': i}, {'contactNumber': c}]}) *)
    user_find_first : string → string → M St (option User);
    (* prisma.user.create(data=d) *)
    user_create : UserData → M St User;
    (* prisma.useraccount.find_first(where={'accountNumber': n}) *)
    useraccount_find_first : option string → M St (option UserAccount);
    (* prisma.useraccount.create(data=d) *)
    useraccount_create : AccountData → M St UserAccount;
    (* prisma.useraccount.update(where={'id': i}, data={'balance': b}) *)
    useraccount_update : ident → decimal → M St (option UserAccount) }.

Arguments user_find_first {St} _ _ _ _.
Arguments user_create {St} _ _ _.
Arguments useraccount_find_first {St} _ _ _.
Arguments useraccount_create {St} _ _ _.
Arguments useraccount_update {St} _ _ _ _.

(** ** Rows and the run summary *)

(** a row of the sheet, by the four column labels the script reads *)
Record Row : Type := mk_row
  { Unnamed_0 : cell;   (* full name *)
    Unnamed_1 : cell;   (* account number *)
    Unnamed_2 : cell;   (* Jestha balance *)
    Unnamed_4 : cell }. (* Ashad balance *)

(** an entry of [errors] (lines 169-176) *)
Record ErrorEntry : Type := mk_error
  { error_row : nat;
    error_text : string;
    error_fullName : option string;
    error_accountNumber : option string }.

Record Summary : Type := mk_summary
  { success_count : nat;
    error_count : nat;
    errors : list ErrorEntry }.

(** how the body of the [try] ended *)
Inductive outcome : Type :=
| SkippedMissing   (* line 91 *)
| SkippedHeader    (* line 96 *)
| Created          (* lines 153-156 *)
| Updated          (* lines 160-165, balance written *)
| Unchanged.       (* line 160 false: nothing written *)

(** a required field: [None] and the empty string are both falsy (line 89) *)
Definition required (o : option string) : option string :=
  if Py.truthy_opt o then o else None.

(** [ashad_balance if ashad_balance > 0 else jestha_balance] (line 138) *)
Definition choose_balance (jestha_balance ashad_balance : decimal) : result decimal :=
  match Dec.gt ashad_balance Dec.zero with
  | inl e => Raise e
  | inr true => Ok ashad_balance
  | inr false => Ok jestha_balance
  end.

Section Upload.

Context {St : Type} (prisma : Store St).

(** lines 98-165: the row has passed both gates; [now] is what
    [datetime.now()] reads while the row is processed *)
Definition reconcile (now : datetime) (full_name account_number : string)
    (jestha_balance ashad_balance : decimal) : M St outcome :=
  let user_id_number := generate_user_id_number (Some account_number) in
  let user_data :=
    {| fullName := full_name;
       dateOfBirth := mk_datetime 1990 1 1 0;
       gender := None;
       contactNumber := "+977" +:+ user_id_number;
       email := None;
       address := "Kathmandu, Nepal";
       idType := "CITIZENSHIP";
       idNumber := user_id_number;
       userType := "SB";
       isActive := true |} in
  let* existing_user :=
    user_find_first prisma (idNumber user_data) (contactNumber user_data) in
  let* user :=
    match existing_user with
    | None => user_create prisma user_data
    | Some existing_user => ret existing_user
    end in
  let* chosen := lift (choose_balance jestha_balance ashad_balance) in
  let account_data :=
    {| accountNumber := generate_account_number (CStr account_number);
       userId := user_id user;
       balance := chosen;
       interestRate := DEFAULT_INTEREST_RATE;
       openingDate := DEFAULT_OPENING_DATE;
       lastTransactionDate := now;
       status := "ACTIVE";
       accountType := "SB" |} in
  let* existing_account :=
    useraccount_find_first prisma (accountNumber account_data) in
  match existing_account with
  | None =>
      let* account := useraccount_create prisma account_data in
      ret Created
  | Some existing_account =>
      let* differs :=
        lift (Dec.ne (balance account_data) (balance (account_fields existing_account))) in
      if differs
      then
        let* updated :=
          useraccount_update prisma (account_id existing_account) (balance account_data) in
        ret Updated
      else ret Unchanged
  end.

(** the body of the [try] (lines 82-165) for one row: the four fields,
    the two gates (lines 89 and 94), then [reconcile] *)
Definition process_row (now : datetime) (row : Row) : M St outcome :=
  let full_name := clean_string (Unnamed_0 row) in
  let account_number := clean_string (Unnamed_1 row) in
  let* jestha_balance := lift (clean_number (Unnamed_2 row)) in
  let* ashad_balance := lift (clean_number (Unnamed_4 row)) in
  match required full_name, required account_number with
  | Some full_name, Some account_number =>
      if String.eqb full_name "Account Number" || String.eqb account_number "Account Number"
      then ret SkippedHeader
      else reconcile now full_name account_number jestha_balance ashad_balance
  | _, _ => ret SkippedMissing
  end.

(** the [except] clause (lines 167-177) *)
Definition record_error (index : nat) (row : Row) (row_error : exn) (acc : Summary) : Summary :=
  {| success_count := success_count acc;
     error_count := error_count acc + 1;
     errors := errors acc ++
               [ {| error_row := index + 1;
                    error_text := str_exn row_error;
                    error_fullName := clean_string (Unnamed_0 row);
                    error_accountNumber := clean_string (Unnamed_1 row) |} ] |}.

(** [success_count += 1] on the one path that creates an account (line 156) *)
Definition record_outcome (o : outcome) (acc : Summary) : Summary :=
  match o with
  | Created =>
      {| success_count := success_count acc + 1;
         error_count := error_count acc;
         errors := errors acc |}
  | _ => acc
  end.

(** one turn of the [for] loop: the [try] with its [except] *)
Definition loop_body (clock : nat → datetime) (index : nat) (row : Row)
    (acc : Summary) (s : St) : Summary * St :=
  match process_row (clock index) row s with
  | (inr o, s') => (record_outcome o acc, s')
  | (inl row_error, s') => (record_error index row row_error acc, s')
  end.

(** [for index, row in df.iterrows()] (lines 80-177), from position [index] on *)
Fixpoint upload_rows (clock : nat → datetime) (rows : list Row) (index : nat)
    (acc : Summary) (s : St) : Summary * St :=
  match rows with
  | [] => (acc, s)
  | row :: rest =>
      let '(acc', s') := loop_body clock index row acc s in
      upload_rows clock rest (S index) acc' s'
  end.

(** the counters as line 76-78 set them, then the loop *)
Definition upload_sb_accounts (clock : nat → datetime) (rows : list Row) (s : St)
    : Summary * St :=
  upload_rows clock rows 0 {| success_count := 0; error_count := 0; errors := [] |} s.

End Upload.

(** ** An in-memory store *)

(** Modelled from the spec: the persistence capability (the database behind
    the ORM client) is outside the repository; section 6 of the
    specification lists its operations (find, create, update, count) and
    section 3 says what the two entities keep.  The model is two tables that
    only grow: the [id] of a record is its position in its table,
    [find_first] returns the first record that matches, [create] appends,
    and [update] overwrites the one field it is given on the record with
    that [id].  No call of this store fails. *)
Record db : Type := mk_db
  { users : list UserData;
    accounts : list AccountData }.

Definition user_matches (id_number contact_number : string) (u : UserData) : Prop :=
  idNumber u = id_number ∨ contactNumber u = contact_number.

Definition account_matches (account_number : option string) (a : AccountData) : Prop :=
  accountNumber a = account_number.

#[global] Instance user_matches_dec i c u : Decision (user_matches i c u).
Proof. unfold user_matches. apply _. Defined.

#[global] Instance account_matches_dec n a : Decision (account_matches n a).
Proof. unfold account_matches. apply _. Defined.

Definition as_user (p : nat * UserData) : User :=
  {| user_id := p.1; user_fields := p.2 |}.

Definition as_account (p : nat * AccountData) : UserAccount :=
  {| account_id := p.1; account_fields := p.2 |}.

Definition mem_user_find_first (id_number contact_number : string) : M db (option User) :=
  λ s, (Ok (as_user <$> list_find (user_matches id_number contact_number) (users s)), s).

Definition mem_user_create (d : UserData) : M db User :=
  λ s, (Ok {| user_id := length (users s); user_fields := d |},
        {| users := users s ++ [d]; accounts := accounts s |}).

Definition mem_useraccount_find_first (account_number : option string)
    : M db (option UserAccount) :=
  λ s, (Ok (as_account <$> list_find (account_matches account_number) (accounts s)), s).

Definition mem_useraccount_create (d : AccountData) : M db UserAccount :=
  λ s, (Ok {| account_id := length (accounts s); account_fields := d |},
        {| users := users s; accounts := accounts s ++ [d] |}).

Definition mem_useraccount_update (i : ident) (b : decimal) : M db (option UserAccount) :=
  λ s, (Ok ((λ a, {| account_id := i; account_fields := set_balance b a |}) <$> accounts s !! i),
        {| users := users s; accounts := alter (set_balance b) i (accounts s) |}).

Definition MemStore : Store db :=
  {| user_find_first := mem_user_find_first;
     user_create := mem_user_create;
     useraccount_find_first := mem_useraccount_find_first;
     useraccount_create := mem_useraccount_create;
     useraccount_update := mem_useraccount_update |}.

(** the same store, except that creating an account whose number is in
    [rejected] raises (a constraint of the database, say) *)
Definition FaultyStore (rejected : list string) : Store db :=
  {| user_find_first := mem_user_find_first;
     user_create := mem_user_create;
     useraccount_find_first := mem_useraccount_find_first;
     useraccount_create := λ d s,
       match accountNumber d with
       | Some n =>
           if bool_decide (n ∈ rejected)
           then (Raise (StoreError "useraccount.create failed"), s)
           else mem_useraccount_create d s
       | None => mem_useraccount_create d s
       end;
     useraccount_update := mem_useraccount_update |}.

(** the store a run leaves behind *)
Definition final_store (clock : nat → datetime) (rows : list Row) (s : db) : db :=
  (upload_sb_accounts MemStore clock rows s).2.

Definition empty_db : db := {| users := []; accounts := [] |}.
Definition midnight : nat → datetime := λ _, mk_datetime 2025 7 16 0.
Definition text_row (name account jestha ashad : string) : Row :=
  {| Unnamed_0 := CStr name; Unnamed_1 := CStr account;
     Unnamed_2 := CStr jestha; Unnamed_4 := CStr ashad |}.

(** ** A store that records the calls made on it

    [traced base] behaves as [base] does and writes every call down, so
    that "which calls did the row make" is a question about the log. *)

Inductive call : Type :=
| UserFindFirst (id_number contact_number : string)
| UserCreate (d : UserData)
| AccountFindFirst (account_number : option string)
| AccountCreate (d : AccountData)
| AccountUpdate (i : ident) (b : decimal).

Definition traced_call {St A} (c : call) (op : M St A) : M (St * list call) A :=
  λ sl, let '(r, s') := op sl.1 in (r, (s', (sl.2 ++ [c])%list)).

Definition traced {St} (base : Store St) : Store (St * list call) :=
  {| user_find_first := λ i c, traced_call (UserFindFirst i c) (user_find_first base i c);
     user_create := λ d, traced_call (UserCreate d) (user_create base d);
     useraccount_find_first := λ n,
       traced_call (AccountFindFirst n) (useraccount_find_first base n);
     useraccount_create := λ d, traced_call (AccountCreate d) (useraccount_create base d);
     useraccount_update := λ i b,
       traced_call (AccountUpdate i b) (useraccount_update base i b) |}.

(** the balance a call asks the store to write, if it writes one *)
Definition written_balance (c : call) : option decimal :=
  match c with
  | AccountCreate d => Some (balance d)
  | AccountUpdate _ b => Some b
  | _ => None
  end.

(** the calls one row makes on [base], started in state [s] *)
Definition calls_of_row {St} (base : Store St) (now : datetime) (row : Row) (s : St)
    : list call :=
  (process_row (traced base) now row (s, [])).2.2.

(** the balances a list of calls asks the store to write, in the order of
    the calls *)
Definition written_balances (calls : list call) : list decimal :=
  omap written_balance calls.

(** ** Words of the specification about a row *)

(** a decimal that is a number and strictly above zero *)
Definition strictly_positive (d : decimal) : bool :=
  match d with
  | Dec.Finite false c _ => negb (c =? 0)%N
  | Dec.Infinity false => true
  | _ => false
  end.

(** the row passes the validity gate and the header-row gate (steps 2 and
    3 of section 4.2); the answer is its cleaned name and account identifier *)
Definition gated_fields (row : Row) : option (string * string) :=
  match required (clean_string (Unnamed_0 row)), required (clean_string (Unnamed_1 row)) with
  | Some full_name, Some account_number =>
      if String.eqb full_name "Account Number" || String.eqb account_number "Account Number"
      then None
      else Some (full_name, account_number)
  | _, _ => None
  end.

(** the calls that write to the account table *)
Definition is_account_write (c : call) : bool :=
  match c with
  | AccountCreate _ | AccountUpdate _ _ => true
  | _ => false
  end.

Definition account_writes (calls : list call) : list call :=
  List.filter is_account_write calls.

(** ** Sample rows *)

(** member [k] of a numbered batch: account "k", Jestha 100, Ashad 150 *)
Definition member_row (k : nat) : Row :=
  text_row ("Member " +:+ pretty k) (pretty k) "100" "150".

(** ** The run on the in-memory store, table by table *)

(** two numbers (no NaN) with the same value *)
Definition same_number (x y : decimal) : Prop :=
  Dec.is_nan x = false ∧ Dec.is_nan y = false ∧ Dec.cmp x y = Eq.

(** the account half of the row body (lines 147-165) on an account table,
    for the candidate record [d]: look the account number up, append [d]
    when it is not there, and overwrite the balance of the record found when
    [!=] says the two balances differ *)
Definition write_account (d : AccountData) (accts : list AccountData) : list AccountData :=
  match list_find (account_matches (accountNumber d)) accts with
  | None => accts ++ [d]
  | Some (i, stored) =>
      match Dec.ne (balance d) (balance stored) with
      | inr true => alter (set_balance (balance d)) i accts
      | _ => accts
      end
  end.

(** one [write_account] after the other *)
Fixpoint write_all (ds : list AccountData) (accts : list AccountData) : list AccountData :=
  match ds with
  | [] => accts
  | d :: rest => write_all rest (write_account d accts)
  end.

(** a record with its balance blanked: everything a balance update keeps *)
Definition shape (a : AccountData) : AccountData := set_balance Dec.zero a.

(** two candidate records with the same account number and balance *)
Definition same_write (d1 d2 : AccountData) : Prop :=
  accountNumber d1 = accountNumber d2 ∧ balance d1 = balance d2.

(** [T], a table of the second pass, against [S], the table of the first
    pass at the same row, and [F], the table the first pass ends with: [T]
    has the records of [F], and each balance in [T] is the final one, or the
    one of [S], or a number equal to the one of [S] that the first pass is
    still going to replace *)
Definition settled (S T F : list AccountData) : Prop :=
  shape <$> T = shape <$> F
  ∧ ∀ p t f, T !! p = Some t → F !! p = Some f →
      balance t = balance f
      ∨ ∃ s, S !! p = Some s
             ∧ (balance t = balance s
                ∨ (same_number (balance t) (balance s)
                   ∧ ¬ same_number (balance s) (balance f))).

(** the balance a record holds after a write of [b] was attempted on it *)
Definition kept (b v : decimal) : decimal :=
  match Dec.ne b v with
  | inr true => b
  | _ => v
  end.

(** the [user_data] dictionary of lines 102-113, as [reconcile] builds it *)
Definition candidate_user (full_name account_number : string) : UserData :=
  let user_id_number := generate_user_id_number (Some account_number) in
  {| fullName := full_name;
     dateOfBirth := mk_datetime 1990 1 1 0;
     gender := None;
     contactNumber := "+977" +:+ user_id_number;
     email := None;
     address := "Kathmandu, Nepal";
     idType := "CITIZENSHIP";
     idNumber := user_id_number;
     userType := "SB";
     isActive := true |}.

(** the [account_data] dictionary of lines 135-144, as [reconcile] builds it *)
Definition candidate_account (now : datetime) (account_number : string) (user : ident)
    (chosen : decimal) : AccountData :=
  {| accountNumber := generate_account_number (CStr account_number);
     userId := user;
     balance := chosen;
     interestRate := DEFAULT_INTEREST_RATE;
     openingDate := DEFAULT_OPENING_DATE;
     lastTransactionDate := now;
     status := "ACTIVE";
     accountType := "SB" |}.

(** the person lookup of lines 116-132 on a user table: the table
    afterwards, and the [id] of the person the row goes on with *)
Definition resolve_user (ud : UserData) (us : list UserData) : list UserData * ident :=
  match list_find (user_matches (idNumber ud) (contactNumber ud)) us with
  | Some (i, _) => (us, i)
  | None => (us ++ [ud], length us)
  end.

(** the candidate person of a row that passes the gates *)
Definition row_user (row : Row) : option UserData :=
  match gated_fields row with
  | Some (full_name, account_number) => Some (candidate_user full_name account_number)
  | None => None
  end.

(** the user table after the row *)
Definition users_after (row : Row) (us : list UserData) : list UserData :=
  match row_user row with
  | Some ud => (resolve_user ud us).1
  | None => us
  end.

(** the candidate account record of a row, when the row gets as far as
    building one *)
Definition row_write (now : datetime) (row : Row) (us : list UserData) : option AccountData :=
  match gated_fields row, clean_number (Unnamed_2 row), clean_number (Unnamed_4 row) with
  | Some (full_name, account_number), inr jestha_balance, inr ashad_balance =>
      match choose_balance jestha_balance ashad_balance with
      | inr chosen =>
          Some (candidate_account now account_number
                  (resolve_user (candidate_user full_name account_number) us).2 chosen)
      | inl _ => None
      end
  | _, _, _ => None
  end.

(** the user table after the rows *)
Fixpoint run_users (rows : list Row) (us : list UserData) : list UserData :=
  match rows with
  | [] => us
  | row :: rest => run_users rest (users_after row us)
  end.

(** the candidate account records of the rows, in row order, from position
    [index] on and from the user table [us] *)
Fixpoint run_writes (clock : nat → datetime) (rows : list Row) (index : nat)
    (us : list UserData) : list AccountData :=
  match rows with
  | [] => []
  | row :: rest =>
      let later := run_writes clock rest (S index) (users_after row us) in
      match row_write (clock index) row us with
      | Some d => d :: later
      | None => later
      end
  end.

(** a person with the candidate's identification number or contact number
    is in the table *)
Definition known (ud : UserData) (us : list UserData) : Prop :=
  ∃ u, u ∈ us ∧ user_matches (idNumber ud) (contactNumber ud) u.

(** ** The normalisers as the specification words them *)

(** the bytes [c] are one character: the UTF-8 form of a code point *)
Definition character (c : string) : Prop := is_Some (Py.ord c).

(** the bytes [c] are a whole character: as many as the first one announces *)
Definition complete (c : string) : Prop :=
  match c with
  | String a t => S (String.length t) = Py.width a
  | EmptyString => False
  end.

(** the bytes [c] are a character or the start of one *)
Definition chunk (c : string) : Prop :=
  match c with
  | String a t => (S (String.length t) ≤ Py.width a)%nat
  | EmptyString => False
  end.

(** a list of characters as [Py.chars] gives it: only the last one may be
    cut short *)
Fixpoint well_split (l : list string) : Prop :=
  match l with
  | [] => True
  | [c] => chunk c
  | c :: rest => complete c ∧ well_split rest
  end.

(** [t] is the trimmed form of [s]: [s] is [t] between two stretches of
    white space, and [t] neither starts nor ends with a white-space
    character *)
Definition trimmed (s t : string) : Prop :=
  ∃ l r, s = l +:+ t +:+ r
    ∧ Py.all Py.isspace l = true ∧ Py.all Py.isspace r = true
    ∧ (∀ c, head (Py.chars t) = Some c → Py.isspace c = false)
    ∧ (∀ c, last (Py.chars t) = Some c → Py.isspace c = false).

(** [None] or text, as a cell again: what [clean_string] is applied to when
    it is applied to its own output *)
Definition cell_of (o : option string) : cell :=
  match o with None => CNone | Some s => CStr s end.

(** the characters of a class, one after the other as they stand, or the
    six zeros when there is none *)
Definition digits_or_sentinel (class : string → bool) (cs : list string) : string :=
  match List.filter class cs with
  | [] => "000000"
  | found => Py.join found
  end.

(** section 4.1, [extract_digits]: "the concatenation of all decimal-digit
    characters found in the identifier, in original order; a fixed
    six-character zero sentinel when the identifier is absent or contains no
    digits".  The decimal digits are the characters of the class Nd, what
    [str.isdecimal] accepts. *)
Definition extract_digits_spec (identifier : option string) : string :=
  digits_or_sentinel Py.isdecimal (from_option Py.chars [] identifier).

(** *** Numerals, as a reader takes them apart *)

(** the ASCII digit of a value below ten *)
Definition digit_char (d : N) : ascii := ascii_of_N (48 + d).

Definition digit_text (ds : list N) : string :=
  string_of_list_ascii (digit_char <$> ds).

(** the number a row of digits writes *)
Definition digits_value (ds : list N) : N :=
  foldl (λ acc d, 10 * acc + d)%N 0%N ds.

(** a sign as written: none, "+" or "-" *)
Definition sign_text (sign : option bool) : string :=
  match sign with
  | None => ""
  | Some false => "+"
  | Some true => "-"
  end.

Definition is_minus (sign : option bool) : bool :=
  match sign with Some true => true | _ => false end.

(** a numeral: its sign, the digits before the point, the digits after the
    point when there is a point, and the exponent when there is one, with
    the letter that starts it (capital or not), its sign and its digits *)
Record numeral : Type := mk_numeral
  { num_sign : option bool;
    num_int : list N;
    num_frac : option (list N);
    num_exp : option (bool * option bool * list N) }.

Definition frac_digits (n : numeral) : list N :=
  match num_frac n with
  | Some f => f
  | None => []
  end.

Definition frac_text (n : numeral) : string :=
  match num_frac n with
  | Some f => "." +:+ digit_text f
  | None => ""
  end.

Definition exp_text (n : numeral) : string :=
  match num_exp n with
  | Some (capital, sign, ds) =>
      (if capital : bool then "E" else "e") +:+ sign_text sign +:+ digit_text ds
  | None => ""
  end.

(** the text of a numeral *)
Definition render (n : numeral) : string :=
  sign_text (num_sign n) +:+ digit_text (num_int n) +:+ frac_text n +:+ exp_text n.

(** every digit is below ten, there is a digit before or after the point,
    and an exponent has a digit *)
Definition numeral_ok (n : numeral) : Prop :=
  Forall (λ d, d < 10)%N (num_int n)
  ∧ Forall (λ d, d < 10)%N (frac_digits n)
  ∧ (num_int n ≠ [] ∨ frac_digits n ≠ [])
  ∧ match num_exp n with
    | Some (_, _, ds) => Forall (λ d, d < 10)%N ds ∧ ds ≠ []
    | None => True
    end.

(** the coefficient and the exponent the numeral stands for *)
Definition coefficient (n : numeral) : N :=
  digits_value (num_int n ++ frac_digits n).

Definition exponent (n : numeral) : Z :=
  match num_exp n with
  | Some (_, sign, ds) =>
      if is_minus sign then - Z.of_N (digits_value ds) else Z.of_N (digits_value ds)
  | None => 0
  end - Z.of_nat (length (frac_digits n)).

(** the decimal the numeral stands for *)
Definition numeral_value (n : numeral) : decimal :=
  Dec.Finite (is_minus (num_sign n)) (coefficient n) (exponent n).

(** a byte that [strip] and [numeric_as_ascii] leave as it is: printable
    ASCII, neither the blank nor the underscore *)
Definition plain (a : ascii) : bool :=
  let n := N_of_ascii a in ((33 <=? n) && (n <=? 126) && negb (n =? 95))%N.

Fixpoint all_plain (s : string) : bool :=
  match s with
  | String a t => plain a && all_plain t
  | EmptyString => true
  end.

(** the text does not go on with a digit *)
Definition ends_digits (rest : string) : Prop :=
  match rest with
  | String c _ => Dec.isdigit c = false
  | EmptyString => True
  end.

(** ** Words about a run *)

(** the error entry [e] is the one the loop writes for the row at its
    position: the row's cleaned name and account identifier *)
Definition entry_of_row (rows : list Row) (e : ErrorEntry) : Prop :=
  ∃ row, rows !! (error_row e - 1) = Some row
         ∧ error_fullName e = clean_string (Unnamed_0 row)
         ∧ error_accountNumber e = clean_string (Unnamed_1 row).

(** the account [a] belongs to a person of the table [us]: its [userId] is
    the position of a person whose identification number, or whose contact
    number, is the one derived from the digits of the account's number *)
Definition owned (us : list UserData) (a : AccountData) : Prop :=
  ∃ u, us !! userId a = Some u
       ∧ user_matches (generate_user_id_number (accountNumber a))
           ("+977" +:+ generate_user_id_number (accountNumber a)) u.

(** ** The whole script: connection, workbook, loop, verification *)

(** what ends [upload_sb_accounts] before its last line *)
Inductive fatal : Type :=
| FileNotFoundError (msg : string)   (* raised at line 62 *)
| ExcelError (msg : string)          (* [pd.read_excel] raising at line 67 *)
| ClientError (e : exn).             (* the ORM client raising outside the row loop *)

(** the input file as the script meets it *)
Record Workbook : Type := mk_workbook
  { EXCEL_FILE_PATH : string;
    (* os.path.exists(EXCEL_FILE_PATH) *)
    path_exists : bool;
    (* pd.read_excel(EXCEL_FILE_PATH, sheet_name='SB'): the rows, or the
       text of what it raises *)
    read_SB : string + list Row }.

(** the ORM client: the connection, the two tables, and the two counts *)
Record Client (St : Type) : Type := mk_client
  { (* prisma.connect() *)
    connect : M St unit;
    (* prisma.disconnect() *)
    disconnect : M St unit;
    (* prisma.user and prisma.useraccount *)
    tables : Store St;
    (* prisma.user.count(where={'userType': t}) *)
    user_count : string → M St nat;
    (* prisma.useraccount.count(where={'accountType': t}) *)
    useraccount_count : string → M St nat }.

Arguments connect {St} _ _.
Arguments disconnect {St} _ _.
Arguments tables {St} _.
Arguments user_count {St} _ _ _.
Arguments useraccount_count {St} _ _ _.

(** what the summary and the verification print (lines 180-195) *)
Record Report : Type := mk_report
  { summary : Summary;
    total_users : nat;
    total_accounts : nat }.

Module Script.

Section Run.

Context {St : Type} (prisma : Client St) (book : Workbook) (clock : nat → datetime).

(** the [try] block of [upload_sb_accounts] (lines 57-195) *)
Definition try_block (s : St) : (fatal + Report) * St :=
  if negb (path_exists book)
  then (inl (FileNotFoundError ("Excel file not found at: " +:+ EXCEL_FILE_PATH book)), s)
  else
    match read_SB book with
    | inl msg => (inl (ExcelError msg), s)
    | inr df =>
        let '(acc, s1) := upload_sb_accounts (tables prisma) clock df s in
        match user_count prisma "SB" s1 with
        | (inl e, s2) => (inl (ClientError e), s2)
        | (inr users_found, s2) =>
            match useraccount_count prisma "SB" s2 with
            | (inl e, s3) => (inl (ClientError e), s3)
            | (inr accounts_found, s3) =>
                (inr {| summary := acc;
                        total_users := users_found;
                        total_accounts := accounts_found |}, s3)
            end
        end
    end.

(** [upload_sb_accounts] (lines 52-201): connect, then the [try] block
    whose [except] raises the error again, then [finally: disconnect] *)
Definition upload_sb_accounts (s : St) : (fatal + Report) * St :=
  match connect prisma s with
  | (inl e, s0) => (inl (ClientError e), s0)
  | (inr _, s0) =>
      let '(r, s1) := try_block s0 in
      match disconnect prisma s1 with
      | (inl e, s2) => (inl (ClientError e), s2)
      | (inr _, s2) => (r, s2)
      end
  end.

(** [main] (lines 203-210): the exit status of the process *)
Definition main (s : St) : nat * St :=
  match upload_sb_accounts s with
  | (inr _, s') => (0, s')
  | (inl _, s') => (1, s')
  end.

End Run.

End Script.

(** *** A client that records the calls made on it *)

Inductive client_call : Type :=
| Connect
| Disconnect
| UserCount (t : string)
| UserAccountCount (t : string)
| TableCall (c : call).

Definition logged_call {St A} (c : client_call) (op : M St A)
    : M (St * list client_call) A :=
  λ sl, let '(r, s') := op sl.1 in (r, (s', sl.2 ++ [c])).

Definition logged {St} (base : Client St) : Client (St * list client_call) :=
  {| connect := logged_call Connect (connect base);
     disconnect := logged_call Disconnect (disconnect base);
     tables :=
       {| user_find_first := λ i c,
            logged_call (TableCall (UserFindFirst i c)) (user_find_first (tables base) i c);
          user_create := λ d,
            logged_call (TableCall (UserCreate d)) (user_create (tables base) d);
          useraccount_find_first := λ n,
            logged_call (TableCall (AccountFindFirst n))
              (useraccount_find_first (tables base) n);
          useraccount_create := λ d,
            logged_call (TableCall (AccountCreate d)) (useraccount_create (tables base) d);
          useraccount_update := λ i b,
            logged_call (TableCall (AccountUpdate i b))
              (useraccount_update (tables base) i b) |};
     user_count := λ t, logged_call (UserCount t) (user_count base t);
     useraccount_count := λ t, logged_call (UserAccountCount t) (useraccount_count base t) |}.

(** a call that opens or closes the connection *)
Definition is_session_call (c : client_call) : Prop :=
  c = Connect ∨ c = Disconnect.

(** *** An in-memory client *)

(** Modelled from the spec: the counts of the persistence capability
    (section 6: [count_persons], [count_accounts]) on the in-memory tables,
    around any store on those tables; opening and closing the connection
    leaves the tables alone and never fails. *)
Definition MemClient (store : Store db) : Client db :=
  {| connect := ret tt;
     disconnect := ret tt;
     tables := store;
     user_count := λ t s,
       (Ok (length (filter (λ u, userType u = t) (users s))), s);
     useraccount_count := λ t s,
       (Ok (length (filter (λ a, accountType a = t) (accounts s))), s) |}.

(** ** The workbook inspector ([be/read_excel.py])

    The script only prints.  Its output is the list of the texts it hands
    to [print], one per call; the texts pandas renders (a frame's columns,
    first rows and types, the list of sheet names) are inputs. *)

(** the line break inside a printed text *)
Definition newline : string := String "010" "".

(** [s * n] for a text [s] *)
Fixpoint str_times (s : string) (n : nat) : string :=
  match n with
  | 0 => ""
  | S n' => s +:+ str_times s n'
  end.

(** a sheet as [pd.read_excel] returns it *)
Record SheetData : Type := mk_sheet_data
  { shape_rows : nat;
    shape_columns : nat;
    columns_text : string;    (* str(list(df.columns)) *)
    head_text : string;       (* df.head(10).to_string() *)
    dtypes_text : string }.   (* str(df.dtypes) *)

(** [df.empty]: one of the two axes has length 0 *)
Definition sheet_empty (df : SheetData) : bool :=
  (shape_rows df =? 0)%nat || (shape_columns df =? 0)%nat.

(** the workbook as [pd.ExcelFile] opens it: the sheets in order, each with
    its name and what [pd.read_excel] gives for it, the frame or the text
    of the error it raises *)
Record ExcelFile : Type := mk_excel_file
  { sheet_names_text : string;   (* str(excel_file.sheet_names) *)
    sheets : list (string * (string + SheetData)) }.

(** what is at [file_path] *)
Record Disk : Type := mk_disk
  { disk_exists : bool;                 (* os.path.exists(file_path) *)
    disk_open : string + ExcelFile }.   (* pd.ExcelFile(file_path), or the error text *)

(** lines 25-26: the two prints before a sheet is read *)
Definition sheet_heading (sheet_name : string) : list string :=
  [ newline +:+ "Sheet: '" +:+ sheet_name +:+ "'";
    str_times "-" 30 ].

(** lines 32-46: the prints after a sheet was read *)
Definition sheet_body (df : SheetData) : list string :=
  [ "Shape: (" +:+ pretty (shape_rows df) +:+ ", " +:+ pretty (shape_columns df)
    +:+ ") (rows, columns)";
    "Columns: " +:+ columns_text df ]
  ++ (if negb (sheet_empty df)
      then [ newline +:+ "First 10 rows:"; head_text df;
             newline +:+ "Data types:"; dtypes_text df ]
      else [ "Sheet is empty" ])
  ++ [ newline +:+ str_times "=" 50 ].

(** the [for] loop of lines 24-46: what it prints, and the error that ended
    it if one did *)
Fixpoint read_sheets (l : list (string * (string + SheetData)))
    : list string * option string :=
  match l with
  | [] => ([], None)
  | (sheet_name, inl e) :: _ => (sheet_heading sheet_name, Some e)
  | (sheet_name, inr df) :: rest =>
      let '(out, err) := read_sheets rest in
      (sheet_heading sheet_name ++ sheet_body df ++ out, err)
  end.

(** lines 18-21 *)
Definition file_header (file_path : string) (f : ExcelFile) : list string :=
  [ "Excel file: " +:+ file_path;
    "Number of sheets: " +:+ pretty (length (sheets f));
    "Sheet names: " +:+ sheet_names_text f;
    str_times "=" 50 ].

(** [read_excel_file] (lines 6-49): everything it prints *)
Definition read_excel_file (file_path : string) (disk : Disk) : list string :=
  if negb (disk_exists disk)
  then [ "Error: File '" +:+ file_path +:+ "' not found." ]
  else
    match disk_open disk with
    | inl e => [ "Error reading Excel file: " +:+ e ]
    | inr f =>
        let '(out, err) := read_sheets (sheets f) in
        file_header file_path f ++ out
        ++ match err with
           | Some e => [ "Error reading Excel file: " +:+ e ]
           | None => []
           end
    end.

(** the block of a sheet that was read *)
Definition sheet_block (sheet_name : string) (df : SheetData) : list string :=
  sheet_heading sheet_name ++ sheet_body df.

(** * Properties *)

(** ** Text *)

Lemma append_nil_r (s : string) : s +:+ "" = s.
Proof.
  induction s as [|c t IH]; [done|].
  change (String c (t +:+ "") = String c t). by f_equal.
Qed.

Lemma append_cons (c : ascii) (s t : string) : String c s +:+ t = String c (s +:+ t).
Proof. reflexivity. Qed.

Lemma append_assoc (s t u : string) : (s +:+ t) +:+ u = s +:+ (t +:+ u).
Proof.
  induction s as [|c s IH]; [done|]. rewrite !append_cons. by f_equal.
Qed.

Lemma width_pos (a : ascii) : (1 ≤ Py.width a)%nat.
Proof. unfold Py.width. repeat case_match; lia. Qed.

Lemma split_cons_0 (a : ascii) (t : string) :
  Py.split 0 (String a t)
  = ("", String a (Py.split (Py.width a - 1) t).1 :: (Py.split (Py.width a - 1) t).2).
Proof. cbn [Py.split]. by destruct (Py.split _ t). Qed.

Lemma split_cons_S (k : nat) (a : ascii) (t : string) :
  Py.split (S k) (String a t) = (String a (Py.split k t).1, (Py.split k t).2).
Proof. cbn [Py.split]. by destruct (Py.split _ t). Qed.

Lemma split_join (k : nat) (s : string) :
  (Py.split k s).1 +:+ Py.join (Py.split k s).2 = s.
Proof.
  revert k. induction s as [|a t IH]; intros k; [done|].
  destruct k as [|k].
  - rewrite split_cons_0. cbn [fst snd Py.join].
    change ("" +:+ ?x) with x. rewrite append_cons. f_equal. apply IH.
  - rewrite split_cons_S. cbn [fst snd]. rewrite append_cons. f_equal. apply IH.
Qed.

Lemma join_chars (s : string) : Py.join (Py.chars s) = s.
Proof.
  pose proof (split_join 0 s) as H. unfold Py.chars.
  destruct s as [|a t]; [done|]. rewrite split_cons_0 in *. exact H.
Qed.

Lemma split_0 (s : string) : Py.split 0 s = ("", Py.chars s).
Proof. unfold Py.chars. destruct s as [|a t]; [done|]. by rewrite split_cons_0. Qed.

Lemma split_app (t s : string) :
  Py.split (String.length t) (t +:+ s) = (t, Py.chars s).
Proof.
  induction t as [|a t IH].
  - change ("" +:+ s) with s. apply split_0.
  - rewrite append_cons. cbn [String.length]. by rewrite split_cons_S, IH.
Qed.

Lemma split_short (k : nat) (t : string) :
  (String.length t ≤ k)%nat → Py.split k t = (t, []).
Proof.
  revert k. induction t as [|a t IH]; intros k Hk; [done|].
  cbn [String.length] in Hk. destruct k as [|k]; [lia|].
  rewrite split_cons_S, IH by lia. done.
Qed.

Lemma chars_cons (c s : string) : complete c → Py.chars (c +:+ s) = c :: Py.chars s.
Proof.
  destruct c as [|a t]; [done|]. cbn [complete]. intros Hc.
  unfold Py.chars at 1. rewrite append_cons, split_cons_0.
  replace (Py.width a - 1)%nat with (String.length t) by lia.
  by rewrite split_app.
Qed.

Lemma chars_chunk (c : string) : chunk c → Py.chars c = [c].
Proof.
  destruct c as [|a t]; [done|]. cbn [chunk]. intros Hc.
  unfold Py.chars. rewrite split_cons_0, split_short by lia. done.
Qed.

Lemma complete_chunk (c : string) : complete c → chunk c.
Proof. destruct c as [|a t]; [done|]. cbn. lia. Qed.

Lemma well_split_cons (c : string) (l : list string) :
  well_split (c :: l) ↔ (if l is [] then chunk c else complete c) ∧ well_split l.
Proof. destruct l; cbn; tauto. Qed.

Lemma chars_join (l : list string) : well_split l → Py.chars (Py.join l) = l.
Proof.
  induction l as [|c l IH]; [done|]. intros [Hc Hl]%well_split_cons.
  cbn [Py.join]. destruct l as [|c' l].
  - cbn [Py.join]. rewrite append_nil_r. by apply chars_chunk.
  - rewrite chars_cons by done. f_equal. by apply IH.
Qed.

Lemma split_well (k : nat) (s : string) :
  (String.length (Py.split k s).1 ≤ k)%nat
  ∧ well_split (Py.split k s).2
  ∧ ((Py.split k s).2 ≠ [] → String.length (Py.split k s).1 = k).
Proof.
  revert k. induction s as [|a t IH]; intros k.
  - cbn. split_and!; [lia|done|done].
  - destruct k as [|k].
    + rewrite split_cons_0. cbn [fst snd String.length].
      split_and!; [lia| |done].
      destruct (IH (Py.width a - 1)%nat) as (H1 & H2 & H3).
      pose proof (width_pos a).
      apply well_split_cons. split; [|done].
      destruct (Py.split (Py.width a - 1) t).2 eqn:E; cbn [chunk complete].
      * cbn [fst] in *. lia.
      * rewrite H3 by done. lia.
    + rewrite split_cons_S. cbn [fst snd String.length].
      destruct (IH k) as (H1 & H2 & H3). split_and!; [lia|done|].
      intros Hne. by rewrite H3.
Qed.

Lemma well_split_chars (s : string) : well_split (Py.chars s).
Proof. apply (split_well 0 s). Qed.

Lemma well_split_sublist (l1 l2 : list string) :
  l1 `sublist_of` l2 → well_split l2 → well_split l1.
Proof.
  induction 1 as [|c l1 l2 Hsub IH|c l1 l2 Hsub IH]; [done| |].
  - intros [Hc Hl]%well_split_cons. apply well_split_cons. split; [|by apply IH].
    destruct l1 as [|c1 l1]; destruct l2 as [|c2 l2]; try done.
    + by apply complete_chunk.
    + by apply sublist_nil_r in Hsub.
  - intros [_ Hl]%well_split_cons. by apply IH.
Qed.

Lemma chars_sublist (l : list string) (s : string) :
  l `sublist_of` Py.chars s → Py.chars (Py.join l) = l.
Proof. intros H. eapply chars_join, well_split_sublist, well_split_chars. exact H. Qed.

(** ** characters with a code point *)

Lemma ord_complete (c : string) (n : N) : Py.ord c = Some n → complete c.
Proof.
  unfold Py.ord, complete, Py.width.
  destruct c as [|a [|b [|c [|d [|e t]]]]]; try done; cbn [String.length].
  all: repeat case_match; try done.
  all: repeat match goal with
         | H : (_ && _)%bool = true |- _ => apply andb_true_iff in H as [? ?]
         | H : (_ <? _)%N = _ |- _ => first [apply N.ltb_lt in H | apply N.ltb_ge in H]
         | H : (_ <=? _)%N = _ |- _ => first [apply N.leb_le in H | apply N.leb_gt in H]
         end; lia.
Qed.

Lemma isspace_complete (c : string) : Py.isspace c = true → complete c.
Proof. unfold Py.isspace. destruct (Py.ord c) eqn:E; [|done]. intros _. by eapply ord_complete. Qed.

Lemma isdigit_complete (c : string) : Py.isdigit c = true → complete c.
Proof. unfold Py.isdigit. destruct (Py.ord c) eqn:E; [|done]. intros _. by eapply ord_complete. Qed.

Lemma complete_well_split (l : list string) : Forall complete l → well_split l.
Proof.
  induction 1 as [|c l Hc Hl IH]; [done|]. apply well_split_cons. split; [|done].
  destruct l; [by apply complete_chunk|done].
Qed.

Lemma chars_join_app (l : list string) (s : string) :
  Forall complete l → Py.chars (Py.join l +:+ s) = l ++ Py.chars s.
Proof.
  induction 1 as [|c l Hc Hl IH]; [done|].
  cbn [Py.join]. rewrite append_assoc, chars_cons by done. cbn. by f_equal.
Qed.

Lemma join_app (l1 l2 : list string) : Py.join (l1 ++ l2) = Py.join l1 +:+ Py.join l2.
Proof.
  induction l1 as [|c l1 IH]; [done|]. cbn [app Py.join]. by rewrite IH, append_assoc.
Qed.

(** ** [strip] on the list of characters *)

Lemma lstrip_chars_split (l : list string) :
  ∃ pre, l = pre ++ Py.lstrip_chars l ∧ forallb Py.isspace pre = true
         ∧ ∀ c, head (Py.lstrip_chars l) = Some c → Py.isspace c = false.
Proof.
  induction l as [|c l (pre & Hl & Hpre & Hhd)].
  - by exists [].
  - cbn [Py.lstrip_chars]. destruct (Py.isspace c) eqn:Hc.
    + exists (c :: pre). cbn [forallb app]. rewrite Hc, Hpre. split_and!; [by f_equal|done|done].
    + exists []. split_and!; [done..|]. by intros c' [= <-].
Qed.

Lemma rstrip_chars_split (l : list string) :
  ∃ post, l = Py.rstrip_chars l ++ post ∧ forallb Py.isspace post = true
          ∧ ∀ c, last (Py.rstrip_chars l) = Some c → Py.isspace c = false.
Proof.
  induction l as [|c l (post & Hl & Hpost & Hlast)].
  - by exists [].
  - cbn [Py.rstrip_chars]. destruct (Py.rstrip_chars l) as [|c' l'] eqn:Hr.
    + destruct (Py.isspace c) eqn:Hc.
      * exists (c :: post). cbn [forallb app] in *. rewrite Hc, Hpost. by rewrite <- Hl.
      * exists post. cbn [app] in *. split_and!; [by f_equal|done|]. cbn. intros ? [= <-]. done.
    + exists post. split_and!; [by rewrite Hl at 1|done|].
      intros c0. rewrite last_cons_cons. apply Hlast.
Qed.

Lemma rstrip_chars_head (l : list string) (c : string) :
  head (Py.rstrip_chars l) = Some c → head l = Some c.
Proof.
  destruct l as [|c0 l]; [done|]. cbn [Py.rstrip_chars].
  destruct (Py.rstrip_chars l); [destruct (Py.isspace c0)|]; done.
Qed.

Lemma lstrip_chars_sublist (l : list string) : Py.lstrip_chars l `sublist_of` l.
Proof.
  destruct (lstrip_chars_split l) as (pre & Hl & _). rewrite Hl at 2.
  apply sublist_inserts_l. done.
Qed.

Lemma rstrip_chars_sublist (l : list string) : Py.rstrip_chars l `sublist_of` l.
Proof.
  destruct (rstrip_chars_split l) as (post & Hl & _). rewrite Hl at 2.
  apply sublist_inserts_r. done.
Qed.

Lemma strip_chars_sublist (l : list string) : Py.strip_chars l `sublist_of` l.
Proof.
  unfold Py.strip_chars. etrans; [apply rstrip_chars_sublist|apply lstrip_chars_sublist].
Qed.

Lemma lstrip_chars_clean (l : list string) :
  (∀ c, head l = Some c → Py.isspace c = false) → Py.lstrip_chars l = l.
Proof. destruct l as [|c l]; [done|]. intros H. cbn. by rewrite (H c). Qed.

Lemma rstrip_chars_clean (l : list string) :
  (∀ c, last l = Some c → Py.isspace c = false) → Py.rstrip_chars l = l.
Proof.
  induction l as [|c l IH]; [done|]. intros H. cbn [Py.rstrip_chars].
  destruct l as [|c' l'].
  - cbn. by rewrite (H c).
  - rewrite IH; [done|]. intros c0 Hc0. apply H. by rewrite last_cons, Hc0.
Qed.

Lemma lstrip_chars_blank (l : list string) :
  forallb Py.isspace l = true → Py.lstrip_chars l = [].
Proof.
  induction l as [|c l IH]; [done|]. cbn [forallb Py.lstrip_chars].
  intros [Hc Hl]%andb_true_iff. rewrite Hc. by apply IH.
Qed.

Lemma rstrip_chars_blank (l : list string) :
  forallb Py.isspace l = true → Py.rstrip_chars l = [].
Proof.
  induction l as [|c l IH]; [done|]. cbn [forallb Py.rstrip_chars].
  intros [Hc Hl]%andb_true_iff. by rewrite IH, Hc.
Qed.

Lemma lstrip_chars_app (pre l : list string) :
  forallb Py.isspace pre = true → Py.lstrip_chars (pre ++ l) = Py.lstrip_chars l.
Proof.
  induction pre as [|c pre IH]; [done|]. cbn [forallb app Py.lstrip_chars].
  intros [Hc Hl]%andb_true_iff. rewrite Hc. by apply IH.
Qed.

Lemma rstrip_chars_app (l post : list string) :
  forallb Py.isspace post = true → Py.rstrip_chars (l ++ post) = Py.rstrip_chars l.
Proof.
  intros Hpost. induction l as [|c l IH].
  - by apply rstrip_chars_blank.
  - cbn [app Py.rstrip_chars]. by rewrite IH.
Qed.

(** the characters between two stretches of white space *)
Lemma strip_chars_sandwich (pre mid post : list string) :
  forallb Py.isspace pre = true → forallb Py.isspace post = true →
  (∀ c, head mid = Some c → Py.isspace c = false) →
  (∀ c, last mid = Some c → Py.isspace c = false) →
  Py.strip_chars (pre ++ mid ++ post) = mid.
Proof.
  intros Hpre Hpost Hhd Hlast. unfold Py.strip_chars.
  rewrite lstrip_chars_app by done.
  destruct mid as [|c mid].
  - cbn [app]. rewrite (lstrip_chars_blank post) by done. done.
  - rewrite lstrip_chars_clean by (intros c' [= <-]; by apply Hhd).
    rewrite rstrip_chars_app by done. by apply rstrip_chars_clean.
Qed.

Lemma strip_chars_idem (l : list string) :
  Py.strip_chars (Py.strip_chars l) = Py.strip_chars l.
Proof.
  unfold Py.strip_chars at 2.
  destruct (lstrip_chars_split l) as (pre & _ & _ & Hhd).
  destruct (rstrip_chars_split (Py.lstrip_chars l)) as (post & _ & _ & Hlast).
  unfold Py.strip_chars.
  rewrite lstrip_chars_clean.
  - by apply rstrip_chars_clean.
  - intros c Hc. by apply Hhd, rstrip_chars_head.
Qed.

(** ** [strip] *)

Lemma chars_strip (s : string) : Py.chars (Py.strip s) = Py.strip_chars (Py.chars s).
Proof. unfold Py.strip. eapply chars_sublist, strip_chars_sublist. Qed.

Lemma strip_idem (s : string) : Py.strip (Py.strip s) = Py.strip s.
Proof. unfold Py.strip at 1. by rewrite chars_strip, strip_chars_idem. Qed.

Lemma strip_all_space (s : string) : Py.all Py.isspace s = true → Py.strip s = "".
Proof.
  unfold Py.all, Py.strip, Py.strip_chars. intros H. by rewrite lstrip_chars_blank.
Qed.

Lemma all_isspace_complete (l : list string) :
  forallb Py.isspace l = true → Forall complete l.
Proof.
  intros H. apply Forall_forall. intros c Hc. apply isspace_complete.
  rewrite forallb_forall in H. apply H. by apply list_elem_of_In.
Qed.

Lemma all_join (p : string → bool) (l : list string) (s : string) :
  l `sublist_of` Py.chars s → Py.all p (Py.join l) = forallb p l.
Proof. intros H. unfold Py.all. by rewrite (chars_sublist l s). Qed.

(** [strip] gives the trimmed form *)
Lemma strip_trimmed (s : string) : trimmed s (Py.strip s).
Proof.
  destruct (lstrip_chars_split (Py.chars s)) as (pre & Hs & Hpre & Hhd).
  destruct (rstrip_chars_split (Py.lstrip_chars (Py.chars s))) as (post & Hm & Hpost & Hlast).
  exists (Py.join pre), (Py.join post). split_and!.
  - rewrite <- (join_chars s) at 1. rewrite Hs at 1. rewrite Hm at 1.
    by rewrite !join_app.
  - unfold Py.all. rewrite chars_join; [done|].
    by apply complete_well_split, all_isspace_complete.
  - unfold Py.all. rewrite chars_join; [done|].
    by apply complete_well_split, all_isspace_complete.
  - rewrite chars_strip. intros c Hc. by apply Hhd, rstrip_chars_head.
  - rewrite chars_strip. exact Hlast.
Qed.

(** a text of whole characters between white space is what [strip] gives *)
Lemma strip_sandwich (l t r : string) :
  Py.all Py.isspace l = true → Py.all Py.isspace r = true →
  Forall complete (Py.chars t) →
  (∀ c, head (Py.chars t) = Some c → Py.isspace c = false) →
  (∀ c, last (Py.chars t) = Some c → Py.isspace c = false) →
  Py.strip (l +:+ t +:+ r) = t.
Proof.
  unfold Py.all. intros Hl Hr Ht Hhd Hlast. unfold Py.strip.
  rewrite <- (join_chars l), chars_join_app by (by apply all_isspace_complete).
  rewrite <- (join_chars t) at 1. rewrite chars_join_app by done.
  rewrite strip_chars_sandwich by done. apply join_chars.
Qed.

Lemma trimmed_NaN (s : string) : trimmed s "NaN" → Py.strip s = "NaN".
Proof.
  intros (l & r & -> & Hl & Hr & Hhd & Hlast).
  apply strip_sandwich; try done.
  repeat constructor.
Qed.

(** ** [generate_user_id_number] *)

Lemma well_split_nonempty (l : list string) (c : string) :
  well_split l → c ∈ l → c ≠ "".
Proof.
  induction l as [|c0 l IH]; [by intros _ ?%elem_of_nil|].
  intros [Hc Hl]%well_split_cons [->|Hin]%elem_of_cons; [|by apply IH].
  destruct l; [|apply complete_chunk in Hc]; by destruct c0.
Qed.

Lemma truthy_join (l : list string) :
  (∀ c, c ∈ l → c ≠ "") → Py.truthy (Py.join l) = match l with [] => false | _ => true end.
Proof.
  destruct l as [|c l]; [done|]. intros H. cbn [Py.join].
  destruct c as [|a t]; [|done]. exfalso. apply (H ""); [left|done].
Qed.

Lemma generate_user_id_number_chars (text : string) :
  generate_user_id_number (Some text) = digits_or_sentinel Py.isdigit (Py.chars text).
Proof.
  unfold generate_user_id_number, digits_or_sentinel, Py.filter.
  destruct text as [|a t]; [done|]. cbn [Py.truthy negb].
  rewrite truthy_join.
  - by destruct (List.filter _ _).
  - intros c Hc. apply (well_split_nonempty (Py.chars (String a t))).
    + apply well_split_chars.
    + apply list_elem_of_In. apply list_elem_of_In in Hc.
      by apply List.filter_In in Hc as [? _].
Qed.

Lemma character_complete (c : string) : character c → complete c.
Proof. intros [n Hn]. by eapply ord_complete. Qed.

Lemma chars_characters (cs : list string) :
  Forall character cs → Py.chars (Py.join cs) = cs.
Proof.
  intros H. apply chars_join, complete_well_split.
  eapply Forall_impl; [exact H|]. apply character_complete.
Qed.

Lemma isdecimal_isdigit (c : string) : Py.isdecimal c = true → Py.isdigit c = true.
Proof. unfold Py.isdecimal, Py.isdigit. destruct (Py.ord c); [|done]. by intros ->. Qed.

(** C7, the input the claim fails on: the superscript two of "AC²" is a
    digit for [str.isdigit] and comes back as the identification number,
    though it is no decimal digit; the claim wants the six zeros here. *)
Lemma superscript_two_is_kept :
  generate_user_id_number (Some "AC²") = "²"
  ∧ Py.isdigit "²" = true
  ∧ Py.isdecimal "²" = false
  ∧ extract_digits_spec (Some "AC²") = "000000"
  ∧ generate_user_id_number (Some "AC²") ≠ extract_digits_spec (Some "AC²").
Proof. by vm_compute. Qed.

(** C7, as the code has it.  For every identifier, the characters of the
    identifier that [str.isdigit] accepts come back, one after the other in
    their original order: the decimal digits of every script and also the
    digits that are not decimal, such as the superscript two; the six zeros
    "000000" come back when the identifier is absent or holds no such
    character.  When every digit the identifier holds is a decimal digit,
    what comes back is the decimal-digit characters of the identifier.
    "AC-001-22" gives "00122", an absent identifier and "ABC" give
    "000000". *)
Theorem generate_user_id_number_digits :
  (∀ identifier : option string,
     generate_user_id_number identifier
     = digits_or_sentinel Py.isdigit (from_option Py.chars [] identifier))
  ∧ (∀ cs : list string, Forall character cs →
       generate_user_id_number (Some (Py.join cs)) = digits_or_sentinel Py.isdigit cs)
  ∧ (∀ text : string,
       (∀ c, c ∈ Py.chars text → Py.isdigit c = true → Py.isdecimal c = true) →
       generate_user_id_number (Some text) = extract_digits_spec (Some text))
  ∧ generate_user_id_number None = extract_digits_spec None
  ∧ generate_user_id_number (Some "AC-001-22") = "00122"
  ∧ generate_user_id_number None = "000000"
  ∧ generate_user_id_number (Some "ABC") = "000000"
  ∧ generate_user_id_number (Some "खाता १२३") = "१२३"
  ∧ generate_user_id_number (Some "AC²-7") = "²7"
  ∧ String.length "000000" = 6.
Proof.
  split_and!; [| | |by vm_compute..].
  - intros [text|]; [|done]. apply generate_user_id_number_chars.
  - intros cs Hcs. by rewrite generate_user_id_number_chars, chars_characters.
  - intros text Hdec. rewrite generate_user_id_number_chars.
    unfold extract_digits_spec, digits_or_sentinel. cbn [from_option].
    assert (List.filter Py.isdigit (Py.chars text)
            = List.filter Py.isdecimal (Py.chars text)) as ->; [|done].
    apply List.filter_ext_in. intros c Hc%list_elem_of_In.
    destruct (Py.isdigit c) eqn:Hd.
    + symmetry. by apply Hdec.
    + destruct (Py.isdecimal c) eqn:Hd'; [|done].
      apply isdecimal_isdigit in Hd'. congruence.
Qed.

(** ** [clean_string] *)

Lemma clean_string_unfold (value : cell) :
  clean_string value =
  if isna value || String.eqb (Py.strip (str value)) "NaN"
  then None else Some (Py.strip (str value)).
Proof. unfold clean_string. by destruct value. Qed.

(** C5, the input the claim fails on: three blanks are white space only,
    and [clean_string] answers the empty string, not [None]. *)
Lemma clean_string_blank_is_empty_string :
  Py.all Py.isspace "   " = true
  ∧ clean_string (CStr "   ") = Some ""
  ∧ clean_string (CStr "   ") ≠ None.
Proof. by vm_compute. Qed.

(** C5, as the code has it.  [clean_string] answers [None] exactly for a
    null or missing value and for a value whose trimmed text is the token
    "NaN" (upper and lower case as written).  Any other answer is the
    trimmed text of the value: the value's text is the answer between two
    stretches of white space, Unicode white space such as the no-break space
    included, and the answer neither starts nor ends with a white-space
    character; and a text of whole characters that is a trimmed form of the
    value's text is the answer.  For blank and white-space-only text the
    answer is the empty string.  Applied to its own answer, [clean_string]
    gives that answer back. *)
Theorem clean_string_spec (value : cell) :
  (clean_string value = None ↔ isna value = true ∨ trimmed (str value) "NaN")
  ∧ (∀ t, clean_string value = Some t → trimmed (str value) t)
  ∧ (∀ t, isna value = false → t ≠ "NaN" → Forall character (Py.chars t) →
          trimmed (str value) t → clean_string value = Some t)
  ∧ (∀ s, value = CStr s → Py.all Py.isspace s = true → clean_string value = Some "")
  ∧ clean_string (cell_of (clean_string value)) = clean_string value
  ∧ clean_string (CStr "  Sita Rai　") = Some "Sita Rai"
  ∧ clean_string (CStr " NaN ") = None
  ∧ clean_string (CStr "nan") = Some "nan".
Proof.
  assert (∀ t, Forall character (Py.chars t) → trimmed (str value) t →
               Py.strip (str value) = t) as Hunique.
  { intros t Ht (l & r & -> & Hl & Hr & Hhd & Hlast).
    apply strip_sandwich; try done.
    eapply Forall_impl; [exact Ht|]. apply character_complete. }
  split_and!; [| | | | |by vm_compute..].
  - rewrite clean_string_unfold. destruct (isna value); cbn [orb];
      [split; [by left|done]|].
    destruct (String.eqb_spec (Py.strip (str value)) "NaN") as [Heq|Hne].
    + split; [|done]. intros _. right. rewrite <- Heq. apply strip_trimmed.
    + split; [done|]. intros [?|Ht]; [done|]. by apply trimmed_NaN in Ht.
  - intros t. rewrite clean_string_unfold. destruct (isna value || _); [done|].
    intros [= <-]. apply strip_trimmed.
  - intros t Hna Hne Ht Htrim. rewrite clean_string_unfold, Hna. cbn [orb].
    rewrite (Hunique t Ht Htrim). by apply String.eqb_neq in Hne as ->.
  - intros s -> Hs. rewrite clean_string_unfold. cbn [isna str orb].
    by rewrite strip_all_space.
  - rewrite (clean_string_unfold value).
    destruct (isna value || _) eqn:Hgate; [done|].
    apply orb_false_iff in Hgate as [_ Hnan].
    cbn [cell_of]. rewrite clean_string_unfold. cbn [isna str orb].
    by rewrite strip_idem, Hnan.
Qed.

(** ** [clean_number] *)

Lemma clean_number_unfold (value : cell) :
  clean_number value =
  if isna value || String.eqb (Py.strip (str value)) "NaN"
  then Ok Dec.zero
  else try_except (Dec.of_string (str value)) (λ _, Ok Dec.zero).
Proof. unfold clean_number. by destruct value. Qed.

Lemma of_string_blank (s : string) :
  Py.all Py.isspace s = true → Dec.of_string s = Raise InvalidOperation.
Proof.
  unfold Py.all, Dec.of_string, Py.strip_chars. intros H.
  by rewrite lstrip_chars_blank.
Qed.

(** [clean_number] returns: no exception leaves it *)
Lemma clean_number_returns (value : cell) : ∃ d, clean_number value = Ok d.
Proof.
  rewrite clean_number_unfold.
  destruct (isna value || _); [by eexists|].
  destruct (Dec.of_string (str value)); by eexists.
Qed.

(** *** Numerals *)

Lemma plain_char (a : ascii) :
  plain a = true →
  complete (String a "") ∧ Py.isspace (String a "") = false
  ∧ Dec.as_ascii (String a "") = Some a ∧ String.eqb (String a "") "_" = false.
Proof.
  destruct a as [[] [] [] [] [] [] [] []]; vm_compute; intros; try done.
Qed.

Lemma chars_plain (s : string) :
  all_plain s = true → Py.chars s = (λ a, String a "") <$> list_ascii_of_string s.
Proof.
  induction s as [|a t IH]; [done|]. cbn [all_plain]. intros [Ha Ht]%andb_true_iff.
  destruct (plain_char a Ha) as (Hc & _).
  change (Py.chars (String a t)) with (Py.chars (String a "" +:+ t)).
  rewrite chars_cons by done.
  cbn [list_ascii_of_string fmap list_fmap]. f_equal. by apply IH.
Qed.

Lemma plain_text (s : string) :
  all_plain s = true →
  Forall complete (Py.chars s)
  ∧ (∀ c, c ∈ Py.chars s → Py.isspace c = false)
  ∧ Dec.numeric_as_ascii (Py.chars s) = Some s.
Proof.
  intros Hs. rewrite (chars_plain s Hs). clear -Hs.
  induction s as [|a t IH]; [by split_and!; [constructor|intros c ?%elem_of_nil|]|].
  cbn [all_plain] in Hs. apply andb_true_iff in Hs as [Ha Ht].
  destruct (plain_char a Ha) as (Hc & Hsp & Has & Hu).
  destruct (IH Ht) as (H1 & H2 & H3).
  cbn [list_ascii_of_string fmap list_fmap]. split_and!.
  - by constructor.
  - intros c [->|Hin]%elem_of_cons; [done|by apply H2].
  - cbn [Dec.numeric_as_ascii]. rewrite Hu, Has.
    change (list_fmap _ _ ?f ?l) with (f <$> l). by rewrite H3.
Qed.

(** a text of plain bytes between white space: [strip] gives the text and
    [Decimal] reads the text *)
Lemma plain_between_blanks (l t r : string) :
  all_plain t = true → Py.all Py.isspace l = true → Py.all Py.isspace r = true →
  Py.strip (l +:+ t +:+ r) = t
  ∧ Dec.of_string (l +:+ t +:+ r) = Dec.of_ascii t.
Proof.
  intros Ht Hl Hr. destruct (plain_text t Ht) as (Hc & Hsp & Has).
  assert (∀ c, head (Py.chars t) = Some c → Py.isspace c = false) as Hhd.
  { intros c Hc'. apply Hsp. by eapply head_Some_elem_of. }
  assert (∀ c, last (Py.chars t) = Some c → Py.isspace c = false) as Hlast.
  { intros c Hc'. apply Hsp. by eapply last_Some_elem_of. }
  split; [by apply strip_sandwich|].
  unfold Dec.of_string, Py.all in *.
  rewrite <- (join_chars l), chars_join_app by (by apply all_isspace_complete).
  rewrite <- (join_chars t) at 1. rewrite chars_join_app by done.
  rewrite strip_chars_sandwich by done. by rewrite Has.
Qed.

Lemma digit_char_ok (d : N) :
  (d < 10)%N →
  Dec.isdigit (digit_char d) = true ∧ Dec.digit_value (digit_char d) = d
  ∧ plain (digit_char d) = true.
Proof.
  intros Hd.
  assert (d = 0 ∨ d = 1 ∨ d = 2 ∨ d = 3 ∨ d = 4 ∨ d = 5 ∨ d = 6 ∨ d = 7 ∨ d = 8 ∨ d = 9)%N
    as H by lia.
  repeat (destruct H as [->|H]; [by vm_compute|]). subst. by vm_compute.
Qed.

Lemma digit_text_cons (d : N) (ds : list N) :
  digit_text (d :: ds) = String (digit_char d) (digit_text ds).
Proof. reflexivity. Qed.

Lemma digit_text_app (ds1 ds2 : list N) :
  digit_text (ds1 ++ ds2) = digit_text ds1 +:+ digit_text ds2.
Proof.
  induction ds1 as [|d ds1 IH]; [done|].
  cbn [app]. rewrite !digit_text_cons, append_cons. by f_equal.
Qed.

Lemma length_digit_text (ds : list N) : String.length (digit_text ds) = length ds.
Proof. induction ds as [|d ds IH]; [done|]. rewrite digit_text_cons. cbn. by f_equal. Qed.

Lemma truthy_digit_text (ds : list N) :
  Py.truthy (digit_text ds) = match ds with [] => false | _ => true end.
Proof. by destruct ds. Qed.

Lemma all_plain_app (s t : string) : all_plain (s +:+ t) = all_plain s && all_plain t.
Proof.
  induction s as [|a s IH]; [done|]. rewrite append_cons. cbn [all_plain].
  by rewrite IH, andb_assoc.
Qed.

Lemma all_plain_digit_text (ds : list N) :
  Forall (λ d, d < 10)%N ds → all_plain (digit_text ds) = true.
Proof.
  induction 1 as [|d ds Hd _ IH]; [done|]. rewrite digit_text_cons. cbn [all_plain].
  destruct (digit_char_ok d Hd) as (_ & _ & ->). done.
Qed.

Lemma digits_prefix_text (ds : list N) (rest : string) :
  Forall (λ d, d < 10)%N ds → ends_digits rest →
  Dec.digits_prefix (digit_text ds +:+ rest) = (digit_text ds, rest).
Proof.
  intros Hds Hrest. induction Hds as [|d ds Hd _ IH].
  - change (digit_text [] +:+ rest) with rest.
    destruct rest as [|c t]; [done|]. cbn in *. by rewrite Hrest.
  - rewrite digit_text_cons, append_cons. cbn [Dec.digits_prefix].
    destruct (digit_char_ok d Hd) as (-> & _). by rewrite IH.
Qed.

Lemma digits_to_N_text (acc : N) (ds : list N) :
  Forall (λ d, d < 10)%N ds →
  Dec.digits_to_N acc (digit_text ds) = foldl (λ acc d, 10 * acc + d)%N acc ds.
Proof.
  intros Hds. revert acc. induction Hds as [|d ds Hd _ IH]; intros acc; [done|].
  rewrite digit_text_cons. cbn [Dec.digits_to_N foldl].
  destruct (digit_char_ok d Hd) as (_ & -> & _). apply IH.
Qed.

Lemma split_sign_text (sign : option bool) (rest : string) :
  match rest with
  | String c _ => Ascii.eqb c "-" = false ∧ Ascii.eqb c "+" = false
  | EmptyString => True
  end →
  Dec.split_sign (sign_text sign +:+ rest) = (is_minus sign, rest).
Proof.
  destruct sign as [[]|]; [done..|].
  change (sign_text None +:+ rest) with rest.
  destruct rest as [|c t]; [done|]. intros [Hm Hp].
  unfold Dec.split_sign.
  destruct (Ascii.eqb_spec c "-") as [->|?]; [done|].
  destruct (Ascii.eqb_spec c "+") as [->|?]; [done|].
  destruct c as [[] [] [] [] [] [] [] []]; done.
Qed.

Lemma digit_char_not_sign (d : N) :
  (d < 10)%N →
  Ascii.eqb (digit_char d) "-" = false ∧ Ascii.eqb (digit_char d) "+" = false.
Proof.
  intros Hd.
  assert (d = 0 ∨ d = 1 ∨ d = 2 ∨ d = 3 ∨ d = 4 ∨ d = 5 ∨ d = 6 ∨ d = 7 ∨ d = 8 ∨ d = 9)%N
    as H by lia.
  repeat (destruct H as [->|H]; [by vm_compute|]). subst. by vm_compute.
Qed.

Lemma parse_exponent_text (sign : option bool) (ds : list N) :
  Forall (λ d, d < 10)%N ds → ds ≠ [] →
  Dec.parse_exponent (sign_text sign +:+ digit_text ds)
  = Some (if is_minus sign then - Z.of_N (digits_value ds) else Z.of_N (digits_value ds))%Z.
Proof.
  intros Hds Hne. unfold Dec.parse_exponent.
  rewrite split_sign_text.
  - rewrite <- (append_nil_r (digit_text ds)), digits_prefix_text by done.
    rewrite truthy_digit_text, digits_to_N_text by done.
    destruct ds; [done|]. by destruct (is_minus sign).
  - destruct Hds as [|d ds Hd _]; [done|]. rewrite digit_text_cons.
    by apply digit_char_not_sign.
Qed.

Lemma render_parts (n : numeral) :
  render n = sign_text (num_sign n) +:+ digit_text (num_int n) +:+ frac_text n +:+ exp_text n.
Proof. reflexivity. Qed.

Lemma ends_digits_exp (n : numeral) : ends_digits (exp_text n).
Proof. unfold exp_text. destruct (num_exp n) as [[[[] sign] ds]|]; done. Qed.

Lemma parse_exp_text (n : numeral) (coeff : N) (shift : Z) :
  numeral_ok n →
  match exp_text n with
  | EmptyString => Some (coeff, (0 - shift)%Z)
  | String e t =>
      if Ascii.eqb (Dec.tolower e) "e"
      then match Dec.parse_exponent t with
           | Some x => Some (coeff, (x - shift)%Z)
           | None => None
           end
      else None
  end
  = Some (coeff,
          (match num_exp n with
           | Some (_, sign, ds) =>
               if is_minus sign then - Z.of_N (digits_value ds) else Z.of_N (digits_value ds)
           | None => 0
           end - shift)%Z).
Proof.
  intros (_ & _ & _ & Hexp). unfold exp_text.
  destruct (num_exp n) as [[[capital sign] ds]|]; [|done].
  destruct Hexp as [Hds Hne].
  destruct capital.
  - change ("E" +:+ ?x) with (String "E" x). cbn [Dec.tolower].
    change (Ascii.eqb (Dec.tolower "E") "e") with true. cbn match.
    by rewrite parse_exponent_text.
  - change ("e" +:+ ?x) with (String "e" x).
    change (Ascii.eqb (Dec.tolower "e") "e") with true. cbn match.
    by rewrite parse_exponent_text.
Qed.

Lemma parse_number_render (n : numeral) :
  numeral_ok n →
  Dec.parse_number (digit_text (num_int n) +:+ frac_text n +:+ exp_text n)
  = Some (coefficient n, exponent n).
Proof.
  intros Hok. pose proof Hok as (Hint & Hfrac & Hsome & Hexp).
  unfold Dec.parse_number, coefficient, exponent, frac_text, frac_digits in *.
  destruct (num_frac n) as [f|].
  - rewrite digits_prefix_text; [|done|done].
    change (("." +:+ digit_text f) +:+ exp_text n)
      with (String "." (digit_text f +:+ exp_text n)). cbn match.
    rewrite digits_prefix_text; [|done|apply ends_digits_exp].
    rewrite !truthy_digit_text.
    rewrite <- digit_text_app, digits_to_N_text by (by apply Forall_app).
    rewrite length_digit_text.
    assert (match num_int n with [] => false | _ => true end
            || match f with [] => false | _ => true end = true) as ->.
    { destruct (num_int n), f; try done. by destruct Hsome. }
    by apply parse_exp_text.
  - change ("" +:+ exp_text n) with (exp_text n).
    rewrite digits_prefix_text; [|done|apply ends_digits_exp].
    assert (match exp_text n with
            | String "." t => Dec.digits_prefix t
            | _ => ("", exp_text n)
            end = ("", exp_text n)) as ->.
    { unfold exp_text. by destruct (num_exp n) as [[[[] sign] ds]|]. }
    rewrite truthy_digit_text. rewrite append_nil_r, app_nil_r.
    rewrite digits_to_N_text by done.
    destruct (num_int n) eqn:E; [by destruct Hsome|]. cbn [orb].
    change (String.length "") with 0%nat. change (length (@nil N)) with 0%nat.
    rewrite <- E. by apply parse_exp_text.
Qed.

Lemma all_plain_sign (sign : option bool) : all_plain (sign_text sign) = true.
Proof. by destruct sign as [[]|]. Qed.

Lemma all_plain_render (n : numeral) : numeral_ok n → all_plain (render n) = true.
Proof.
  intros (Hint & Hfrac & _ & Hexp). rewrite render_parts, !all_plain_app.
  rewrite all_plain_sign, all_plain_digit_text by done. cbn [andb].
  apply andb_true_iff. split.
  - unfold frac_text, frac_digits in *. destruct (num_frac n) as [f|]; [|done].
    rewrite all_plain_app. by rewrite all_plain_digit_text.
  - unfold exp_text. destruct (num_exp n) as [[[capital sign] ds]|]; [|done].
    destruct Hexp as [Hds _].
    rewrite !all_plain_app, all_plain_sign, all_plain_digit_text by done.
    by destruct capital.
Qed.

(** what comes after the sign of a numeral starts with a digit or the point *)
Lemma body_start (n : numeral) :
  numeral_ok n →
  match digit_text (num_int n) +:+ frac_text n +:+ exp_text n with
  | String c _ =>
      Ascii.eqb c "-" = false ∧ Ascii.eqb c "+" = false ∧ Ascii.eqb c "N" = false
  | EmptyString => True
  end.
Proof.
  intros (Hint & Hfrac & Hsome & _). unfold frac_text, frac_digits in *.
  destruct Hint as [|d ds Hd _].
  - destruct (num_frac n) as [f|]; [done|]. by destruct Hsome.
  - rewrite digit_text_cons, append_cons.
    destruct (digit_char_not_sign d Hd) as [? ?]. split_and!; [done..|].
    assert (d = 0 ∨ d = 1 ∨ d = 2 ∨ d = 3 ∨ d = 4 ∨ d = 5 ∨ d = 6 ∨ d = 7 ∨ d = 8 ∨ d = 9)%N
      as H' by lia.
    repeat (destruct H' as [->|H']; [by vm_compute|]). subst. by vm_compute.
Qed.

Lemma render_not_NaN (n : numeral) : numeral_ok n → render n ≠ "NaN".
Proof.
  intros Hok. rewrite render_parts. pose proof (body_start n Hok) as Hb.
  destruct (digit_text (num_int n) +:+ frac_text n +:+ exp_text n) as [|c t] eqn:E.
  - by destruct (num_sign n) as [[]|].
  - destruct Hb as (_ & _ & HN).
    destruct (num_sign n) as [[]|]; [done..|].
    change (sign_text None +:+ String c t) with (String c t). intros [= -> _].
    done.
Qed.

Lemma of_ascii_render (n : numeral) :
  numeral_ok n →
  Dec.of_ascii (render n)
  = if Dec.representable (coefficient n) (exponent n)
    then Ok (numeral_value n) else Raise InvalidOperation.
Proof.
  intros Hok. unfold Dec.of_ascii. rewrite render_parts.
  pose proof (body_start n Hok) as Hb.
  rewrite split_sign_text.
  - by rewrite parse_number_render.
  - destruct (digit_text (num_int n) +:+ frac_text n +:+ exp_text n); [done|]. tauto.
Qed.

(** *** The digits of a number *)

Lemma pretty_N_char_digit (d : N) : (d < 10)%N → pretty_N_char d = digit_char d.
Proof.
  intros Hd.
  assert (d = 0 ∨ d = 1 ∨ d = 2 ∨ d = 3 ∨ d = 4 ∨ d = 5 ∨ d = 6 ∨ d = 7 ∨ d = 8 ∨ d = 9)%N
    as H by lia.
  repeat (destruct H as [->|H]; [by vm_compute|]). subst. by vm_compute.
Qed.

Lemma foldl_digits (acc : N) (ds : list N) :
  (foldl (λ acc d, 10 * acc + d) acc ds
   = acc * 10 ^ N.of_nat (length ds) + digits_value ds)%N.
Proof.
  unfold digits_value. revert acc. induction ds as [|d ds IH]; intros acc.
  - cbn. lia.
  - cbn [foldl length]. rewrite IH, (IH (10 * 0 + d)%N).
    rewrite Nat2N.inj_succ, N.pow_succ_r'. lia.
Qed.

Lemma digits_value_cons (d : N) (ds : list N) :
  (digits_value (d :: ds) = d * 10 ^ N.of_nat (length ds) + digits_value ds)%N.
Proof.
  unfold digits_value at 1. cbn [foldl]. rewrite foldl_digits. by rewrite N.mul_0_r.
Qed.

Lemma digit_char_inj (d1 d2 : N) :
  (d1 < 10)%N → (d2 < 10)%N → digit_char d1 = digit_char d2 → d1 = d2.
Proof.
  intros H1 H2 Heq.
  destruct (digit_char_ok d1 H1) as (_ & <- & _).
  destruct (digit_char_ok d2 H2) as (_ & <- & _). by rewrite Heq.
Qed.

Lemma digit_text_inj (ds1 ds2 : list N) :
  Forall (λ d, d < 10)%N ds1 → Forall (λ d, d < 10)%N ds2 →
  digit_text ds1 = digit_text ds2 → ds1 = ds2.
Proof.
  intros H1. revert ds2. induction H1 as [|d1 ds1 Hd1 _ IH]; intros ds2 H2 Heq.
  - by destruct ds2.
  - destruct H2 as [|d2 ds2 Hd2 H2]; [done|].
    rewrite !digit_text_cons in Heq. injection Heq as Hc Ht.
    f_equal; [by apply digit_char_inj|by apply IH].
Qed.

(** the decimal text of a number, digit by digit *)
Lemma pretty_N_go_digits (x : N) (ds : list N) :
  Forall (λ d, d < 10)%N ds →
  ∃ ds', pretty_N_go x (digit_text ds) = digit_text ds'
         ∧ Forall (λ d, d < 10)%N ds'
         ∧ (digits_value ds' = x * 10 ^ N.of_nat (length ds) + digits_value ds)%N
         ∧ ((0 < x)%N → ∃ d rest, ds' = d :: rest ∧ (0 < d)%N).
Proof.
  revert ds. induction (N.lt_wf_0 x) as [x _ IH]; intros ds Hds.
  assert (x = 0 ∨ 0 < x)%N as [->|Hx] by lia.
  - rewrite pretty_N_go_0. exists ds. split_and!; [done|done|lia|lia].
  - rewrite pretty_N_go_step by done.
    assert (x `mod` 10 < 10)%N as Hd by (by apply N.mod_lt).
    rewrite pretty_N_char_digit by done.
    destruct (IH (x `div` 10)%N (N.div_lt x 10 Hx eq_refl) ((x `mod` 10)%N :: ds))
      as (ds' & H1 & H2 & H3 & H4); [by constructor|].
    exists ds'. split_and!; [done|done| |].
    + rewrite H3, digits_value_cons. cbn [length].
      rewrite Nat2N.inj_succ, N.pow_succ_r'.
      pose proof (N.div_mod x 10 ltac:(done)) as Hdm.
      set (q := (x `div` 10)%N) in *. set (m := (x `mod` 10)%N) in *.
      set (k := (10 ^ N.of_nat (length ds))%N). set (v := digits_value ds).
      clearbody q m k v. rewrite Hdm. ring.
    + intros _. destruct (decide (0 < x `div` 10)%N) as [Hq|Hq]; [by apply H4|].
      assert (x `div` 10 = 0)%N as Hz by (by apply N.le_0_r, N.nlt_ge).
      rewrite Hz, pretty_N_go_0 in H1. apply digit_text_inj in H1; [|by constructor|done].
      exists (x `mod` 10)%N, ds. split; [done|].
      pose proof (N.div_mod x 10 ltac:(done)) as Hdm. lia.
Qed.

Lemma pretty_N_digits (x : N) :
  ∃ ds, pretty x = digit_text ds ∧ Forall (λ d, d < 10)%N ds
        ∧ digits_value ds = x ∧ ds ≠ []
        ∧ ((0 < x)%N → ∃ d rest, ds = d :: rest ∧ (0 < d)%N).
Proof.
  unfold pretty, pretty_N. destruct (decide (x = 0%N)) as [->|Hx].
  - exists [0%N]. split_and!; [done|by repeat constructor|done|done|lia].
  - destruct (pretty_N_go_digits x []) as (ds & H1 & H2 & H3 & H4); [done|].
    destruct H4 as (d & rest & -> & Hd); [lia|].
    exists (d :: rest). split_and!; [done|done| |done|by eauto].
    rewrite H3. cbn. lia.
Qed.

Lemma digits_value_bound (ds : list N) :
  Forall (λ d, d < 10)%N ds → (digits_value ds < 10 ^ N.of_nat (length ds))%N.
Proof.
  induction 1 as [|d ds Hd _ IH]; [done|].
  rewrite digits_value_cons. cbn [length]. rewrite Nat2N.inj_succ, N.pow_succ_r'.
  nia.
Qed.

(** the digits of a coefficient: zero has one, and a number of [p] digits
    lies between [10^(p-1)] and [10^p] *)
Lemma precision_spec (coeff : N) :
  (1 ≤ Dec.precision coeff)%Z
  ∧ (coeff = 0%N → Dec.precision coeff = 1%Z)
  ∧ ((0 < coeff)%N →
     (10 ^ (Dec.precision coeff - 1) ≤ Z.of_N coeff < 10 ^ Dec.precision coeff)%Z).
Proof.
  destruct (decide (coeff = 0%N)) as [->|Hnz]; [by split_and!; [..|lia]|].
  unfold Dec.precision.
  destruct (pretty_N_digits coeff) as (ds & Hp & Hds & Hv & Hne & Hhd).
  rewrite Hp, length_digit_text.
  destruct Hhd as (d & rest & -> & Hd); [lia|].
  apply Forall_cons in Hds as [Hd10 Hrest].
  pose proof (digits_value_bound rest Hrest) as Hup.
  rewrite digits_value_cons in Hv. cbn [length].
  assert (10 ^ Z.of_nat (length rest) = Z.of_N (10 ^ N.of_nat (length rest)))%Z as Hpow.
  { by rewrite N2Z.inj_pow, nat_N_Z. }
  replace (Z.of_nat (S (length rest)) - 1)%Z with (Z.of_nat (length rest)) by lia.
  rewrite Nat2Z.inj_succ, Z.pow_succ_r, Hpow by lia.
  split_and!; [lia|done|]. intros _. nia.
Qed.

(** an integer of any size fits: its exponent is zero *)
Lemma representable_integer (coeff : N) : Dec.representable coeff 0 = true.
Proof.
  unfold Dec.representable. apply andb_true_iff. split; [done|].
  apply Z.leb_le. rewrite Z.add_0_l. apply Z.le_min_r.
Qed.

(** a cell whose text is a numeral between white space, read by [Decimal],
    by [clean_number] and by [clean_string] *)
Lemma numeral_cell (value : cell) (n : numeral) (l r : string) :
  isna value = false → str value = l +:+ render n +:+ r →
  numeral_ok n → Py.all Py.isspace l = true → Py.all Py.isspace r = true →
  Dec.of_string (str value)
  = (if Dec.representable (coefficient n) (exponent n)
     then Ok (numeral_value n) else Raise InvalidOperation)
  ∧ clean_number value
    = Ok (if Dec.representable (coefficient n) (exponent n)
          then numeral_value n else Dec.zero)
  ∧ clean_string value = Some (render n).
Proof.
  intros Hna Hstr Hok Hl Hr.
  destruct (plain_between_blanks l (render n) r) as [Hstrip Hof];
    [by apply all_plain_render|done..|].
  rewrite clean_number_unfold, clean_string_unfold, Hna, Hstr. cbn [orb].
  rewrite Hstrip, Hof, of_ascii_render by done.
  pose proof (render_not_NaN n Hok) as Hne. apply String.eqb_neq in Hne as ->.
  by destruct (Dec.representable _ _).
Qed.

(** C6. [clean_number] never raises: for every value it returns a decimal.
    The decimal is zero when the value is null or missing, when its text is
    blank or white space only, when its trimmed text is the token "NaN", and
    when the conversion to a decimal fails, whatever the failure; otherwise
    it is the decimal the conversion gives.  The conversion reads a numeral
    (a sign, digits with or without a point, an exponent) between white
    space as the number it writes, sign, coefficient and exponent kept as
    written, and fails when the exponent is out of the range a [Decimal]
    has: below [MIN_ETINY], or with the first digit of the coefficient above
    [MAX_EMAX].  "1234.50" gives 1234.50 (coefficient 123450, exponent -2),
    "-12.50E-03" gives coefficient 1250 and exponent -5, the float 1e-05
    gives coefficient 1 and exponent -5, Devanagari digits are read as
    digits, and 1E+1000000000000000000 gives zero. *)
Theorem clean_number_total (value : cell) :
  (∃ d, clean_number value = Ok d
     ∧ (isna value = true ∨ trimmed (str value) "NaN" → d = Dec.zero)
     ∧ (∀ s, value = CStr s → Py.all Py.isspace s = true → d = Dec.zero)
     ∧ (∀ e, Dec.of_string (str value) = Raise e → d = Dec.zero)
     ∧ (∀ x, isna value = false → ¬ trimmed (str value) "NaN" →
             Dec.of_string (str value) = Ok x → d = x))
  ∧ (∀ (n : numeral) (l r : string),
       isna value = false → str value = l +:+ render n +:+ r →
       numeral_ok n → Py.all Py.isspace l = true → Py.all Py.isspace r = true →
       Dec.of_string (str value)
       = (if Dec.representable (coefficient n) (exponent n)
          then Ok (numeral_value n) else Raise InvalidOperation)
       ∧ clean_number value
         = Ok (if Dec.representable (coefficient n) (exponent n)
               then numeral_value n else Dec.zero))
  ∧ (∀ coeff exp, (Dec.precision coeff ≤ Dec.MAX_EMAX)%Z →
       Dec.representable coeff exp = true
       ↔ (Dec.MIN_ETINY ≤ exp)%Z ∧ (exp + (Dec.precision coeff - 1) ≤ Dec.MAX_EMAX)%Z)
  ∧ (∀ coeff, (1 ≤ Dec.precision coeff)%Z
       ∧ (coeff = 0%N → Dec.precision coeff = 1%Z)
       ∧ ((0 < coeff)%N →
          (10 ^ (Dec.precision coeff - 1) ≤ Z.of_N coeff < 10 ^ Dec.precision coeff)%Z))
  ∧ render (mk_numeral (Some true) [1; 2]%N (Some [5; 0]%N) (Some (true, Some true, [0; 3]%N)))
    = "-12.50E-03"
  ∧ numeral_value
      (mk_numeral (Some true) [1; 2]%N (Some [5; 0]%N) (Some (true, Some true, [0; 3]%N)))
    = Dec.Finite true 1250 (-5)
  ∧ clean_number (CStr "-12.50E-03") = Ok (Dec.Finite true 1250 (-5))
  ∧ clean_number (CStr "1234.50") = Ok (Dec.Finite false 123450 (-2))
  ∧ clean_number (CFloat "1e-05") = Ok (Dec.Finite false 1 (-5))
  ∧ clean_number (CStr " -१२३.५") = Ok (Dec.Finite true 1235 (-1))
  ∧ clean_number (CStr "12 rupees") = Ok Dec.zero
  ∧ clean_number (CStr "²") = Ok Dec.zero
  ∧ clean_number (CStr "1e999999999999999999") = Ok (Dec.Finite false 1 999999999999999999)
  ∧ clean_number (CStr "1E+1000000000000000000") = Ok Dec.zero
  ∧ clean_number (CStr "10e999999999999999999") = Ok Dec.zero
  ∧ clean_number (CStr "1e-1999999999999999998") = Ok Dec.zero.
Proof.
  split_and!; [| | | |by vm_compute..].
  - rewrite clean_number_unfold.
    destruct (isna value) eqn:Hna; cbn [orb].
    { exists Dec.zero. split_and!; try done. }
    destruct (String.eqb_spec (Py.strip (str value)) "NaN") as [Heq|Hne].
    { exists Dec.zero. split_and!; try done.
      intros x _ Hnot. destruct Hnot. rewrite <- Heq. apply strip_trimmed. }
    destruct (Dec.of_string (str value)) as [e|x] eqn:Hx; cbn [try_except].
    + exists Dec.zero. split_and!; done.
    + exists x. split_and!; try done.
      * intros [?|Ht]; [done|]. by apply trimmed_NaN in Ht.
      * intros s -> Hs. cbn [str] in Hx. rewrite of_string_blank in Hx by done.
        discriminate Hx.
      * by intros x' _ _ [= ->].
  - intros n l r Hna Hstr Hok Hl Hr.
    destruct (numeral_cell value n l r) as (H1 & H2 & _); done.
  - intros coeff exp Hprec. unfold Dec.representable.
    rewrite andb_true_iff, !Z.leb_le. unfold Dec.MAX_EMAX in *. lia.
  - apply precision_spec.
Qed.
(** ** The gates *)

Lemma process_row_reconcile {St} (prisma : Store St) now row s fn an j a :
  gated_fields row = Some (fn, an) →
  clean_number (Unnamed_2 row) = Ok j →
  clean_number (Unnamed_4 row) = Ok a →
  process_row prisma now row s = reconcile prisma now fn an j a s.
Proof.
  unfold gated_fields, process_row, bind, lift. intros Hg -> ->.
  destruct (required (clean_string (Unnamed_0 row))) as [fn'|]; [|done].
  destruct (required (clean_string (Unnamed_1 row))) as [an'|]; [|done].
  destruct (_ || _); [done|]. by simplify_eq.
Qed.

Lemma process_row_skip (row : Row) :
  gated_fields row = None →
  ∃ o, (o = SkippedMissing ∨ o = SkippedHeader)
       ∧ ∀ St (prisma : Store St) now s, process_row prisma now row s = (Ok o, s).
Proof.
  unfold gated_fields, process_row, bind, lift. intros Hg.
  destruct (clean_number_returns (Unnamed_2 row)) as [j ->].
  destruct (clean_number_returns (Unnamed_4 row)) as [a ->].
  destruct (required (clean_string (Unnamed_0 row))) as [fn'|];
    [|exists SkippedMissing; split; [by left|done]].
  destruct (required (clean_string (Unnamed_1 row))) as [an'|];
    [|exists SkippedMissing; split; [by left|done]].
  destruct (_ || _); [|done].
  exists SkippedHeader. split; [by right|done].
Qed.

Lemma loop_body_skip {St} (prisma : Store St) clock index row acc s :
  gated_fields row = None → loop_body prisma clock index row acc s = (acc, s).
Proof.
  intros (o & Ho & Hrun)%process_row_skip. unfold loop_body. rewrite Hrun.
  by destruct Ho as [-> | ->].
Qed.

Lemma calls_of_row_skip {St} (base : Store St) now row s :
  gated_fields row = None → calls_of_row base now row s = [].
Proof.
  intros (o & Ho & Hrun)%process_row_skip. unfold calls_of_row. by rewrite Hrun.
Qed.

Lemma required_Some (o : option string) (s : string) :
  required o = Some s ↔ o = Some s ∧ s ≠ "".
Proof.
  unfold required. destruct o as [[|c t]|]; cbn.
  - split; [done|]. by intros [[= <-] H].
  - split; [by intros [= <-]|]. by intros [? _].
  - split; [done|]. by intros [? _].
Qed.

Lemma gated_header (row : Row) :
  clean_string (Unnamed_0 row) = Some "Account Number"
  ∨ clean_string (Unnamed_1 row) = Some "Account Number" →
  gated_fields row = None.
Proof.
  unfold gated_fields. intros H.
  destruct (required (clean_string (Unnamed_0 row))) as [fn|] eqn:Hfn; [|done].
  destruct (required (clean_string (Unnamed_1 row))) as [an|] eqn:Han; [|done].
  apply required_Some in Hfn as [Hfn _]. apply required_Some in Han as [Han _].
  rewrite Hfn, Han in H.
  destruct H as [[= ->] | [= ->]]; [done|].
  by rewrite String.eqb_refl, orb_true_r.
Qed.

Lemma gated_blank (row : Row) (w : string) :
  Py.all Py.isspace w = true →
  Unnamed_0 row = CStr w ∨ Unnamed_1 row = CStr w →
  gated_fields row = None.
Proof.
  intros Hw H. unfold gated_fields.
  assert (clean_string (CStr w) = Some "") as Hc.
  { rewrite clean_string_unfold. cbn [isna str orb]. by rewrite strip_all_space. }
  destruct H as [-> | ->]; rewrite Hc; cbn; [done|].
  by destruct (required _).
Qed.

(** ** Rows the gates skip *)

(** C9. A row whose cleaned full name or cleaned account identifier is the
    header label "Account Number" is skipped: on every store the turn of the
    loop gives back the store and the counters as they were, and on a
    recording store the row makes no call at all. *)
Theorem header_row_skipped {St} (prisma : Store St) (clock : nat → datetime)
    (index : nat) (row : Row) (acc : Summary) (s : St) :
  clean_string (Unnamed_0 row) = Some "Account Number"
  ∨ clean_string (Unnamed_1 row) = Some "Account Number" →
  loop_body prisma clock index row acc s = (acc, s)
  ∧ calls_of_row prisma (clock index) row s = [].
Proof.
  intros H%gated_header. split.
  - by apply loop_body_skip.
  - by apply calls_of_row_skip.
Qed.

Lemma header_row_skipped_witness :
  let row := text_row "Account Number" "A1" "Jestha" "Ashad" in
  let acc := {| success_count := 3; error_count := 1; errors := [] |} in
  loop_body MemStore midnight 7 row acc empty_db = (acc, empty_db)
  ∧ calls_of_row MemStore (midnight 7) row empty_db = [].
Proof.
  intros row acc.
  apply (header_row_skipped MemStore midnight 7 row acc empty_db).
  left. vm_compute. reflexivity.
Defined.

(** C10. When the full-name cell or the account cell of a row holds white
    space only (blanks, tabs, no-break spaces or any other character
    [str.isspace] accepts), [clean_string] gives the empty string for it
    (not [None]), and the validity gate skips the row all the same: the turn
    of the loop gives back the store and the counters as they were, and the
    row makes no call on the store. *)
Theorem blank_required_field_skipped {St} (prisma : Store St) (clock : nat → datetime)
    (index : nat) (row : Row) (acc : Summary) (s : St) (w : string) :
  Py.all Py.isspace w = true →
  Unnamed_0 row = CStr w ∨ Unnamed_1 row = CStr w →
  clean_string (CStr w) = Some ""
  ∧ Py.truthy_opt (clean_string (CStr w)) = false
  ∧ loop_body prisma clock index row acc s = (acc, s)
  ∧ calls_of_row prisma (clock index) row s = []
  ∧ Py.all Py.isspace "  　" = true
  ∧ Py.all Py.isspace " x " = false.
Proof.
  intros Hw H.
  assert (clean_string (CStr w) = Some "") as Hc.
  { rewrite clean_string_unfold. cbn [isna str orb]. by rewrite strip_all_space. }
  pose proof (gated_blank row w Hw H) as Hg.
  split_and!; [| | | |by vm_compute..].
  - exact Hc.
  - by rewrite Hc.
  - by apply loop_body_skip.
  - by apply calls_of_row_skip.
Qed.

Lemma blank_required_field_skipped_witness :
  let row := text_row "  　" "123456" "100" "150" in
  let acc := {| success_count := 3; error_count := 1; errors := [] |} in
  clean_string (CStr "  　") = Some ""
  ∧ Py.truthy_opt (clean_string (CStr "  　")) = false
  ∧ loop_body MemStore midnight 7 row acc empty_db = (acc, empty_db)
  ∧ calls_of_row MemStore (midnight 7) row empty_db = []
  ∧ Py.all Py.isspace "  　" = true
  ∧ Py.all Py.isspace " x " = false.
Proof.
  intros row acc.
  apply (blank_required_field_skipped MemStore midnight 7 row acc empty_db "  　").
  - vm_compute. reflexivity.
  - left. reflexivity.
Defined.

(** ** The balance rule *)

Lemma gt_zero (a : decimal) :
  Dec.is_nan a = false → Dec.gt a Dec.zero = Ok (strictly_positive a).
Proof.
  unfold Dec.gt. intros ->. cbn [orb Dec.is_nan Dec.zero]. f_equal.
  destruct a as [neg c e|neg|neg d|neg d]; try done.
  - unfold Dec.zero. cbn [Dec.cmp strictly_positive].
    assert (0 < 10 ^ (e - e `min` 0))%Z as Hpow by (apply Z.pow_pos_nonneg; lia).
    change (Dec.signed false (Z.of_N 0 * 10 ^ (0 - e `min` 0))) with (0 * 10 ^ (0 - e `min` 0))%Z.
    rewrite Z.mul_0_l.
    destruct neg; cbn [Dec.signed].
    + destruct (Z.compare_spec (- (Z.of_N c * 10 ^ (e - e `min` 0))) 0); try done. nia.
    + destruct (N.eqb_spec c 0) as [->|Hc]; cbn [negb].
      * by rewrite Z.mul_0_l.
      * destruct (Z.compare_spec (Z.of_N c * 10 ^ (e - e `min` 0)) 0); try done; nia.
  - by destruct neg.
Qed.

Lemma choose_balance_spec (j a : decimal) :
  choose_balance j a =
  if Dec.is_nan a then Raise InvalidOperation
  else Ok (if strictly_positive a then a else j).
Proof.
  unfold choose_balance. destruct (Dec.is_nan a) eqn:Hnan.
  - unfold Dec.gt. by rewrite Hnan.
  - rewrite gt_zero by done. by destruct (strictly_positive a).
Qed.

Lemma strictly_positive_nonneg (a : decimal) :
  strictly_positive a = true → Dec.nonneg a = true.
Proof. by destruct a as [[] c e|[]|neg d|neg d]. Qed.

Lemma reconcile_written {St} (base : Store St) now fn an j a s log :
  ∃ new, (reconcile (traced base) now fn an j a (s, log)).2.2 = (log ++ new)%list
    ∧ ∀ c b, c ∈ new → written_balance c = Some b → choose_balance j a = Ok b.
Proof.
  unfold reconcile, bind, lift, ret.
  generalize (generate_user_id_number (Some an)) (generate_account_number (CStr an)).
  intros uid acc_no. cbn. unfold traced_call. cbn.
  generalize (choose_balance j a). intros chosen.
  repeat (case_match; simplify_eq/=).
  all: eexists; (split; [rewrite <- ?app_assoc; reflexivity|]).
  all: intros c b Hc Hb; rewrite ?elem_of_app, ?list_elem_of_singleton in Hc;
       destruct_or?; simplify_eq/=; done.
Qed.

(** every balance a row asks the store to write is the one line 138 chooses *)
Lemma row_written_balance {St} (base : Store St) now row s j a c b :
  clean_number (Unnamed_2 row) = Ok j →
  clean_number (Unnamed_4 row) = Ok a →
  c ∈ calls_of_row base now row s →
  written_balance c = Some b →
  choose_balance j a = Ok b.
Proof.
  intros Hj Ha Hc Hb. unfold calls_of_row in Hc.
  destruct (gated_fields row) as [[fn an]|] eqn:Hg.
  - rewrite (process_row_reconcile _ _ _ _ fn an j a Hg Hj Ha) in Hc.
    destruct (reconcile_written base now fn an j a s []) as (new & Hnew & Hall).
    rewrite Hnew in Hc. by apply (Hall c b).
  - fold (calls_of_row base now row s) in Hc. rewrite calls_of_row_skip in Hc by done.
    by apply elem_of_nil in Hc.
Qed.

(** the row of the specification's scenario does write, and writes 150 *)
Lemma scenario_writes_150 :
  AccountCreate
    (mk_account_data (Some "123456") 0 (Dec.Finite false 150 0)
       DEFAULT_INTEREST_RATE DEFAULT_OPENING_DATE (midnight 0) "ACTIVE" "SB")
  ∈ calls_of_row MemStore (midnight 0) (text_row "Ram Shrestha" "123456" "100" "150") empty_db.
Proof. vm_compute. do 3 apply list_elem_of_further. apply list_elem_of_here. Qed.

(** C8, the input the claim fails on: Jestha -50 with Ashad 0 creates an
    account whose balance is -50. *)
Lemma negative_balance_is_written :
  let row := text_row "Hari Thapa" "AC-1" "-50" "0" in
  let d := mk_account_data (Some "AC-1") 0 (Dec.Finite true 50 0)
             DEFAULT_INTEREST_RATE DEFAULT_OPENING_DATE (midnight 0) "ACTIVE" "SB" in
  calls_of_row MemStore (midnight 0) row empty_db
  = [UserFindFirst "1" "+9771";
     UserCreate (mk_user_data "Hari Thapa" (mk_datetime 1990 1 1 0) None "+9771" None
                   "Kathmandu, Nepal" "CITIZENSHIP" "1" "SB" true);
     AccountFindFirst (Some "AC-1"); AccountCreate d]
  ∧ accounts (final_store midnight [row] empty_db) = [d]
  ∧ written_balance (AccountCreate d) = Some (Dec.Finite true 50 0)
  ∧ Dec.nonneg (Dec.Finite true 50 0) = false.
Proof. by vm_compute. Qed.

(** C8, as the code has it.  The script never checks a sign: the balance a
    row asks the store to write, on create or on update, is non-negative
    whenever the row's cleaned Jestha amount is non-negative. *)
Theorem written_balance_nonneg {St} (base : Store St) (now : datetime) (row : Row) (s : St)
    (jestha_balance : decimal) :
  clean_number (Unnamed_2 row) = Ok jestha_balance →
  Dec.nonneg jestha_balance = true →
  ∀ c b, c ∈ calls_of_row base now row s → written_balance c = Some b →
         Dec.nonneg b = true.
Proof.
  intros Hj Hnn c b Hc Hb.
  destruct (clean_number_returns (Unnamed_4 row)) as [a Ha].
  pose proof (row_written_balance base now row s _ _ c b Hj Ha Hc Hb) as Hch.
  rewrite choose_balance_spec in Hch.
  destruct (Dec.is_nan a); [done|]. simplify_eq.
  destruct (strictly_positive a) eqn:Hpos; [|done].
  by apply strictly_positive_nonneg.
Qed.

Lemma written_balance_nonneg_witness :
  clean_number (CStr "100") = Ok (Dec.Finite false 100 0)
  ∧ Dec.nonneg (Dec.Finite false 100 0) = true
  ∧ Dec.nonneg (Dec.Finite false 150 0) = true.
Proof.
  split; [by vm_compute|]. split; [by vm_compute|].
  apply (written_balance_nonneg MemStore (midnight 0)
           (text_row "Ram Shrestha" "123456" "100" "150") empty_db (Dec.Finite false 100 0)
           eq_refl eq_refl
           (AccountCreate
              (mk_account_data (Some "123456") 0 (Dec.Finite false 150 0)
                 DEFAULT_INTEREST_RATE DEFAULT_OPENING_DATE (midnight 0) "ACTIVE" "SB"))
           (Dec.Finite false 150 0)).
  - vm_compute. do 3 apply list_elem_of_further. apply list_elem_of_here.
  - reflexivity.
Defined.

(** ** The loop *)

Section Loop.

Context {St : Type} (prisma : Store St) (clock : nat → datetime).

Lemma upload_rows_app (pre post : list Row) (index : nat) (acc : Summary) (s : St) :
  upload_rows prisma clock (pre ++ post)%list index acc s =
  let '(acc1, s1) := upload_rows prisma clock pre index acc s in
  upload_rows prisma clock post (index + length pre) acc1 s1.
Proof.
  revert index acc s. induction pre as [|row pre IH]; intros index acc s.
  - cbn. by rewrite Nat.add_0_r.
  - cbn [app upload_rows length].
    destruct (loop_body prisma clock index row acc s) as [acc' s'].
    rewrite IH. destruct (upload_rows prisma clock pre (S index) acc' s') as [acc1 s1].
    f_equal. lia.
Qed.

(** the loop only ever appends to [errors], one entry per count *)
Lemma upload_rows_errors (rows : list Row) (index : nat) (acc : Summary) (s : St) :
  ∃ later,
    errors (upload_rows prisma clock rows index acc s).1 = (errors acc ++ later)%list
    ∧ error_count (upload_rows prisma clock rows index acc s).1
      = error_count acc + length later.
Proof.
  revert index acc s. induction rows as [|row rows IH]; intros index acc s.
  - exists []. cbn. by rewrite app_nil_r, Nat.add_0_r.
  - cbn [upload_rows]. unfold loop_body.
    destruct (process_row prisma (clock index) row s) as [[e|o] s'].
    + destruct (IH (S index) (record_error index row e acc) s') as (later & -> & ->).
      eexists. cbn [record_error errors error_count]. rewrite <- app_assoc.
      split; [reflexivity|]. rewrite length_app. cbn. lia.
    + destruct (IH (S index) (record_outcome o acc) s') as (later & -> & ->).
      exists later. by destruct o.
Qed.

End Loop.

(** C3. When the body of a row raises, at whatever call, the turn of the
    loop catches it: the error list gains one entry with the row's 1-based
    position, the text of the error and the row's cleaned name and account
    identifier, the error count goes up by one, the success count stays, and
    the loop goes on with the rows that follow, from the store the failed
    row left.  The run ends with that entry in its error list. *)
Theorem row_isolation {St} (prisma : Store St) (clock : nat → datetime)
    (pre post : list Row) (row : Row) (s s1 s2 : St) (acc1 : Summary) (row_error : exn) :
  upload_sb_accounts prisma clock pre s = (acc1, s1) →
  process_row prisma (clock (length pre)) row s1 = (Raise row_error, s2) →
  let entry :=
    {| error_row := length pre + 1;
       error_text := str_exn row_error;
       error_fullName := clean_string (Unnamed_0 row);
       error_accountNumber := clean_string (Unnamed_1 row) |} in
  let acc2 :=
    {| success_count := success_count acc1;
       error_count := error_count acc1 + 1;
       errors := errors acc1 ++ [entry] |} in
  upload_sb_accounts prisma clock (pre ++ row :: post) s
  = upload_rows prisma clock post (S (length pre)) acc2 s2
  ∧ ∃ later,
      errors (upload_sb_accounts prisma clock (pre ++ row :: post) s).1
      = (errors acc1 ++ entry :: later)%list.
Proof.
  intros Hpre Hrow entry acc2.
  assert (upload_sb_accounts prisma clock (pre ++ row :: post) s
          = upload_rows prisma clock post (S (length pre)) acc2 s2) as Hrun.
  { unfold upload_sb_accounts in *. rewrite upload_rows_app, Hpre.
    cbn [upload_rows Nat.add]. unfold loop_body. rewrite Hrow.
    reflexivity. }
  split; [exact Hrun|].
  rewrite Hrun.
  destruct (upload_rows_errors prisma clock post (S (length pre)) acc2 s2)
    as (later & -> & _).
  exists later. subst acc2. cbn [errors]. by rewrite <- app_assoc.
Qed.

Lemma row_isolation_witness :
  let store := FaultyStore ["5"] in
  let pre := member_row <$> seq 1 4 in
  let post := member_row <$> seq 6 5 in
  let acc1 := (upload_sb_accounts store midnight pre empty_db).1 in
  let entry :=
    {| error_row := 5;
       error_text := "useraccount.create failed";
       error_fullName := Some "Member 5";
       error_accountNumber := Some "5" |} in
  (success_count acc1 = 4 ∧ error_count acc1 = 0)
  ∧ ∃ later,
      errors (upload_sb_accounts store midnight (pre ++ member_row 5 :: post) empty_db).1
      = (errors acc1 ++ entry :: later)%list.
Proof.
  intros store pre post acc1 entry.
  split; [by vm_compute|].
  apply (row_isolation store midnight pre post (member_row 5) empty_db
           (upload_sb_accounts store midnight pre empty_db).2
           (process_row store (midnight 4) (member_row 5)
              (upload_sb_accounts store midnight pre empty_db).2).2
           acc1 (StoreError "useraccount.create failed")).
  - subst acc1. by destruct (upload_sb_accounts store midnight pre empty_db).
  - vm_compute. reflexivity.
Defined.

(** the same batch, run: nine accounts created, one error, tagged row 5 *)
Lemma row_5_of_10 :
  let result :=
    upload_sb_accounts (FaultyStore ["5"]) midnight (member_row <$> seq 1 10) empty_db in
  success_count result.1 = 9
  ∧ error_count result.1 = 1
  ∧ errors result.1 =
    [ {| error_row := 5;
         error_text := "useraccount.create failed";
         error_fullName := Some "Member 5";
         error_accountNumber := Some "5" |} ]
  ∧ length (users result.2) = 10
  ∧ length (accounts result.2) = 9.
Proof. by vm_compute. Qed.

(** ** A recorded run is the run *)

Lemma traced_reconcile {St} (base : Store St) now fn an j a s log :
  (reconcile (traced base) now fn an j a (s, log)).1 = (reconcile base now fn an j a s).1
  ∧ (reconcile (traced base) now fn an j a (s, log)).2.1 = (reconcile base now fn an j a s).2.
Proof.
  unfold reconcile, bind, lift, ret.
  generalize (generate_user_id_number (Some an)) (generate_account_number (CStr an)).
  intros uid acc_no. cbn. unfold traced_call. cbn.
  generalize (choose_balance j a). intros chosen.
  repeat (case_match; simplify_eq/=); done.
Qed.

Lemma clean_string_fixed (value : cell) (s : string) :
  clean_string value = Some s → clean_string (CStr s) = Some s.
Proof.
  rewrite !clean_string_unfold. cbn [isna str orb].
  destruct (isna value || _) eqn:H; [done|]. intros [= <-].
  apply orb_false_iff in H as [_ H]. by rewrite strip_idem, H.
Qed.

Lemma gated_account_number (row : Row) (fn an : string) :
  gated_fields row = Some (fn, an) → generate_account_number (CStr an) = Some an.
Proof.
  unfold gated_fields. intros Hg.
  destruct (required (clean_string (Unnamed_0 row))) as [fn'|]; [|done].
  destruct (required (clean_string (Unnamed_1 row))) as [an'|] eqn:Han; [|done].
  destruct (_ || _); [done|]. simplify_eq.
  apply required_Some in Han as [Han Hne].
  unfold generate_account_number. rewrite (clean_string_fixed _ _ Han).
  by destruct an.
Qed.

(** ** The row body on the in-memory store *)

Lemma reconcile_found now fn an j a b i stored s log :
  generate_account_number (CStr an) = Some an →
  choose_balance j a = Ok b →
  list_find (account_matches (Some an)) (accounts s) = Some (i, stored) →
  ∃ us front,
    reconcile (traced MemStore) now fn an j a (s, log)
    = match Dec.ne b (balance stored) with
      | inl e =>
          (Raise e, (mk_db us (accounts s), log ++ front ++ [AccountFindFirst (Some an)]))
      | inr true =>
          (Ok Updated,
           (mk_db us (alter (set_balance b) i (accounts s)),
            log ++ front ++ [AccountFindFirst (Some an); AccountUpdate i b]))
      | inr false =>
          (Ok Unchanged, (mk_db us (accounts s), log ++ front ++ [AccountFindFirst (Some an)]))
      end%list
    ∧ account_writes front = [].
Proof.
  intros Hacc Hb Hfind. destruct s as [us0 acs0]. cbn [accounts] in *.
  unfold reconcile, bind, lift, ret. rewrite Hacc, Hb.
  generalize (generate_user_id_number (Some an)). intros uid.
  cbn. unfold traced_call, mem_user_find_first, mem_user_create,
    mem_useraccount_find_first, mem_useraccount_update. cbn.
  destruct (list_find _ us0) as [[k u]|]; cbn; rewrite Hfind; cbn.
  - exists us0, [UserFindFirst uid ("+977" +:+ uid)].
    split; [|done].
    destruct (Dec.ne b (balance stored)) as [e|[]]; cbn; by rewrite <- ?app_assoc.
  - eexists (us0 ++ [_])%list, [UserFindFirst uid ("+977" +:+ uid); UserCreate _].
    split; [|done].
    destruct (Dec.ne b (balance stored)) as [e|[]]; cbn; by rewrite <- ?app_assoc.
Qed.

Lemma traced_process_row {St} (base : Store St) now row s log :
  (process_row (traced base) now row (s, log)).1 = (process_row base now row s).1
  ∧ (process_row (traced base) now row (s, log)).2.1 = (process_row base now row s).2.
Proof.
  destruct (clean_number_returns (Unnamed_2 row)) as [j Hj].
  destruct (clean_number_returns (Unnamed_4 row)) as [a Ha].
  destruct (gated_fields row) as [[fn an]|] eqn:Hg.
  - rewrite !(process_row_reconcile _ _ _ _ fn an j a Hg Hj Ha).
    apply traced_reconcile.
  - destruct (process_row_skip row Hg) as (o & _ & Hrun). by rewrite !Hrun.
Qed.

(** ** What a processed row hands to the store *)

Lemma written_balances_app (l1 l2 : list call) :
  written_balances (l1 ++ l2) = written_balances l1 ++ written_balances l2.
Proof. unfold written_balances. apply omap_app. Qed.

Lemma written_balances_writes (calls : list call) :
  account_writes calls = [] → written_balances calls = [].
Proof.
  unfold account_writes, written_balances.
  induction calls as [|c calls IH]; [done|]. cbn [List.filter].
  destruct c; cbn; try done; exact IH.
Qed.

(** how the row body ends, on any store, and what it has asked the store
    to write by then *)
Lemma reconcile_outcome {St} (base : Store St) now fn an j a s o :
  (reconcile (traced base) now fn an j a (s, [])).1 = Ok o →
  match o with
  | Created | Updated =>
      ∃ b, choose_balance j a = Ok b
           ∧ written_balances (reconcile (traced base) now fn an j a (s, [])).2.2 = [b]
  | _ => written_balances (reconcile (traced base) now fn an j a (s, [])).2.2 = []
  end.
Proof.
  unfold reconcile, bind, lift, ret.
  generalize (generate_user_id_number (Some an)) (generate_account_number (CStr an)).
  intros uid acc_no. cbn. unfold traced_call. cbn.
  generalize (choose_balance j a). intros chosen.
  repeat (case_match; simplify_eq/=); intros; simplify_eq/=; try done.
  all: by eexists.
Qed.

(** the row body on the in-memory store, when the account is not there yet *)
Lemma reconcile_fresh now fn an j a b s log :
  generate_account_number (CStr an) = Some an →
  choose_balance j a = Ok b →
  list_find (account_matches (Some an)) (accounts s) = None →
  ∃ us front user,
    reconcile (traced MemStore) now fn an j a (s, log)
    = (Ok Created,
       (mk_db us (accounts s ++ [candidate_account now an user b]),
        log ++ front ++ [AccountFindFirst (Some an);
                         AccountCreate (candidate_account now an user b)]))%list
    ∧ account_writes front = [].
Proof.
  intros Hacc Hb Hfind. destruct s as [us0 acs0]. cbn [accounts] in *.
  unfold reconcile, bind, lift, ret, candidate_account. rewrite Hacc, Hb.
  generalize (generate_user_id_number (Some an)). intros uid.
  cbn. unfold traced_call, mem_user_find_first, mem_user_create,
    mem_useraccount_find_first, mem_useraccount_create. cbn.
  destruct (list_find _ us0) as [[k u]|]; cbn; rewrite Hfind; cbn.
  - exists us0, [UserFindFirst uid ("+977" +:+ uid)], k.
    split; [|done]. by rewrite <- ?app_assoc.
  - eexists (us0 ++ [_])%list, [UserFindFirst uid ("+977" +:+ uid); UserCreate _],
      (length us0).
    split; [|done]. by rewrite <- ?app_assoc.
Qed.

(** C2. The balance of the candidate account record is the Ashad balance
    when that balance is strictly positive and the Jestha balance otherwise,
    and that is the balance the row hands to the store.  On any store,
    whatever balance a row asks the store to write is that one, and a row
    that ends in a created account or in an updated balance has asked the
    store to write it, once.  On the in-memory store every row that passes
    the gates (with an Ashad balance that is a number) does so: it creates
    the account with that balance when the account number is new, and
    writes that balance over the stored one when the account is there with a
    different balance.  Jestha 100 with Ashad 0 gives 100, Jestha 100 with
    Ashad 150 gives 150, in the choice and in what the rows write. *)
Theorem balance_precedence {St} (base : Store St) (now : datetime) (row : Row) (s : St)
    (m : db) (jestha_balance ashad_balance : decimal) :
  clean_number (Unnamed_2 row) = Ok jestha_balance →
  clean_number (Unnamed_4 row) = Ok ashad_balance →
  let chosen :=
    if strictly_positive ashad_balance then ashad_balance else jestha_balance in
  (∀ c b, c ∈ calls_of_row base now row s → written_balance c = Some b →
     Dec.is_nan ashad_balance = false ∧ b = chosen)
  ∧ (Dec.is_nan ashad_balance = false →
     choose_balance jestha_balance ashad_balance = Ok chosen)
  ∧ (∀ o, (process_row (traced base) now row (s, [])).1 = Ok o →
       written_balances (calls_of_row base now row s)
       = match o with Created | Updated => [chosen] | _ => [] end)
  ∧ (∀ fn an, gated_fields row = Some (fn, an) → Dec.is_nan ashad_balance = false →
       written_balances (calls_of_row MemStore now row m)
       = match list_find (account_matches (Some an)) (accounts m) with
         | None => [chosen]
         | Some (_, stored) =>
             match Dec.ne chosen (balance stored) with
             | inr true => [chosen]
             | _ => []
             end
         end
       ∧ (list_find (account_matches (Some an)) (accounts m) = None →
          ∃ d, accounts (process_row MemStore now row m).2 = (accounts m ++ [d])%list
               ∧ accountNumber d = Some an ∧ balance d = chosen))
  ∧ choose_balance (Dec.Finite false 100 0) (Dec.Finite false 0 0) = Ok (Dec.Finite false 100 0)
  ∧ choose_balance (Dec.Finite false 100 0) (Dec.Finite false 150 0)
    = Ok (Dec.Finite false 150 0)
  ∧ written_balances
      (calls_of_row MemStore (midnight 0) (text_row "Ram Shrestha" "123456" "100" "0")
         empty_db)
    = [Dec.Finite false 100 0]
  ∧ written_balances
      (calls_of_row MemStore (midnight 0) (text_row "Ram Shrestha" "123456" "100" "150")
         empty_db)
    = [Dec.Finite false 150 0].
Proof.
  intros Hj Ha chosen. split_and!; [| | | |by vm_compute..].
  - intros c b Hc Hb.
    pose proof (row_written_balance base now row s _ _ c b Hj Ha Hc Hb) as Hch.
    rewrite choose_balance_spec in Hch.
    destruct (Dec.is_nan ashad_balance); [done|]. by simplify_eq.
  - intros Hnan. by rewrite choose_balance_spec, Hnan.
  - intros o Ho. unfold calls_of_row.
    destruct (gated_fields row) as [[fn an]|] eqn:Hg.
    + rewrite (process_row_reconcile _ _ _ _ fn an _ _ Hg Hj Ha) in Ho |- *.
      pose proof (reconcile_outcome base now fn an _ _ s o Ho) as Hout.
      destruct o; try done.
      all: destruct Hout as (b & Hb & ->); rewrite choose_balance_spec in Hb.
      all: destruct (Dec.is_nan ashad_balance); [done|]; by simplify_eq.
    + destruct (process_row_skip row Hg) as (o' & Ho' & Hrun).
      rewrite Hrun in Ho |- *. cbn in Ho |- *. simplify_eq.
      by destruct Ho' as [-> | ->].
  - intros fn an Hg Hnan.
    pose proof (gated_account_number row fn an Hg) as Hacc.
    assert (choose_balance jestha_balance ashad_balance = Ok chosen) as Hb
      by (by rewrite choose_balance_spec, Hnan).
    assert (process_row (traced MemStore) now row (m, [])
            = reconcile (traced MemStore) now fn an jestha_balance ashad_balance (m, []))
      as Hpr by (by apply process_row_reconcile).
    pose proof (traced_process_row MemStore now row m []) as [_ Hst].
    unfold calls_of_row. rewrite Hpr in Hst |- *.
    destruct (list_find (account_matches (Some an)) (accounts m)) as [[i stored]|] eqn:Hfind.
    + destruct (reconcile_found now fn an _ _ chosen i stored m [] Hacc Hb Hfind)
        as (us & front & Hrun & Hfront).
      rewrite Hrun. split; [|done].
      apply written_balances_writes in Hfront.
      destruct (Dec.ne chosen (balance stored)) as [e|[]]; cbn [snd app];
        by rewrite written_balances_app, Hfront.
    + destruct (reconcile_fresh now fn an _ _ chosen m [] Hacc Hb Hfind)
        as (us & front & user & Hrun & Hfront).
      rewrite Hrun in Hst |- *. cbn [fst snd app] in Hst |- *.
      apply written_balances_writes in Hfront.
      split; [by rewrite written_balances_app, Hfront|].
      intros _. exists (candidate_account now an user chosen).
      rewrite <- Hst. cbn [accounts]. split_and!; [done| |done].
      unfold candidate_account. cbn [accountNumber]. exact Hacc.
Qed.

Lemma balance_precedence_witness :
  let row := text_row "Ram Shrestha" "123456" "100" "150" in
  let s := final_store midnight [text_row "Ram Shrestha" "123456" "100" "0"] empty_db in
  written_balances (calls_of_row MemStore (midnight 1) row s) = [Dec.Finite false 150 0]
  ∧ balance <$> accounts s = [Dec.Finite false 100 0]
  ∧ balance <$> accounts (process_row MemStore (midnight 1) row s).2
    = [Dec.Finite false 150 0].
Proof.
  intros row s.
  destruct (balance_precedence MemStore (midnight 1) row s s
              (Dec.Finite false 100 0) (Dec.Finite false 150 0) eq_refl eq_refl)
    as (_ & _ & Hany & Hmem & _).
  split; [|by vm_compute].
  rewrite (Hany Updated); [reflexivity|by vm_compute].
Defined.

(** ** An account that is already there *)

(** C4. A row that reaches the account lookup and whose account identifier
    matches a stored account never counts as a success.  When the balance it
    computed differs from the stored one under [Decimal]'s own [!=] (the
    values compared exactly; 100.00 and 100.01 differ, 1.0 and 1.00 do not),
    its one write to the account table is the update of that account's
    balance, and the table afterwards is the old one with the balance field
    of that record replaced; when the two are equal it writes nothing to the
    account table, which stays as it was. *)
Theorem existing_account_only_balance (clock : nat → datetime) (index : nat) (row : Row)
    (acc : Summary) (s : db) (fn an : string) (j a b : decimal) (i : nat)
    (stored : AccountData) :
  gated_fields row = Some (fn, an) →
  clean_number (Unnamed_2 row) = Ok j →
  clean_number (Unnamed_4 row) = Ok a →
  choose_balance j a = Ok b →
  list_find (account_matches (Some an)) (accounts s) = Some (i, stored) →
  let acc' := (loop_body MemStore clock index row acc s).1 in
  let s' := (loop_body MemStore clock index row acc s).2 in
  let writes := account_writes (calls_of_row MemStore (clock index) row s) in
  success_count acc' = success_count acc
  ∧ (Dec.ne b (balance stored) = Ok true →
       writes = [AccountUpdate i b]
       ∧ accounts s' = alter (set_balance b) i (accounts s)
       ∧ error_count acc' = error_count acc)
  ∧ (Dec.ne b (balance stored) = Ok false →
       writes = []
       ∧ accounts s' = accounts s
       ∧ error_count acc' = error_count acc)
  ∧ Dec.ne (Dec.Finite false 10000 (-2)) (Dec.Finite false 10001 (-2)) = Ok true
  ∧ Dec.ne (Dec.Finite false 10 (-1)) (Dec.Finite false 100 (-2)) = Ok false.
Proof.
  intros Hg Hj Ha Hb Hfind acc' s' writes.
  pose proof (gated_account_number row fn an Hg) as Hacc.
  destruct (reconcile_found (clock index) fn an j a b i stored s [] Hacc Hb Hfind)
    as (us & front & Hrun & Hfront).
  pose proof (traced_process_row MemStore (clock index) row s []) as [Hres Hst].
  assert (process_row (traced MemStore) (clock index) row (s, [])
          = reconcile (traced MemStore) (clock index) fn an j a (s, [])) as Hpr
    by (by apply process_row_reconcile).
  subst acc' s' writes. unfold loop_body, calls_of_row.
  rewrite Hpr, Hrun in Hres, Hst. rewrite Hpr, Hrun. clear Hpr Hrun.
  destruct (process_row MemStore (clock index) row s) as [r st]. cbn [fst snd] in *.
  assert (∀ tail, account_writes (front ++ tail) = account_writes tail) as Hw.
  { intros tail. unfold account_writes in *. by rewrite List.filter_app, Hfront. }
  destruct (Dec.ne b (balance stored)) as [e|[]]; cbn [fst snd] in *; subst r st;
    cbn [fst snd accounts app]; rewrite Hw; cbn; split_and!; done.
Qed.

Lemma existing_account_only_balance_witness :
  let s := final_store midnight [text_row "Ram Shrestha" "123456" "100" "0"] empty_db in
  let row := text_row "Ram Shrestha" "123456" "100" "150" in
  let acc := {| success_count := 1; error_count := 0; errors := [] |} in
  let stored :=
    mk_account_data (Some "123456") 0 (Dec.Finite false 100 0)
      DEFAULT_INTEREST_RATE DEFAULT_OPENING_DATE (midnight 0) "ACTIVE" "SB" in
  let b := Dec.Finite false 150 0 in
  let acc' := (loop_body MemStore midnight 1 row acc s).1 in
  let s' := (loop_body MemStore midnight 1 row acc s).2 in
  let writes := account_writes (calls_of_row MemStore (midnight 1) row s) in
  success_count acc' = success_count acc
  ∧ (Dec.ne b (balance stored) = Ok true →
       writes = [AccountUpdate 0 b]
       ∧ accounts s' = alter (set_balance b) 0 (accounts s)
       ∧ error_count acc' = error_count acc)
  ∧ (Dec.ne b (balance stored) = Ok false →
       writes = []
       ∧ accounts s' = accounts s
       ∧ error_count acc' = error_count acc)
  ∧ Dec.ne (Dec.Finite false 10000 (-2)) (Dec.Finite false 10001 (-2)) = Ok true
  ∧ Dec.ne (Dec.Finite false 10 (-1)) (Dec.Finite false 100 (-2)) = Ok false.
Proof.
  intros s row acc stored b.
  apply (existing_account_only_balance midnight 1 row acc s "Ram Shrestha" "123456"
           (Dec.Finite false 100 0) (Dec.Finite false 150 0) b 0 stored);
    vm_compute; reflexivity.
Defined.

(** the same row, run: the stored 100 becomes 150 and nothing else moves *)
Lemma existing_account_updated_to_150 :
  let s := final_store midnight [text_row "Ram Shrestha" "123456" "100" "0"] empty_db in
  let row := text_row "Ram Shrestha" "123456" "100" "150" in
  balance <$> accounts s = [Dec.Finite false 100 0]
  ∧ balance <$> accounts (final_store midnight [row] s) = [Dec.Finite false 150 0]
  ∧ set_balance (Dec.Finite false 100 0) <$> accounts (final_store midnight [row] s)
    = accounts s
  ∧ users (final_store midnight [row] s) = users s
  ∧ (upload_sb_accounts MemStore midnight [row] s).1
    = {| success_count := 0; error_count := 0; errors := [] |}.
Proof. by vm_compute. Qed.

(** * A second run changes nothing *)

(** ** [Decimal] equality is an equivalence on numbers *)

Lemma signed_mul (n : bool) (x k : Z) : (Dec.signed n (x * k) = Dec.signed n x * k)%Z.
Proof. destruct n; cbn; lia. Qed.

Lemma finite_eq_at (M : Z) n1 c1 e1 n2 c2 e2 :
  (M ≤ e1)%Z → (M ≤ e2)%Z →
  Dec.cmp (Dec.Finite n1 c1 e1) (Dec.Finite n2 c2 e2) = Eq
  ↔ Dec.signed n1 (Z.of_N c1 * 10 ^ (e1 - M)) = Dec.signed n2 (Z.of_N c2 * 10 ^ (e2 - M)).
Proof.
  intros H1 H2. cbn [Dec.cmp]. rewrite Z.compare_eq_iff.
  set (m := Z.min e1 e2).
  replace (e1 - M)%Z with ((e1 - m) + (m - M))%Z by lia.
  replace (e2 - M)%Z with ((e2 - m) + (m - M))%Z by lia.
  rewrite !Z.pow_add_r by lia. rewrite !Z.mul_assoc, !signed_mul.
  assert (10 ^ (m - M) ≠ 0)%Z as Hk by (apply Z.pow_nonzero; lia).
  split; [by intros ->|]. by apply Z.mul_reg_r.
Qed.

Lemma cmp_eq_sym (x y : decimal) : Dec.cmp x y = Eq → Dec.cmp y x = Eq.
Proof.
  destruct x as [n1 c1 e1|[]|? ?|? ?], y as [n2 c2 e2|[]|? ?|? ?]; try done.
  rewrite !(finite_eq_at (Z.min e1 e2)) by lia. done.
Qed.

Lemma cmp_eq_trans (x y z : decimal) :
  Dec.is_nan y = false →
  Dec.cmp x y = Eq → Dec.cmp y z = Eq → Dec.cmp x z = Eq.
Proof.
  destruct x as [n1 c1 e1|[]|? ?|? ?], y as [n2 c2 e2|[]|? ?|? ?],
    z as [n3 c3 e3|[]|? ?|? ?]; try done.
  intros _.
  rewrite !(finite_eq_at (Z.min (Z.min e1 e2) e3)) by lia. congruence.
Qed.

Lemma cmp_refl (x : decimal) : Dec.cmp x x = Eq.
Proof.
  destruct x as [n c e|[]|? ?|? ?]; try done.
  by apply (finite_eq_at e); lia.
Qed.

Lemma ne_false_iff (x y : decimal) : Dec.ne x y = Ok false ↔ same_number x y.
Proof.
  unfold Dec.ne, same_number.
  destruct x as [n1 c1 e1|[]|? ?|? ?], y as [n2 c2 e2|[]|? ?|? ?];
    cbn [Dec.is_snan Dec.is_nan orb]; try (split; [done|by intros (?&?&?)]).
  all: try (split; [done|]; intros _; done).
  all: destruct (Dec.cmp _ _) eqn:Hc; split; intros H; try done;
       try (by destruct H as (?&?&?)); try (by split_and!).
Qed.

Lemma same_number_refl_r (x y : decimal) : same_number x y → same_number y y.
Proof. intros (_ & Hy & _). split_and!; [done..|apply cmp_refl]. Qed.

Lemma same_number_sym (x y : decimal) : same_number x y → same_number y x.
Proof. intros (Hx & Hy & H). split_and!; [done..|by apply cmp_eq_sym]. Qed.

Lemma same_number_trans (x y z : decimal) :
  same_number x y → same_number y z → same_number x z.
Proof.
  intros (Hx & Hy & H1) (_ & Hz & H2). split_and!; [done..|by apply (cmp_eq_trans x y z)].
Qed.

(** comparing against either of two equal numbers gives the same answer *)
Lemma ne_same_number (b t v : decimal) : same_number t v → Dec.ne b t = Dec.ne b v.
Proof.
  intros Htv. destruct (Htv) as (Ht & Hv & Hc).
  assert (Dec.is_snan t = false) as Hst by (by destruct t).
  assert (Dec.is_snan v = false) as Hsv by (by destruct v).
  unfold Dec.ne. rewrite Ht, Hv, Hst, Hsv, !orb_false_r.
  destruct (Dec.is_snan b); [done|]. destruct (Dec.is_nan b) eqn:Hb; [done|].
  destruct (Dec.cmp b t) eqn:Hbt, (Dec.cmp b v) eqn:Hbv; try done.
  - rewrite (cmp_eq_trans b t v) in Hbv; done.
  - rewrite (cmp_eq_trans b t v) in Hbv; done.
  - rewrite (cmp_eq_trans b v t) in Hbt; [done..|by apply cmp_eq_sym].
  - rewrite (cmp_eq_trans b v t) in Hbt; [done..|by apply cmp_eq_sym].
Qed.

Lemma ne_true_no_snan (b t : decimal) :
  Dec.ne b t = Ok true → Dec.is_snan b = false ∧ Dec.is_snan t = false.
Proof.
  unfold Dec.ne. destruct (Dec.is_snan b), (Dec.is_snan t); done.
Qed.

Lemma ne_snan_r (b t : decimal) : Dec.is_snan t = true → Dec.ne b t = Raise InvalidOperation.
Proof. unfold Dec.ne. intros ->. by rewrite orb_true_r. Qed.

Lemma ne_cases (b t : decimal) :
  Dec.ne b t = Ok true ∨ Dec.ne b t = Ok false
  ∨ (Dec.ne b t = Raise InvalidOperation ∧ (Dec.is_snan b = true ∨ Dec.is_snan t = true)).
Proof.
  unfold Dec.ne. destruct (Dec.is_snan b), (Dec.is_snan t); cbn [orb]; try by (right; right; auto).
  destruct (_ || _); [by left|]. destruct (Dec.cmp b t); auto.
Qed.

(** ** The account table *)

Section AccountTable.

Implicit Types (l S T F ds : list AccountData).
Implicit Types (p i j : nat) (a d x s t f : AccountData) (b : decimal).
Lemma shape_set_balance b a : shape (set_balance b a) = shape a.
Proof. by destruct a. Qed.

Lemma shape_eq a a' : shape a = shape a' → balance a = balance a' → a = a'.
Proof. destruct a, a'. unfold shape, set_balance. cbn. congruence. Qed.

Lemma shape_accountNumber a a' : shape a = shape a' → accountNumber a = accountNumber a'.
Proof. destruct a, a'. unfold shape, set_balance. cbn. congruence. Qed.

Lemma shape_alter b i l : shape <$> alter (set_balance b) i l = shape <$> l.
Proof.
  apply list_eq. intros j. rewrite !list_lookup_fmap.
  destruct (decide (i = j)) as [->|Hne].
  - rewrite list_lookup_alter_eq. destruct (l !! j); [|done]. cbn. by rewrite shape_set_balance.
  - by rewrite list_lookup_alter_ne.
Qed.

Lemma shape_lookup l l' p x :
  shape <$> l `prefix_of` shape <$> l' → l !! p = Some x →
  ∃ x', l' !! p = Some x' ∧ shape x' = shape x.
Proof.
  intros Hpre Hx.
  assert ((shape <$> l') !! p = Some (shape x)) as H.
  { eapply prefix_lookup_Some; [|exact Hpre]. by rewrite list_lookup_fmap, Hx. }
  apply list_lookup_fmap_Some in H as (x' & Hx' & Hs). eauto.
Qed.

Lemma shape_lookup_inv l l' p x' :
  shape <$> l `prefix_of` shape <$> l' → l' !! p = Some x' → p < length l →
  ∃ x, l !! p = Some x ∧ shape x = shape x'.
Proof.
  intros Hpre Hx' Hp.
  destruct (lookup_lt_is_Some_2 l p Hp) as [x Hx]. exists x. split; [done|].
  destruct (shape_lookup l l' p x Hpre Hx) as (x'' & Hx'' & Hs). congruence.
Qed.

Lemma find_key_prefix k l l' p x :
  shape <$> l `prefix_of` shape <$> l' →
  list_find (account_matches k) l = Some (p, x) →
  ∃ x', list_find (account_matches k) l' = Some (p, x') ∧ shape x' = shape x.
Proof.
  intros Hpre (Hx & Hk & Hmin)%list_find_Some.
  destruct (shape_lookup l l' p x Hpre Hx) as (x' & Hx' & Hs).
  exists x'. split; [|done]. apply list_find_Some. split_and!; [done|..].
  - unfold account_matches in *. by rewrite (shape_accountNumber _ _ Hs).
  - intros j y' Hy' Hj.
    destruct (shape_lookup_inv l l' j y' Hpre Hy') as (y & Hy & Hsy).
    { apply lookup_lt_Some in Hx. lia. }
    pose proof (Hmin j y Hy Hj) as Hn. unfold account_matches in *.
    by rewrite <- (shape_accountNumber _ _ Hsy).
Qed.

Lemma write_account_prefix d l : shape <$> l `prefix_of` shape <$> write_account d l.
Proof.
  unfold write_account. destruct (list_find _ l) as [[i stored]|].
  - destruct (Dec.ne _ _) as [e|[]]; [done| |done]. by rewrite shape_alter.
  - rewrite fmap_app. by apply prefix_app_r.
Qed.

Lemma write_all_prefix ds l : shape <$> l `prefix_of` shape <$> write_all ds l.
Proof.
  revert l. induction ds as [|d ds IH]; intros l; [done|]. cbn.
  etrans; [apply (write_account_prefix d)|apply IH].
Qed.

(** a stored signalling NaN is never overwritten *)
Lemma write_account_snan d l p s :
  l !! p = Some s → Dec.is_snan (balance s) = true →
  write_account d l !! p = Some s.
Proof.
  intros Hs Hsn. unfold write_account.
  destruct (list_find _ l) as [[i stored]|] eqn:Hfind.
  - destruct (Dec.ne _ _) as [e|[]] eqn:Hne; [done| |done].
    destruct (decide (i = p)) as [->|Hip]; [|by rewrite list_lookup_alter_ne].
    apply list_find_Some in Hfind as (Hst & _). simplify_eq.
    by rewrite ne_snan_r in Hne.
  - by apply lookup_app_l_Some.
Qed.

Lemma write_all_snan ds l p s :
  l !! p = Some s → Dec.is_snan (balance s) = true →
  write_all ds l !! p = Some s.
Proof.
  revert l. induction ds as [|d ds IH]; intros l Hs Hsn; [done|]. cbn.
  apply IH; [|done]. by apply write_account_snan.
Qed.

Lemma settled_start S F : settled S F F.
Proof. split; [done|]. intros p t f Ht Hf. left. congruence. Qed.

Lemma settled_end S T : settled S T S → T = S.
Proof.
  intros [Hshape Hbal]. apply list_eq. intros p.
  pose proof (f_equal (.!! p) Hshape) as Hp. cbn in Hp. rewrite !list_lookup_fmap in Hp.
  destruct (T !! p) as [t|] eqn:Ht, (S !! p) as [s|] eqn:Hs; try done.
  cbn in Hp. f_equal. apply shape_eq; [congruence|].
  destruct (Hbal p t s Ht Hs) as [?|(s' & Hs' & [?|[Hsame Hnot]])]; simplify_eq; try done.
  destruct Hnot. by apply (same_number_refl_r (balance t)).
Qed.

Lemma write_account_found d l p s :
  list_find (account_matches (accountNumber d)) l = Some (p, s) →
  write_account d l !! p = Some (set_balance (kept (balance d) (balance s)) s)
  ∧ (∀ q, q ≠ p → write_account d l !! q = l !! q)
  ∧ shape <$> write_account d l = shape <$> l.
Proof.
  intros Hfind. unfold write_account, kept. rewrite Hfind.
  apply list_find_Some in Hfind as (Hs & _).
  assert (set_balance (balance s) s = s) as Hid by (by destruct s).
  destruct (Dec.ne _ _) as [e|[]]; rewrite ?Hid; split_and!; try done.
  - by rewrite list_lookup_alter_eq, Hs.
  - intros q Hq. by rewrite list_lookup_alter_ne.
  - apply shape_alter.
Qed.

Lemma write_account_fresh d l :
  list_find (account_matches (accountNumber d)) l = None →
  write_account d l = l ++ [d]
  ∧ list_find (account_matches (accountNumber d)) (l ++ [d]) = Some (length l, d).
Proof.
  intros Hfind. unfold write_account. rewrite Hfind. split; [done|].
  apply list_find_app_Some. right. split_and!; [lia|done|].
  rewrite Nat.sub_diag. cbn. by rewrite decide_True.
Qed.

Lemma kept_settled (b v tb w : decimal) :
  (Dec.is_snan (kept b v) = true → w = kept b v) →
  tb = w ∨ tb = v ∨ (same_number tb v ∧ ¬ same_number v w) →
  kept b tb = w ∨ kept b tb = kept b v
  ∨ (same_number (kept b tb) (kept b v) ∧ ¬ same_number (kept b v) w).
Proof.
  intros Hsnan [-> | [-> | [Hsame Hnot]]].
  - unfold kept in *.
    destruct (ne_cases b w) as [Hw | [Hw | [Hw _]]]; rewrite Hw; auto.
    destruct (ne_cases b v) as [Hv | [Hv | [Hv Hsn]]]; rewrite Hv in Hsnan |- *; auto.
    + right. right. split; [by apply ne_false_iff|].
      intros Hvw. rewrite (ne_same_number b v w Hvw) in Hv. congruence.
    + pose proof (ne_true_no_snan _ _ Hw) as [Hb Hwn].
      destruct Hsn as [Hsn|Hsn]; [congruence|].
      specialize (Hsnan Hsn). subst w. congruence.
  - auto.
  - unfold kept in *. rewrite (ne_same_number b tb v Hsame).
    destruct (Dec.ne b v) as [e|[]]; auto.
Qed.

Lemma settled_step d1 d2 rest S T :
  same_write d1 d2 →
  settled S T (write_all rest (write_account d1 S)) →
  settled (write_account d1 S) (write_account d2 T) (write_all rest (write_account d1 S)).
Proof.
  intros [Hk Hb] [Hshape Hbal].
  pose proof (write_all_prefix rest (write_account d1 S)) as HS'F.
  set (F := write_all rest (write_account d1 S)) in *.
  assert (shape <$> F `prefix_of` shape <$> T) as HFT by (by rewrite Hshape).
  destruct (list_find (account_matches (accountNumber d1)) S) as [[p s]|] eqn:HfS.
  - destruct (write_account_found d1 S p s HfS) as (HS'p & HS'q & HS'shape).
    destruct (find_key_prefix (accountNumber d1) S (write_account d1 S) p s) as (s' & HfS' & _);
      [by rewrite HS'shape|done|].
    destruct (find_key_prefix (accountNumber d1) _ F p s' HS'F HfS') as (f0 & HfF & _).
    destruct (find_key_prefix (accountNumber d1) _ T p f0 HFT HfF) as (t & HfT & _).
    rewrite Hk in HfT.
    destruct (write_account_found d2 T p t HfT) as (HT'p & HT'q & HT'shape).
    split; [by rewrite HT'shape|].
    intros q t' f Ht' Hf.
    destruct (decide (q = p)) as [->|Hq].
    + rewrite HT'p in Ht'. simplify_eq. cbn [balance set_balance]. rewrite <- Hb.
      apply list_find_Some in HfT as (Ht & _). apply list_find_Some in HfS as (Hs & _).
      destruct (kept_settled (balance d1) (balance s) (balance t) (balance f)) as [H|[H|H]].
      * intros Hsn.
        pose proof (write_all_snan rest _ p _ HS'p Hsn) as HF. fold F in HF.
        by simplify_eq.
      * destruct (Hbal p t f Ht Hf) as [?|(s0 & Hs0 & Hrel)]; [by left|].
        right. by simplify_eq.
      * by left.
      * right. eexists. split; [exact HS'p|]. by left.
      * right. eexists. split; [exact HS'p|]. by right.
    + rewrite HT'q in Ht' by done.
      destruct (Hbal q t' f Ht' Hf) as [?|(s0 & Hs0 & Hrel)]; [by left|].
      right. exists s0. split; [by rewrite HS'q|done].
  - destruct (write_account_fresh d1 S HfS) as [HS' HfS'].
    rewrite HS' in HS'F.
    destruct (find_key_prefix (accountNumber d1) _ F (length S) d1 HS'F HfS') as (f0 & HfF & _).
    destruct (find_key_prefix (accountNumber d1) _ T _ f0 HFT HfF) as (t & HfT & _).
    rewrite Hk in HfT.
    destruct (write_account_found d2 T _ t HfT) as (HT'p & HT'q & HT'shape).
    split; [by rewrite HT'shape|].
    intros q t' f Ht' Hf. rewrite HS'.
    destruct (decide (q = length S)) as [->|Hq].
    + rewrite HT'p in Ht'. simplify_eq. cbn [balance set_balance].
      apply list_find_Some in HfT as (Ht & _).
      unfold kept. destruct (Dec.ne (balance d2) (balance t)) as [e|[]].
      2:{ right. exists d1. split; [|by left].
          by rewrite lookup_app_r, Nat.sub_diag by lia. }
      all: destruct (Hbal _ t f Ht Hf) as [?|(s0 & Hs0 & _)]; [by left|];
           apply lookup_lt_Some in Hs0; lia.
    + rewrite HT'q in Ht' by done.
      destruct (Hbal q t' f Ht' Hf) as [?|(s0 & Hs0 & Hrel)]; [by left|].
      right. exists s0. split; [by apply lookup_app_l_Some|done].
Qed.

(** the second pass over writes that agree, on their account number and their
    balance, with those of the first pass leaves the table of the first pass *)
Lemma write_all_settles ds1 ds2 :
  Forall2 same_write ds1 ds2 →
  ∀ S T, settled S T (write_all ds1 S) → write_all ds2 T = write_all ds1 S.
Proof.
  induction 1 as [|d1 d2 ds1 ds2 Hd Hds IH]; intros S T Hst.
  - by apply settled_end.
  - cbn [write_all] in *. apply IH. by apply settled_step.
Qed.

Lemma write_all_twice ds1 ds2 l :
  Forall2 same_write ds1 ds2 →
  write_all ds2 (write_all ds1 l) = write_all ds1 l.
Proof. intros H. apply (write_all_settles ds1 ds2 H), settled_start. Qed.

End AccountTable.

(** ** The row body and the loop, table by table *)

Lemma reconcile_mem now fn an j a s :
  let ud := candidate_user fn an in
  (reconcile MemStore now fn an j a s).2
  = {| users := (resolve_user ud (users s)).1;
       accounts :=
         match choose_balance j a with
         | inr b =>
             write_account (candidate_account now an (resolve_user ud (users s)).2 b)
               (accounts s)
         | inl _ => accounts s
         end |}.
Proof.
  destruct s as [us acs]. cbn [users accounts].
  unfold reconcile, bind, lift, ret, resolve_user, write_account, candidate_user,
    candidate_account.
  generalize (generate_user_id_number (Some an)) (generate_account_number (CStr an)).
  intros uid acc_no. cbn.
  unfold mem_user_find_first, mem_user_create, mem_useraccount_find_first,
    mem_useraccount_create, mem_useraccount_update. cbn.
  destruct (list_find _ us) as [[k u]|]; cbn;
    (destruct (choose_balance j a) as [e|b]; cbn; [done|]);
    (destruct (list_find _ acs) as [[i stored]|]; cbn; [|done]);
    destruct (Dec.ne b (balance stored)) as [e|[]]; done.
Qed.

Lemma process_row_mem now row s :
  (process_row MemStore now row s).2
  = {| users := users_after row (users s);
       accounts :=
         match row_write now row (users s) with
         | Some d => write_account d (accounts s)
         | None => accounts s
         end |}.
Proof.
  unfold users_after, row_user, row_write.
  destruct (clean_number_returns (Unnamed_2 row)) as [j Hj].
  destruct (clean_number_returns (Unnamed_4 row)) as [a Ha].
  destruct (gated_fields row) as [[fn an]|] eqn:Hg.
  - rewrite (process_row_reconcile _ _ _ _ fn an j a Hg Hj Ha), Hj, Ha, reconcile_mem.
    by destruct (choose_balance j a).
  - destruct (process_row_skip row Hg) as (o & _ & ->). by destruct s.
Qed.

Lemma upload_rows_mem clock rows index acc s :
  (upload_rows MemStore clock rows index acc s).2
  = {| users := run_users rows (users s);
       accounts := write_all (run_writes clock rows index (users s)) (accounts s) |}.
Proof.
  revert index acc s. induction rows as [|row rows IH]; intros index acc s.
  - by destruct s.
  - cbn [upload_rows run_users run_writes]. unfold loop_body.
    pose proof (process_row_mem (clock index) row s) as Hrow.
    destruct (process_row MemStore (clock index) row s) as [[e|o] s'];
      cbn [snd] in Hrow; subst s'; rewrite IH; cbn [users accounts];
      by destruct (row_write (clock index) row (users s)).
Qed.

Lemma run_writes_same clock1 clock2 rows i1 i2 us1 us2 :
  Forall2 same_write (run_writes clock1 rows i1 us1) (run_writes clock2 rows i2 us2).
Proof.
  revert i1 i2 us1 us2. induction rows as [|row rows IH]; intros i1 i2 us1 us2.
  - constructor.
  - cbn [run_writes]. unfold row_write.
    destruct (gated_fields row) as [[fn an]|]; [|apply IH].
    destruct (clean_number (Unnamed_2 row)) as [?|j]; [apply IH|].
    destruct (clean_number (Unnamed_4 row)) as [?|a]; [apply IH|].
    destruct (choose_balance j a) as [?|b]; [apply IH|].
    constructor; [done|apply IH].
Qed.

(** *** Persons *)

Lemma resolve_user_known ud us : known ud us → (resolve_user ud us).1 = us.
Proof.
  intros (u & Hu & Hm). unfold resolve_user.
  destruct (list_find _ us) as [[i u']|] eqn:Hfind; [done|].
  apply list_find_None in Hfind. rewrite Forall_forall in Hfind. by destruct (Hfind u Hu).
Qed.

Lemma known_resolve_user ud us : known ud (resolve_user ud us).1.
Proof.
  unfold resolve_user.
  destruct (list_find _ us) as [[i u]|] eqn:Hfind; cbn [fst].
  - apply list_find_Some in Hfind as (Hu & Hm & _).
    exists u. split; [by eapply list_elem_of_lookup_2|done].
  - exists ud. split; [apply elem_of_app; right; apply list_elem_of_here|by left].
Qed.

Lemma known_users_after ud row us : known ud us → known ud (users_after row us).
Proof.
  intros (u & Hu & Hm). unfold users_after, resolve_user.
  destruct (row_user row) as [ud'|]; [|by exists u].
  destruct (list_find _ us) as [[i u']|]; cbn [fst]; [by exists u|].
  exists u. split; [apply elem_of_app; by left|done].
Qed.

Lemma known_run_users ud rows us : known ud us → known ud (run_users rows us).
Proof.
  revert us. induction rows as [|row rows IH]; intros us H; [done|].
  cbn. by apply IH, known_users_after.
Qed.

Lemma run_users_known rows us row ud :
  row ∈ rows → row_user row = Some ud → known ud (run_users rows us).
Proof.
  revert us. induction rows as [|r rows IH]; intros us Hin Hud.
  - by apply elem_of_nil in Hin.
  - cbn. apply elem_of_cons in Hin as [->|Hin]; [|by apply IH].
    apply known_run_users. unfold users_after. rewrite Hud. apply known_resolve_user.
Qed.

Lemma run_users_fixed rows us :
  (∀ row ud, row ∈ rows → row_user row = Some ud → known ud us) →
  run_users rows us = us.
Proof.
  induction rows as [|r rows IH]; intros H; [done|].
  cbn. assert (users_after r us = us) as ->.
  { unfold users_after. destruct (row_user r) as [ud|] eqn:Hud; [|done].
    apply resolve_user_known, (H r ud); [apply list_elem_of_here|done]. }
  apply IH. intros row ud Hin. apply H. by apply list_elem_of_further.
Qed.

Lemma run_users_twice rows us : run_users rows (run_users rows us) = run_users rows us.
Proof. apply run_users_fixed. intros row ud. apply run_users_known. Qed.

Lemma final_store_mem clock rows s :
  final_store clock rows s
  = {| users := run_users rows (users s);
       accounts := write_all (run_writes clock rows 0 (users s)) (accounts s) |}.
Proof. unfold final_store, upload_sb_accounts. apply upload_rows_mem. Qed.

Lemma write_account_lookup_key d (l : list AccountData) :
  ∃ i r, list_find (account_matches (accountNumber d)) (write_account d l) = Some (i, r)
         ∧ (balance r = balance d
            ∨ same_number (balance d) (balance r)
            ∨ Dec.ne (balance d) (balance r) = Raise InvalidOperation).
Proof.
  destruct (list_find (account_matches (accountNumber d)) l) as [[p s]|] eqn:Hfind.
  - destruct (write_account_found d l p s Hfind) as (Hp & _ & Hshape).
    destruct (find_key_prefix (accountNumber d) l (write_account d l) p s)
      as (r & Hr & _); [by rewrite Hshape|done|].
    exists p, r. split; [done|].
    apply list_find_Some in Hr as (Hr & _). rewrite Hp in Hr. simplify_eq.
    cbn [balance set_balance]. unfold kept.
    destruct (ne_cases (balance d) (balance s)) as [H | [H | [H _]]]; rewrite H; auto.
    right. left. by apply ne_false_iff.
  - destruct (write_account_fresh d l Hfind) as [-> Hnew]. eauto.
Qed.

(** C1. Run over the same rows a second time, from the store the first run
    left, the importer leaves that store as it is, whatever the clock reads.
    Row by row: a row whose person is already there (same identification
    number or same contact number) leaves the person table as it is; a row
    whose account identifier is already there leaves the account table at
    its length; and after a row that computed a balance, the account found
    under its identifier holds that balance or a number equal to it (unless
    the comparison with a stored signalling NaN raised). *)
Theorem rerun_is_idempotent (clock1 clock2 : nat → datetime) (rows : list Row) (s : db) :
  final_store clock2 rows (final_store clock1 rows s) = final_store clock1 rows s
  ∧ (∀ now row fn an u,
       gated_fields row = Some (fn, an) →
       u ∈ users s →
       idNumber u = generate_user_id_number (Some an)
       ∨ contactNumber u = "+977" +:+ generate_user_id_number (Some an) →
       users (process_row MemStore now row s).2 = users s)
  ∧ (∀ now row fn an,
       gated_fields row = Some (fn, an) →
       is_Some (list_find (account_matches (Some an)) (accounts s)) →
       length (accounts (process_row MemStore now row s).2) = length (accounts s))
  ∧ (∀ now row fn an j a b,
       gated_fields row = Some (fn, an) →
       clean_number (Unnamed_2 row) = Ok j →
       clean_number (Unnamed_4 row) = Ok a →
       choose_balance j a = Ok b →
       ∃ i r, list_find (account_matches (Some an))
                (accounts (process_row MemStore now row s).2) = Some (i, r)
              ∧ (balance r = b ∨ same_number b (balance r)
                 ∨ Dec.ne b (balance r) = Raise InvalidOperation)).
Proof.
  split_and!.
  - rewrite (final_store_mem clock2), (final_store_mem clock1). cbn [users accounts].
    f_equal.
    + apply run_users_twice.
    + apply write_all_twice, run_writes_same.
  - intros now row fn an u Hg Hu Hm. rewrite process_row_mem. cbn [users].
    unfold users_after, row_user. rewrite Hg.
    apply resolve_user_known. by exists u.
  - intros now row fn an Hg [[i stored] Hfind]. rewrite process_row_mem. cbn [accounts].
    destruct (row_write now row (users s)) as [d|] eqn:Hd; [|done].
    assert (accountNumber d = Some an) as Hk.
    { unfold row_write in Hd. rewrite Hg in Hd.
      destruct (clean_number (Unnamed_2 row)); [done|].
      destruct (clean_number (Unnamed_4 row)); [done|].
      destruct (choose_balance _ _); [done|]. simplify_eq. cbn.
      by eapply gated_account_number. }
    rewrite <- Hk in Hfind.
    destruct (write_account_found d _ i stored Hfind) as (_ & _ & Hshape).
    apply (f_equal length) in Hshape. by rewrite !length_fmap in Hshape.
  - intros now row fn an j a b Hg Hj Ha Hb. rewrite process_row_mem. cbn [accounts].
    unfold row_write. rewrite Hg, Hj, Ha, Hb.
    set (d := candidate_account _ _ _ _).
    destruct (write_account_lookup_key d (accounts s)) as (i & r & Hfind & Hbal).
    assert (accountNumber d = Some an) as Hk by (by eapply gated_account_number).
    rewrite Hk in Hfind. eauto.
Qed.

(** the run of the specification's scenario, then the same run again *)
Lemma rerun_scenario :
  let rows := [text_row "Ram Shrestha" "123456" "100" "150"; text_row "" "999" "0" "0";
               text_row "Sita Rai" "123456" "175.50" "0"] in
  let once := final_store midnight rows empty_db in
  length (users once) = 1
  ∧ balance <$> accounts once = [Dec.Finite false 17550 (-2)]
  ∧ final_store (λ _, mk_datetime 2025 7 17 0) rows once = once.
Proof. by vm_compute. Qed.

(** * More of the script *)

(** ** The two generators *)

Lemma filter_sublist (p : string → bool) (l : list string) :
  List.filter p l `sublist_of` l.
Proof.
  induction l as [|c l IH]; [done|]. cbn [List.filter].
  destruct (p c); by constructor.
Qed.

Lemma forallb_filter (p : string → bool) (l : list string) :
  forallb p (List.filter p l) = true.
Proof.
  induction l as [|c l IH]; [done|]. cbn [List.filter].
  destruct (p c) eqn:Hc; [|done]. cbn [forallb]. by rewrite Hc.
Qed.

Lemma filter_of_all (p : string → bool) (l : list string) :
  forallb p l = true → List.filter p l = l.
Proof.
  induction l as [|c l IH]; [done|]. cbn [forallb List.filter].
  intros [-> Hl]%andb_true_iff. by rewrite IH.
Qed.

(** X1. [generate_account_number] answers [None] for a cell that cleans to
    nothing or to the empty string, so blank text has no account number; an
    answer [Some s] is the trimmed text of the cell (the cell's text is [s]
    between two stretches of white space, and [s] has no white-space
    character at either end), is not empty, is not the token "NaN", and is
    its own account number.  No-break spaces are trimmed as blanks are. *)
Theorem generate_account_number_spec (value : cell) :
  (generate_account_number value = None
   ↔ clean_string value = None ∨ clean_string value = Some "")
  ∧ (∀ s, generate_account_number value = Some s →
          trimmed (str value) s ∧ s ≠ "" ∧ s ≠ "NaN"
          ∧ generate_account_number (CStr s) = Some s)
  ∧ generate_account_number (CStr " AC-1　 ") = Some "AC-1"
  ∧ generate_account_number (CStr " 　") = None.
Proof.
  unfold generate_account_number. split_and!; [| |by vm_compute..].
  - destruct (clean_string value) as [[|c t]|]; cbn; split; auto; intros [?|?]; done.
  - intros s Hs.
    destruct (clean_string value) as [s'|] eqn:Hc; [|done].
    destruct s' as [|c t]; cbn in Hs; [done|]. simplify_eq.
    pose proof (clean_string_fixed _ _ Hc) as Hfix.
    rewrite clean_string_unfold in Hc.
    destruct (isna value || _) eqn:Hgate; [done|].
    apply orb_false_iff in Hgate as [_ Hnan].
    injection Hc as Hc. rewrite Hc in Hnan.
    split_and!; [|done|by apply String.eqb_neq|by rewrite Hfix].
    rewrite <- Hc. apply strip_trimmed.
Qed.

(** X2. What [generate_user_id_number] answers is never empty and is made
    of characters that [str.isdigit] accepts (decimal digits of any script,
    and digits such as the superscript two, which is no decimal digit),
    whatever the identifier; and it is its own identification number. *)
Theorem generate_user_id_number_is_digits (account_number : option string) :
  generate_user_id_number account_number ≠ ""
  ∧ Py.all Py.isdigit (generate_user_id_number account_number) = true
  ∧ generate_user_id_number (Some (generate_user_id_number account_number))
    = generate_user_id_number account_number
  ∧ Py.all Py.isdigit "०7²" = true
  ∧ Py.all Py.isdigit "7a" = false.
Proof.
  split_and!; [| | |by vm_compute..].
  all: destruct account_number as [text|]; [|by vm_compute].
  all: rewrite !generate_user_id_number_chars; unfold digits_or_sentinel.
  all: pose proof (filter_sublist Py.isdigit (Py.chars text)) as Hsub.
  all: pose proof (forallb_filter Py.isdigit (Py.chars text)) as Hall.
  all: destruct (List.filter Py.isdigit (Py.chars text)) as [|c found] eqn:Hf;
         [by vm_compute|].
  all: rewrite <- ?Hf in *.
  - intros Hj. pose proof (chars_sublist _ _ Hsub) as Hc. rewrite Hj, Hf in Hc. done.
  - unfold Py.all. by rewrite (chars_sublist _ _ Hsub).
  - rewrite (chars_sublist _ _ Hsub), filter_of_all by done. by rewrite Hf.
Qed.

(** ** The counters of a run *)

Lemma upload_rows_counters {St} (prisma : Store St) clock rows index acc s :
  ∃ later,
    errors (upload_rows prisma clock rows index acc s).1 = errors acc ++ later
    ∧ error_count (upload_rows prisma clock rows index acc s).1
      = error_count acc + length later
    ∧ (success_count acc ≤ success_count (upload_rows prisma clock rows index acc s).1)%nat
    ∧ (success_count (upload_rows prisma clock rows index acc s).1 + length later
       ≤ success_count acc + length rows)%nat
    ∧ Forall (λ e, ∃ k row, rows !! k = Some row ∧ error_row e = index + k + 1
                            ∧ error_fullName e = clean_string (Unnamed_0 row)
                            ∧ error_accountNumber e = clean_string (Unnamed_1 row)) later
    ∧ StronglySorted lt (error_row <$> later).
Proof.
  revert index acc s. induction rows as [|row rows IH]; intros index acc s.
  - exists []. cbn. rewrite app_nil_r. split_and!; try done; try lia. constructor.
  - cbn [upload_rows]. unfold loop_body.
    destruct (process_row prisma (clock index) row s) as [[e|o] s'].
    + destruct (IH (S index) (record_error index row e acc) s')
        as (later & -> & -> & Hs1 & Hs2 & Hall & Hsorted).
      cbn [record_error errors error_count success_count] in *.
      set (res := upload_rows _ _ _ _ _ _) in *. clearbody res.
      eexists (_ :: later). rewrite <- app_assoc.
      split_and!; [done|cbn [length]; lia..| |].
      * constructor.
        { exists 0, row. split_and!; [done|cbn; lia|done..]. }
        eapply Forall_impl; [exact Hall|]. intros x (k & r & Hk & Hrow & Hn).
        exists (S k), r. split_and!; [done|lia|tauto..].
      * cbn [fmap list_fmap error_row]. constructor; [done|].
        apply Forall_fmap. eapply Forall_impl; [exact Hall|].
        intros x (k & r & _ & Hrow & _). cbn. lia.
    + destruct (IH (S index) (record_outcome o acc) s')
        as (later & -> & -> & Hs1 & Hs2 & Hall & Hsorted).
      set (res := upload_rows _ _ _ _ _ _) in *. clearbody res.
      exists later.
      assert (errors (record_outcome o acc) = errors acc
              ∧ error_count (record_outcome o acc) = error_count acc
              ∧ (success_count acc ≤ success_count (record_outcome o acc))%nat
              ∧ (success_count (record_outcome o acc) ≤ success_count acc + 1)%nat)
        as (-> & -> & ? & ?) by (destruct o; cbn; split_and!; (done || lia)).
      split_and!; [done|done|lia|cbn [length]; lia| |done].
      eapply Forall_impl; [exact Hall|]. intros x (k & r & Hk & Hrow & Hn).
      exists (S k), r. split_and!; [done|lia|tauto..].
Qed.

(** X3. The summary of a run, on any store: the error count is the number
    of error entries; successes and errors together never exceed the rows
    read; every entry carries a row number between 1 and the number of rows
    and the cleaned name and account identifier of the row at that position;
    and the entries come in the order of the rows. *)
Theorem upload_summary_counts {St} (prisma : Store St) (clock : nat → datetime)
    (rows : list Row) (s : St) :
  let acc := (upload_sb_accounts prisma clock rows s).1 in
  error_count acc = length (errors acc)
  ∧ (success_count acc + error_count acc ≤ length rows)%nat
  ∧ Forall (λ e, (1 ≤ error_row e ≤ length rows)%nat ∧ entry_of_row rows e) (errors acc)
  ∧ StronglySorted lt (error_row <$> errors acc).
Proof.
  intros acc. subst acc. unfold upload_sb_accounts.
  destruct (upload_rows_counters prisma clock rows 0
              {| success_count := 0; error_count := 0; errors := [] |} s)
    as (later & -> & -> & Hs1 & Hs2 & Hall & Hsorted).
  cbn [errors error_count success_count app] in *.
  split_and!; [done|lia| |done].
  eapply Forall_impl; [exact Hall|]. intros e (k & row & Hk & Hrow & Hn1 & Hn2).
  pose proof (lookup_lt_Some _ _ _ Hk). split; [lia|].
  exists row. replace (error_row e - 1) with k by lia. done.
Qed.

(** ** The calls of one row *)

Lemma reconcile_calls {St} (base : Store St) now fn an j a s :
  let calls := (reconcile (traced base) now fn an j a (s, [])).2.2 in
  (length calls ≤ 4)%nat
  ∧ (length (account_writes calls) ≤ 1)%nat
  ∧ (∀ d, UserCreate d ∈ calls →
          ∃ later, calls = UserFindFirst (idNumber d) (contactNumber d) :: UserCreate d :: later)
  ∧ (∀ d, AccountCreate d ∈ calls →
          ∃ earlier, calls = earlier ++ [AccountFindFirst (accountNumber d); AccountCreate d])
  ∧ (∀ i b, AccountUpdate i b ∈ calls →
          ∃ earlier n, calls = earlier ++ [AccountFindFirst n; AccountUpdate i b]).
Proof.
  unfold reconcile, bind, lift, ret.
  generalize (generate_user_id_number (Some an)) (generate_account_number (CStr an)).
  intros uid acc_no. cbn. unfold traced_call. cbn.
  generalize (choose_balance j a). intros chosen.
  repeat (case_match; simplify_eq/=).
  all: split_and!; [lia|lia|..].
  all: intros; repeat match goal with
       | H : _ ∈ _ :: _ |- _ => apply elem_of_cons in H as [H|H]; simplify_eq/=
       | H : _ ∈ [] |- _ => by apply elem_of_nil in H
       end.
  all: try (by eexists).
  all: try (by eexists [_]).
  all: try (by eexists [_; _]).
  all: try (by eexists [_], _).
  all: try (by eexists [_; _], _).
Qed.

(** X4. The calls one row makes, on any store: at most four in all and at
    most one write to the account table; a person is created only right
    after the lookup by that person's identification and contact number, as
    the first two calls; an account is created, or a balance updated, only as
    the last call and right after the lookup by account number. *)
Theorem row_call_discipline {St} (base : Store St) (now : datetime) (row : Row) (s : St) :
  let calls := calls_of_row base now row s in
  (length calls ≤ 4)%nat
  ∧ (length (account_writes calls) ≤ 1)%nat
  ∧ (∀ d, UserCreate d ∈ calls →
          ∃ later, calls = UserFindFirst (idNumber d) (contactNumber d) :: UserCreate d :: later)
  ∧ (∀ d, AccountCreate d ∈ calls →
          ∃ earlier, calls = earlier ++ [AccountFindFirst (accountNumber d); AccountCreate d])
  ∧ (∀ i b, AccountUpdate i b ∈ calls →
          ∃ earlier n, calls = earlier ++ [AccountFindFirst n; AccountUpdate i b]).
Proof.
  intros calls. subst calls.
  destruct (clean_number_returns (Unnamed_2 row)) as [j Hj].
  destruct (clean_number_returns (Unnamed_4 row)) as [a Ha].
  destruct (gated_fields row) as [[fn an]|] eqn:Hg.
  - unfold calls_of_row. rewrite (process_row_reconcile _ _ _ _ fn an j a Hg Hj Ha).
    apply reconcile_calls.
  - rewrite calls_of_row_skip by done. cbn.
    split_and!; [lia|lia|..]; intros; by match goal with H : _ ∈ [] |- _ => apply elem_of_nil in H end.
Qed.

(** ** What a run keeps on the in-memory store *)

(** a property of the store that every row keeps is kept by the run *)
Lemma final_store_invariant (P : db → Prop) :
  (∀ now row s, P s → P (process_row MemStore now row s).2) →
  ∀ clock rows s, P s → P (final_store clock rows s).
Proof.
  intros Hrow clock rows s. unfold final_store, upload_sb_accounts.
  generalize 0 (mk_summary 0 0 []). revert s.
  induction rows as [|row rows IH]; intros s index acc Hs; [done|].
  cbn [upload_rows]. unfold loop_body.
  pose proof (Hrow (clock index) row s Hs) as Hs'.
  destruct (process_row MemStore (clock index) row s) as [[e|o] s']; by apply IH.
Qed.

Lemma resolve_user_prefix ud us : us `prefix_of` (resolve_user ud us).1.
Proof.
  unfold resolve_user. destruct (list_find _ us) as [[i u]|]; cbn [fst]; [done|].
  by apply prefix_app_r.
Qed.

Lemma users_after_prefix row us : us `prefix_of` users_after row us.
Proof.
  unfold users_after. destruct (row_user row); [apply resolve_user_prefix|done].
Qed.

(** X5. The run never removes or rewrites what is stored: the person table
    it leaves starts with the person table it found, record for record, and
    the account table it leaves starts with the accounts it found, each
    unchanged in every field but the balance. *)
Theorem tables_only_grow (clock : nat → datetime) (rows : list Row) (s : db) :
  users s `prefix_of` users (final_store clock rows s)
  ∧ shape <$> accounts s `prefix_of` shape <$> accounts (final_store clock rows s).
Proof.
  apply (final_store_invariant
           (λ s', users s `prefix_of` users s'
                  ∧ shape <$> accounts s `prefix_of` shape <$> accounts s')); [|done].
  intros now row s' [Hu Ha]. rewrite process_row_mem. cbn [users accounts]. split.
  - etrans; [exact Hu|apply users_after_prefix].
  - destruct (row_write now row (users s')) as [d|]; [|done].
    etrans; [exact Ha|apply write_account_prefix].
Qed.

Lemma reconcile_mem_created now fn an j a s :
  length (accounts (reconcile MemStore now fn an j a s).2)
  = length (accounts s)
    + match (reconcile MemStore now fn an j a s).1 with inr Created => 1 | _ => 0 end.
Proof.
  destruct s as [us acs]. cbn [users accounts].
  unfold reconcile, bind, lift, ret.
  generalize (generate_user_id_number (Some an)) (generate_account_number (CStr an)).
  intros uid acc_no. cbn.
  unfold mem_user_find_first, mem_user_create, mem_useraccount_find_first,
    mem_useraccount_create, mem_useraccount_update. cbn.
  destruct (list_find _ us) as [[k u]|]; cbn;
    (destruct (choose_balance j a) as [e|b]; cbn; [lia|]);
    (destruct (list_find _ acs) as [[i stored]|]; cbn; [|rewrite length_app; cbn; lia]);
    destruct (Dec.ne b (balance stored)) as [e|[]]; cbn; rewrite ?length_alter; lia.
Qed.

Lemma upload_rows_created clock rows index acc s :
  length (accounts (upload_rows MemStore clock rows index acc s).2) + success_count acc
  = length (accounts s) + success_count (upload_rows MemStore clock rows index acc s).1.
Proof.
  revert index acc s. induction rows as [|row rows IH]; intros index acc s; [done|].
  cbn [upload_rows]. unfold loop_body.
  assert (length (accounts (process_row MemStore (clock index) row s).2)
          = length (accounts s)
            + match (process_row MemStore (clock index) row s).1 with
              | inr Created => 1 | _ => 0 end) as Hrow.
  { destruct (clean_number_returns (Unnamed_2 row)) as [j Hj].
    destruct (clean_number_returns (Unnamed_4 row)) as [a Ha].
    destruct (gated_fields row) as [[fn an]|] eqn:Hg.
    - rewrite (process_row_reconcile _ _ _ _ fn an j a Hg Hj Ha).
      apply reconcile_mem_created.
    - destruct (process_row_skip row Hg) as (o & [-> | ->] & ->); cbn; lia. }
  destruct (process_row MemStore (clock index) row s) as [[e|o] s']; cbn [fst snd] in Hrow.
  - pose proof (IH (S index) (record_error index row e acc) s') as H.
    cbn [record_error success_count] in H |- *. lia.
  - pose proof (IH (S index) (record_outcome o acc) s') as H.
    destruct o; cbn [record_outcome success_count] in H |- *; cbv iota in Hrow; lia.
Qed.

(** X6. The success count of a run is the number of accounts the run added
    to the account table: no account is created without being counted, and
    an update is never counted. *)
Theorem success_count_is_accounts_added (clock : nat → datetime) (rows : list Row) (s : db) :
  length (accounts (final_store clock rows s))
  = length (accounts s) + success_count (upload_sb_accounts MemStore clock rows s).1.
Proof.
  unfold final_store, upload_sb_accounts.
  pose proof (upload_rows_created clock rows 0 (mk_summary 0 0 []) s) as H.
  cbn [success_count] in H. lia.
Qed.

(** *** No second record under one key *)

Lemma write_account_numbers d (l : list AccountData) :
  accountNumber <$> write_account d l
  = match list_find (account_matches (accountNumber d)) l with
    | Some _ => accountNumber <$> l
    | None => (accountNumber <$> l) ++ [accountNumber d]
    end.
Proof.
  unfold write_account. destruct (list_find _ l) as [[i stored]|].
  - destruct (Dec.ne _ _) as [e|[]]; [done| |done].
    apply list_eq. intros k. rewrite !list_lookup_fmap.
    destruct (decide (i = k)) as [->|Hne].
    + rewrite list_lookup_alter_eq. by destruct (l !! k).
    + by rewrite list_lookup_alter_ne.
  - by rewrite fmap_app.
Qed.

Lemma write_account_nodup d (l : list AccountData) :
  NoDup (accountNumber <$> l) → NoDup (accountNumber <$> write_account d l).
Proof.
  intros Hl. rewrite write_account_numbers.
  destruct (list_find _ l) as [[i stored]|] eqn:Hfind; [done|].
  apply NoDup_app. split_and!; [done| |apply NoDup_singleton].
  intros n Hn ->%list_elem_of_singleton.
  apply list_elem_of_fmap in Hn as (x & Hx & Hin).
  apply list_find_None in Hfind. rewrite Forall_forall in Hfind.
  by destruct (Hfind x Hin).
Qed.

(** X7. When no two stored accounts share an account number before a run,
    none do after it: the run never creates a second account under a number
    that is already there. *)
Theorem account_numbers_stay_unique (clock : nat → datetime) (rows : list Row) (s : db) :
  NoDup (accountNumber <$> accounts s) →
  NoDup (accountNumber <$> accounts (final_store clock rows s)).
Proof.
  apply (final_store_invariant (λ s', NoDup (accountNumber <$> accounts s'))).
  intros now row s' H. rewrite process_row_mem. cbn [accounts].
  destruct (row_write now row (users s')); [by apply write_account_nodup|done].
Qed.

Lemma account_numbers_stay_unique_witness :
  let rows := [text_row "Ram Shrestha" "123456" "100" "150";
               text_row "Sita Rai" "123456" "175.50" "0";
               text_row "Hari Thapa" "AC-77" "20" "0"] in
  NoDup (accountNumber <$> accounts empty_db)
  ∧ accountNumber <$> accounts (final_store midnight rows empty_db)
    = [Some "123456"; Some "AC-77"]
  ∧ NoDup (accountNumber <$> accounts (final_store midnight rows empty_db)).
Proof.
  intros rows. split; [apply NoDup_nil_2|]. split; [by vm_compute|].
  apply (account_numbers_stay_unique midnight rows empty_db). apply NoDup_nil_2.
Defined.

Lemma resolve_user_ids ud (us : list UserData) :
  NoDup (idNumber <$> us) → NoDup (idNumber <$> (resolve_user ud us).1).
Proof.
  intros Hus. unfold resolve_user.
  destruct (list_find _ us) as [[i u]|] eqn:Hfind; cbn [fst]; [done|].
  rewrite fmap_app. apply NoDup_app. split_and!; [done| |apply NoDup_singleton].
  intros n Hn ->%list_elem_of_singleton.
  apply list_elem_of_fmap in Hn as (x & Hx & Hin).
  apply list_find_None in Hfind. rewrite Forall_forall in Hfind.
  destruct (Hfind x Hin). by left.
Qed.

(** X8. When no two stored persons share an identification number before a
    run, none do after it: a person is created only when nobody holds the
    identification number (or the contact number) derived for the row. *)
Theorem id_numbers_stay_unique (clock : nat → datetime) (rows : list Row) (s : db) :
  NoDup (idNumber <$> users s) →
  NoDup (idNumber <$> users (final_store clock rows s)).
Proof.
  apply (final_store_invariant (λ s', NoDup (idNumber <$> users s'))).
  intros now row s' H. rewrite process_row_mem. cbn [users].
  unfold users_after. destruct (row_user row); [by apply resolve_user_ids|done].
Qed.

Lemma id_numbers_stay_unique_witness :
  let rows := [text_row "Ram Shrestha" "AC-12" "100" "150";
               text_row "Sita Rai" "1-2" "175.50" "0";
               text_row "Hari Thapa" "AC-77" "20" "0"] in
  NoDup (idNumber <$> users empty_db)
  ∧ idNumber <$> users (final_store midnight rows empty_db) = ["12"; "77"]
  ∧ NoDup (idNumber <$> users (final_store midnight rows empty_db)).
Proof.
  intros rows. split; [apply NoDup_nil_2|]. split; [by vm_compute|].
  apply (id_numbers_stay_unique midnight rows empty_db). apply NoDup_nil_2.
Defined.

(** *** Whose account it is *)

Lemma resolve_user_lookup ud (us : list UserData) :
  ∃ u, (resolve_user ud us).1 !! (resolve_user ud us).2 = Some u
       ∧ user_matches (idNumber ud) (contactNumber ud) u.
Proof.
  unfold resolve_user. destruct (list_find _ us) as [[i u]|] eqn:Hfind; cbn [fst snd].
  - apply list_find_Some in Hfind as (Hu & Hm & _). eauto.
  - exists ud. split; [|by left]. by rewrite lookup_app_r, Nat.sub_diag by lia.
Qed.

Lemma owned_prefix (us us' : list UserData) a : us `prefix_of` us' → owned us a → owned us' a.
Proof.
  intros Hpre (u & Hu & Hm). exists u. split; [|done].
  by eapply prefix_lookup_Some.
Qed.

Lemma owned_set_balance (us : list UserData) b a : owned us a → owned us (set_balance b a).
Proof. by destruct a. Qed.

Lemma write_account_Forall (Q : AccountData → Prop) d (l : list AccountData) :
  (∀ b a, Q a → Q (set_balance b a)) → Q d → Forall Q l → Forall Q (write_account d l).
Proof.
  intros Hset Hd Hl. unfold write_account.
  destruct (list_find _ l) as [[i stored]|].
  - destruct (Dec.ne _ _) as [e|[]]; [done| |done].
    apply Forall_lookup. intros k x. rewrite Forall_lookup in Hl.
    destruct (decide (i = k)) as [->|Hne].
    + rewrite list_lookup_alter_eq. destruct (l !! k) as [y|] eqn:Hy; [|done].
      intros [= <-]. apply Hset. by apply (Hl k).
    + rewrite list_lookup_alter_ne by done. apply Hl.
  - apply Forall_app. split; [done|]. by apply Forall_singleton.
Qed.

Lemma row_write_owned now row (us : list UserData) d :
  row_write now row us = Some d → owned (users_after row us) d.
Proof.
  unfold row_write, users_after, row_user.
  destruct (gated_fields row) as [[fn an]|] eqn:Hg; [|done].
  destruct (clean_number (Unnamed_2 row)) as [?|j]; [done|].
  destruct (clean_number (Unnamed_4 row)) as [?|a]; [done|].
  destruct (choose_balance j a) as [?|b]; [done|]. intros [= <-].
  destruct (resolve_user_lookup (candidate_user fn an) us) as (u & Hu & Hm).
  exists u. split; [done|].
  cbn [candidate_account accountNumber]. by rewrite (gated_account_number row fn an Hg).
Qed.

(** X9. When every stored account belongs to a stored person before a run
    (its [userId] is the position of a person who holds the identification
    number, or the contact number, derived from the digits of the account's
    number), so does every account after the run: an account is created
    only for the person the row's lookup found or created. *)
Theorem accounts_stay_owned (clock : nat → datetime) (rows : list Row) (s : db) :
  Forall (owned (users s)) (accounts s) →
  Forall (owned (users (final_store clock rows s))) (accounts (final_store clock rows s)).
Proof.
  apply (final_store_invariant (λ s', Forall (owned (users s')) (accounts s'))).
  intros now row s' H. rewrite process_row_mem. cbn [users accounts].
  assert (Forall (owned (users_after row (users s'))) (accounts s')) as H'.
  { eapply Forall_impl; [exact H|]. intros a. apply owned_prefix, users_after_prefix. }
  destruct (row_write now row (users s')) as [d|] eqn:Hd; [|done].
  apply write_account_Forall; [|by apply (row_write_owned now)|done].
  intros b a. apply owned_set_balance.
Qed.

Lemma accounts_stay_owned_witness :
  let rows := [text_row "Ram Shrestha" "AC-12" "100" "150";
               text_row "Sita Rai" "1-2" "175.50" "0"] in
  Forall (owned (users empty_db)) (accounts empty_db)
  ∧ userId <$> accounts (final_store midnight rows empty_db) = [0; 0]
  ∧ Forall (owned (users (final_store midnight rows empty_db)))
      (accounts (final_store midnight rows empty_db)).
Proof.
  intros rows. split; [apply Forall_nil_2|]. split; [by vm_compute|].
  apply (accounts_stay_owned midnight rows empty_db). apply Forall_nil_2.
Defined.

(** *** One person per digit string *)

Lemma resolve_user_same ud ud' (us : list UserData) :
  idNumber ud' = idNumber ud → contactNumber ud' = contactNumber ud →
  resolve_user ud' (resolve_user ud us).1 = ((resolve_user ud us).1, (resolve_user ud us).2).
Proof.
  intros Hid Hc. unfold resolve_user at 1. rewrite Hid, Hc. unfold resolve_user.
  destruct (list_find _ us) as [[i u]|] eqn:Hfind; cbn [fst snd].
  - by rewrite Hfind.
  - rewrite list_find_app_r by done. cbn. rewrite decide_True by (by left). done.
Qed.

Lemma calls_create_mem now row s d :
  AccountCreate d ∈ calls_of_row MemStore now row s →
  row_write now row (users s) = Some d.
Proof.
  unfold calls_of_row, row_write.
  destruct (clean_number_returns (Unnamed_2 row)) as [j Hj].
  destruct (clean_number_returns (Unnamed_4 row)) as [a Ha].
  destruct (gated_fields row) as [[fn an]|] eqn:Hg.
  2:{ destruct (process_row_skip row Hg) as (o & _ & ->). cbn. by intros ?%elem_of_nil. }
  rewrite (process_row_reconcile _ _ _ _ fn an j a Hg Hj Ha), Hj, Ha.
  destruct s as [us acs]. cbn [users].
  unfold reconcile, bind, lift, ret, resolve_user, candidate_user, candidate_account.
  generalize (generate_user_id_number (Some an)) (generate_account_number (CStr an)).
  intros uid acc_no. cbn.
  unfold traced_call, mem_user_find_first, mem_user_create, mem_useraccount_find_first,
    mem_useraccount_create, mem_useraccount_update. cbn.
  destruct (list_find _ us) as [[k u]|]; cbn;
    (destruct (choose_balance j a) as [e|b]; cbn);
    try (destruct (list_find _ acs) as [[i stored]|]; cbn);
    try (destruct (Dec.ne b (balance stored)) as [e|[]]; cbn);
    intros H;
    repeat match goal with
    | H : _ ∈ _ :: _ |- _ => apply elem_of_cons in H as [H|H]; simplify_eq/=
    | H : _ ∈ [] |- _ => by apply elem_of_nil in H
    end; done.
Qed.

(** X10. Persons are keyed by the digits of the account number alone: when
    two rows that pass the gates have account identifiers with the same
    digits, whatever else the identifiers hold, the second row creates no
    person after the first, and an account the second row creates has the
    owner of an account the first row created. *)
Theorem same_digits_same_person (now1 now2 : datetime) (row1 row2 : Row) (s : db)
    (fn1 an1 fn2 an2 : string) :
  gated_fields row1 = Some (fn1, an1) →
  gated_fields row2 = Some (fn2, an2) →
  generate_user_id_number (Some an1) = generate_user_id_number (Some an2) →
  let s1 := (process_row MemStore now1 row1 s).2 in
  users (process_row MemStore now2 row2 s1).2 = users s1
  ∧ ∀ d1 d2, AccountCreate d1 ∈ calls_of_row MemStore now1 row1 s →
             AccountCreate d2 ∈ calls_of_row MemStore now2 row2 s1 →
             userId d2 = userId d1.
Proof.
  intros Hg1 Hg2 Hdigits s1.
  assert (users s1 = (resolve_user (candidate_user fn1 an1) (users s)).1) as Hu1.
  { subst s1. rewrite process_row_mem. cbn [users]. unfold users_after, row_user.
    by rewrite Hg1. }
  assert (resolve_user (candidate_user fn2 an2) (users s1)
          = (users s1, (resolve_user (candidate_user fn1 an1) (users s)).2)) as Hres.
  { rewrite Hu1. apply resolve_user_same; unfold candidate_user; cbn [idNumber contactNumber];
      by rewrite Hdigits. }
  split.
  - rewrite process_row_mem. cbn [users]. unfold users_after, row_user.
    by rewrite Hg2, Hres.
  - intros d1 d2 H1 H2.
    apply (calls_create_mem now1 row1 s d1) in H1.
    apply (calls_create_mem now2 row2 s1 d2) in H2.
    unfold row_write in H1, H2. rewrite Hg1 in H1. rewrite Hg2, Hres in H2.
    repeat case_match; simplify_eq. done.
Qed.

Lemma same_digits_same_person_witness :
  let row1 := text_row "Ram Shrestha" "AC-12" "100" "150" in
  let row2 := text_row "Sita Rai" "1-2" "175.50" "0" in
  let s1 := (process_row MemStore (midnight 0) row1 empty_db).2 in
  (fullName <$> users s1 = ["Ram Shrestha"]
   ∧ accountNumber <$> accounts (process_row MemStore (midnight 1) row2 s1).2
     = [Some "AC-12"; Some "1-2"])
  ∧ users (process_row MemStore (midnight 1) row2 s1).2 = users s1
  ∧ ∀ d1 d2, AccountCreate d1 ∈ calls_of_row MemStore (midnight 0) row1 empty_db →
             AccountCreate d2 ∈ calls_of_row MemStore (midnight 1) row2 s1 →
             userId d2 = userId d1.
Proof.
  intros row1 row2 s1. split; [by vm_compute|].
  apply (same_digits_same_person (midnight 0) (midnight 1) row1 row2 empty_db
           "Ram Shrestha" "AC-12" "Sita Rai" "1-2"); vm_compute; reflexivity.
Defined.

(** ** The whole script *)

Lemma logged_reconcile {St} (base : Client St) now fn an j a s log :
  ∃ more, (reconcile (tables (logged base)) now fn an j a (s, log)).2.2 = log ++ more
          ∧ Forall (λ c, ¬ is_session_call c) more.
Proof.
  unfold reconcile, bind, lift, ret.
  generalize (generate_user_id_number (Some an)) (generate_account_number (CStr an)).
  intros uid acc_no. cbn. unfold logged_call. cbn.
  generalize (choose_balance j a). intros chosen.
  repeat (case_match; simplify_eq/=).
  all: eexists; (split; [rewrite <- ?app_assoc; reflexivity|]).
  all: repeat constructor; by intros [?|?].
Qed.

Lemma logged_upload_rows {St} (base : Client St) clock rows index acc s log :
  ∃ more, (upload_rows (tables (logged base)) clock rows index acc (s, log)).2.2 = log ++ more
          ∧ Forall (λ c, ¬ is_session_call c) more.
Proof.
  revert index acc s log. induction rows as [|row rows IH]; intros index acc s log.
  - exists []. by rewrite app_nil_r.
  - cbn [upload_rows]. unfold loop_body.
    assert (∃ more, (process_row (tables (logged base)) (clock index) row (s, log)).2.2
                    = log ++ more ∧ Forall (λ c, ¬ is_session_call c) more)
      as (m1 & Hm1 & Hall1).
    { destruct (clean_number_returns (Unnamed_2 row)) as [j Hj].
      destruct (clean_number_returns (Unnamed_4 row)) as [a Ha].
      destruct (gated_fields row) as [[fn an]|] eqn:Hg.
      - rewrite (process_row_reconcile _ _ _ _ fn an j a Hg Hj Ha). apply logged_reconcile.
      - destruct (process_row_skip row Hg) as (o & _ & ->). exists []. by rewrite app_nil_r. }
    destruct (process_row _ _ _ _) as [r [s' log']]. cbn [snd] in Hm1. subst log'.
    destruct r as [e|o].
    + destruct (IH (S index) (record_error index row e acc) s' (log ++ m1))
        as (m2 & -> & Hall2).
      exists (m1 ++ m2). rewrite app_assoc. split; [done|]. by apply Forall_app.
    + destruct (IH (S index) (record_outcome o acc) s' (log ++ m1)) as (m2 & -> & Hall2).
      exists (m1 ++ m2). rewrite app_assoc. split; [done|]. by apply Forall_app.
Qed.

Lemma logged_try_block {St} (base : Client St) book clock s log :
  ∃ more, (Script.try_block (logged base) book clock (s, log)).2.2 = log ++ more
          ∧ Forall (λ c, ¬ is_session_call c) more.
Proof.
  unfold Script.try_block.
  destruct (negb (path_exists book)); [exists []; by rewrite app_nil_r|].
  destruct (read_SB book) as [msg|df]; [exists []; by rewrite app_nil_r|].
  unfold upload_sb_accounts.
  destruct (logged_upload_rows base clock df 0 (mk_summary 0 0 []) s log)
    as (m1 & Hm1 & Hall1).
  destruct (upload_rows _ _ _ _ _ _) as [acc [s1 log1]]. cbn [snd] in Hm1. subst log1.
  cbn. unfold logged_call. cbn.
  destruct (user_count base "SB" s1) as [[e|n] s2]; cbn.
  { exists (m1 ++ [UserCount "SB"]). rewrite app_assoc. split; [done|].
    apply Forall_app. split; [done|]. repeat constructor. by intros [?|?]. }
  destruct (useraccount_count base "SB" s2) as [[e|m] s3]; cbn.
  all: exists (m1 ++ [UserCount "SB"; UserAccountCount "SB"]).
  all: rewrite <- !app_assoc; split; [done|].
  all: apply Forall_app; split; [done|]; repeat constructor; by intros [?|?].
Qed.

(** X11. The connection, on any client.  When [connect] raises, nothing
    else is called and the error leaves the function.  When [connect]
    returns, [disconnect] is called exactly once and as the last call,
    whatever happens in between (missing file, unreadable sheet, failing
    rows, failing counts): the log is [Connect], then calls that are neither
    [Connect] nor [Disconnect], then [Disconnect]. *)
Theorem connection_is_released {St} (base : Client St) (book : Workbook)
    (clock : nat → datetime) (s : St) :
  let run := Script.upload_sb_accounts (logged base) book clock (s, []) in
  match (connect base s).1 with
  | inl e => run.2.2 = [Connect] ∧ run.1 = inl (ClientError e)
  | inr _ =>
      ∃ between, run.2.2 = Connect :: between ++ [Disconnect]
                 ∧ Forall (λ c, ¬ is_session_call c) between
  end.
Proof.
  intros run. subst run. unfold Script.upload_sb_accounts.
  cbn [connect logged]. unfold logged_call. cbn [fst snd].
  destruct (connect base s) as [[e|[]] s0]; cbn [fst snd app]; [done|].
  destruct (logged_try_block base book clock s0 [Connect]) as (between & Hlog & Hall).
  destruct (Script.try_block _ _ _ _) as [r [s1 log1]]. cbn [snd] in Hlog. subst log1.
  cbn [disconnect logged]. unfold logged_call. cbn [fst snd].
  exists between. split; [|done].
  by destruct (disconnect base s1) as [[e|[]] s2].
Qed.

(** X12. A missing input file: the run ends with status 1, the only calls
    made on the client are the opening and the closing of the connection (no
    table is read or written, nothing is counted), and when those two return
    the error that leaves the function is FileNotFoundError with the path in
    its text. *)
Theorem missing_file_is_fatal {St} (base : Client St) (book : Workbook)
    (clock : nat → datetime) (s : St) :
  path_exists book = false →
  let run := Script.upload_sb_accounts (logged base) book clock (s, []) in
  (Script.main (logged base) book clock (s, [])).1 = 1
  ∧ Forall is_session_call run.2.2
  ∧ ∀ s0 s1, connect base s = (Ok tt, s0) → disconnect base s0 = (Ok tt, s1) →
             run = (inl (FileNotFoundError ("Excel file not found at: "
                                            +:+ EXCEL_FILE_PATH book)),
                    (s1, [Connect; Disconnect])).
Proof.
  intros Hmissing run. subst run.
  unfold Script.main, Script.upload_sb_accounts, Script.try_block.
  rewrite Hmissing. cbn [negb connect disconnect logged]. unfold logged_call. cbn [fst snd].
  destruct (connect base s) as [[e|[]] s0]; cbn [fst snd app].
  { split_and!; [done|repeat constructor; by left|]. by intros ? ? [= ]. }
  destruct (disconnect base s0) as [[e|[]] s1] eqn:Hd; cbn [fst snd app].
  - split_and!; [done|repeat constructor; by (left + right)|].
    intros ? ? [= <-] H. by rewrite Hd in H.
  - split_and!; [done|repeat constructor; by (left + right)|].
    intros ? ? [= <-] H. rewrite Hd in H. by simplify_eq.
Qed.

Lemma missing_file_is_fatal_witness :
  let book := {| EXCEL_FILE_PATH := "../Ashad 2082.xlsx"; path_exists := false;
                 read_SB := inr [member_row 1] |} in
  let run := Script.upload_sb_accounts (logged (MemClient MemStore)) book midnight
               (empty_db, []) in
  (Script.main (logged (MemClient MemStore)) book midnight (empty_db, [])).1 = 1
  ∧ Forall is_session_call run.2.2
  ∧ ∀ s0 s1, connect (MemClient MemStore) empty_db = (Ok tt, s0) →
             disconnect (MemClient MemStore) s0 = (Ok tt, s1) →
             run = (inl (FileNotFoundError ("Excel file not found at: "
                                            +:+ EXCEL_FILE_PATH book)),
                    (s1, [Connect; Disconnect])).
Proof.
  intros book run.
  apply (missing_file_is_fatal (MemClient MemStore) book midnight empty_db). reflexivity.
Defined.

Lemma mem_client_run (store : Store db) book clock rows s :
  path_exists book = true → read_SB book = inr rows →
  Script.upload_sb_accounts (MemClient store) book clock s
  = (inr {| summary := (upload_sb_accounts store clock rows s).1;
            total_users :=
              length (filter (λ u, userType u = "SB")
                        (users (upload_sb_accounts store clock rows s).2));
            total_accounts :=
              length (filter (λ a, accountType a = "SB")
                        (accounts (upload_sb_accounts store clock rows s).2)) |},
     (upload_sb_accounts store clock rows s).2).
Proof.
  intros Hpath Hread. unfold Script.upload_sb_accounts, Script.try_block.
  rewrite Hpath, Hread. cbn [negb connect disconnect tables MemClient ret fst snd].
  destruct (upload_sb_accounts store clock rows s) as [acc s1]. done.
Qed.

(** X13. Failing rows do not fail the run: with the in-memory client around
    any store on the two tables (its table calls may raise for any row),
    once the file is there and the sheet is read the run returns its report
    and [main] ends with status 0, however many rows ended in the error
    list. *)
Theorem row_errors_do_not_fail_the_run (store : Store db) (book : Workbook)
    (clock : nat → datetime) (rows : list Row) (s : db) :
  path_exists book = true →
  read_SB book = inr rows →
  (Script.main (MemClient store) book clock s).1 = 0
  ∧ ∃ report, (Script.upload_sb_accounts (MemClient store) book clock s).1 = inr report
              ∧ summary report = (upload_sb_accounts store clock rows s).1.
Proof.
  intros Hpath Hread. unfold Script.main.
  rewrite (mem_client_run store book clock rows s Hpath Hread). cbn [fst].
  split; [done|]. by eexists.
Qed.

Lemma row_errors_do_not_fail_the_run_witness :
  let book := {| EXCEL_FILE_PATH := "../Ashad 2082.xlsx"; path_exists := true;
                 read_SB := inr (member_row <$> seq 1 3) |} in
  let store := FaultyStore ["1"; "2"; "3"] in
  error_count (upload_sb_accounts store midnight (member_row <$> seq 1 3) empty_db).1 = 3
  ∧ (Script.main (MemClient store) book midnight empty_db).1 = 0
  ∧ ∃ report, (Script.upload_sb_accounts (MemClient store) book midnight empty_db).1
              = inr report
              ∧ summary report
                = (upload_sb_accounts store midnight (member_row <$> seq 1 3) empty_db).1.
Proof.
  intros book store. split; [by vm_compute|].
  apply (row_errors_do_not_fail_the_run store book midnight (member_row <$> seq 1 3) empty_db);
    reflexivity.
Defined.

(** *** The verification totals *)

Lemma filter_alter_length {A} (P : A → Prop) `{∀ x, Decision (P x)} (f : A → A)
    (i : nat) (l : list A) :
  (∀ x, P (f x) ↔ P x) → length (filter P (alter f i l)) = length (filter P l).
Proof.
  intros Hf. revert i. induction l as [|x l IH]; intros [|i]; try done.
  - change (alter f 0 (x :: l)) with (f x :: l).
    rewrite !filter_cons. destruct (decide (P (f x))), (decide (P x)); cbn; try done;
      exfalso; destruct (Hf x); tauto.
  - change (alter f (S i) (x :: l)) with (x :: alter f i l).
    rewrite !filter_cons. destruct (decide (P x)); cbn; by rewrite IH.
Qed.

Lemma write_account_SB d (l : list AccountData) :
  accountType d = "SB" →
  length (filter (λ a, accountType a = "SB") (write_account d l)) + length l
  = length (filter (λ a, accountType a = "SB") l) + length (write_account d l).
Proof.
  intros Hd. unfold write_account. destruct (list_find _ l) as [[i stored]|].
  - destruct (Dec.ne _ _) as [e|[]]; [done| |done].
    rewrite length_alter, filter_alter_length; [done|]. by intros [].
  - rewrite filter_app, !length_app, filter_cons, decide_True by done. cbn. lia.
Qed.

Lemma row_write_SB now row us d : row_write now row us = Some d → accountType d = "SB".
Proof. unfold row_write. repeat case_match; try done. by intros [= <-]. Qed.

(** X14. The verification total of accounts moves by the success count: on
    the in-memory store, the number of "SB" accounts counted after the loop
    is the number of "SB" accounts stored before the run plus the successes
    the summary reports. *)
Theorem verification_total_accounts (book : Workbook) (clock : nat → datetime)
    (rows : list Row) (s : db) (report : Report) :
  path_exists book = true →
  read_SB book = inr rows →
  (Script.upload_sb_accounts (MemClient MemStore) book clock s).1 = inr report →
  total_accounts report
  = length (filter (λ a, accountType a = "SB") (accounts s))
    + success_count (summary report).
Proof.
  intros Hpath Hread. rewrite (mem_client_run MemStore book clock rows s Hpath Hread).
  cbn [fst]. intros [= <-]. cbn [total_accounts summary].
  fold (final_store clock rows s).
  assert (length (filter (λ a, accountType a = "SB") (accounts (final_store clock rows s)))
          + length (accounts s)
          = length (filter (λ a, accountType a = "SB") (accounts s))
            + length (accounts (final_store clock rows s))) as Hsb.
  { apply (final_store_invariant
             (λ s', length (filter (λ a, accountType a = "SB") (accounts s'))
                    + length (accounts s)
                    = length (filter (λ a, accountType a = "SB") (accounts s))
                      + length (accounts s'))); [|done].
    intros now row s' H. rewrite process_row_mem. cbn [accounts].
    destruct (row_write now row (users s')) as [d|] eqn:Hd; [|done].
    pose proof (write_account_SB d (accounts s') (row_write_SB _ _ _ _ Hd)). lia. }
  pose proof (upload_rows_created clock rows 0 (mk_summary 0 0 []) s) as Hcount.
  unfold final_store, upload_sb_accounts in *. cbn [success_count] in Hcount. lia.
Qed.

Lemma verification_total_accounts_witness :
  let book := {| EXCEL_FILE_PATH := "../Ashad 2082.xlsx"; path_exists := true;
                 read_SB := inr [text_row "Ram Shrestha" "123456" "100" "150";
                                 text_row "" "999" "0" "0";
                                 text_row "Sita Rai" "123456" "175.50" "0"] |} in
  let report := {| summary := {| success_count := 1; error_count := 0; errors := [] |};
                   total_users := 1; total_accounts := 1 |} in
  (Script.upload_sb_accounts (MemClient MemStore) book midnight empty_db).1 = inr report
  ∧ total_accounts report
    = length (filter (λ a, accountType a = "SB") (accounts empty_db))
      + success_count (summary report).
Proof.
  intros book report. split; [by vm_compute|].
  apply (verification_total_accounts book midnight
           [text_row "Ram Shrestha" "123456" "100" "150";
            text_row "" "999" "0" "0";
            text_row "Sita Rai" "123456" "175.50" "0"] empty_db report);
    by vm_compute.
Defined.

(** ** A row that fails half way *)

(** X15. Nothing is undone when a row fails after its person was created:
    on a store that rejects the creation of the row's account, the row ends
    in the [except] clause with the person table holding the person the row
    looked up or created and the account table as it was; the person is
    then found, not created again, when the row is processed another time. *)
Theorem failed_account_leaves_person (rejected : list string) (now : datetime) (row : Row)
    (s : db) (fn an : string) (j a b : decimal) :
  gated_fields row = Some (fn, an) →
  clean_number (Unnamed_2 row) = Ok j →
  clean_number (Unnamed_4 row) = Ok a →
  choose_balance j a = Ok b →
  an ∈ rejected →
  list_find (account_matches (Some an)) (accounts s) = None →
  process_row (FaultyStore rejected) now row s
  = (Raise (StoreError "useraccount.create failed"),
     {| users := users_after row (users s); accounts := accounts s |})
  ∧ users_after row (users_after row (users s)) = users_after row (users s).
Proof.
  intros Hg Hj Ha Hb Hin Hfind. split.
  - rewrite (process_row_reconcile _ _ _ _ fn an j a Hg Hj Ha).
    unfold users_after, row_user, resolve_user, candidate_user. rewrite Hg.
    destruct s as [us acs]. cbn [users accounts] in *.
    unfold reconcile, bind, lift, ret.
    rewrite (gated_account_number row fn an Hg), Hb.
    generalize (generate_user_id_number (Some an)). intros uid. cbn.
    unfold mem_user_find_first, mem_user_create, mem_useraccount_find_first. cbn.
    destruct (list_find _ us) as [[k u]|]; cbn; rewrite Hfind; cbn;
      by rewrite bool_decide_eq_true_2.
  - unfold users_after, row_user. rewrite Hg.
    apply resolve_user_known, known_resolve_user.
Qed.

Lemma failed_account_leaves_person_witness :
  let row := member_row 5 in
  process_row (FaultyStore ["5"]) (midnight 4) row empty_db
  = (Raise (StoreError "useraccount.create failed"),
     {| users := users_after row (users empty_db); accounts := accounts empty_db |})
  ∧ users_after row (users_after row (users empty_db)) = users_after row (users empty_db).
Proof.
  intros row.
  apply (failed_account_leaves_person ["5"] (midnight 4) row empty_db "Member 5" "5"
           (Dec.Finite false 100 0) (Dec.Finite false 150 0) (Dec.Finite false 150 0));
    try (vm_compute; reflexivity).
  apply list_elem_of_here.
Defined.

(** ** Integer cells *)

(** X16. An integer cell is converted exactly: [clean_number] gives the
    decimal with the integer's sign, its absolute value as coefficient and
    exponent 0, and [clean_string] gives its decimal text. *)
Theorem integer_cell_is_exact (n : Z) :
  clean_number (CInt n) = Ok (Dec.Finite (n <? 0)%Z (Z.abs_N n) 0)
  ∧ clean_string (CInt n) = Some (pretty n).
Proof.
  assert (∃ num, numeral_ok num ∧ pretty n = render num
                 ∧ numeral_value num = Dec.Finite (n <? 0)%Z (Z.abs_N n) 0)
    as (num & Hok & Hn & Hval).
  { assert (∀ sign ds, Forall (λ d, d < 10)%N ds → ds ≠ [] →
              let num := mk_numeral sign ds None None in
              numeral_ok num ∧ render num = sign_text sign +:+ digit_text ds
              ∧ numeral_value num = Dec.Finite (is_minus sign) (digits_value ds) 0)
      as Hnum.
    { intros sign ds Hds Hne num. split_and!.
      - split_and!; [done|constructor|by left|done].
      - unfold render, frac_text, exp_text. cbn. by rewrite !append_nil_r.
      - unfold numeral_value, coefficient, exponent, frac_digits. cbn.
        by rewrite app_nil_r. }
    destruct n as [|p|p].
    - exists (mk_numeral None [0%N] None None). split_and!; [|done..].
      split_and!; [by repeat constructor|constructor|by left|done].
    - destruct (pretty_N_digits (Npos p)) as (ds & H1 & H2 & H3 & H4 & _).
      destruct (Hnum None ds H2 H4) as (Hok & Hr & Hv).
      eexists. split_and!; [exact Hok| |by rewrite Hv, H3].
      rewrite Hr. exact H1.
    - destruct (pretty_N_digits (Npos p)) as (ds & H1 & H2 & H3 & H4 & _).
      destruct (Hnum (Some true) ds H2 H4) as (Hok & Hr & Hv).
      eexists. split_and!; [exact Hok| |by rewrite Hv, H3].
      rewrite Hr. change (pretty (Zneg p)) with ("-" +:+ pretty (Npos p)).
      by rewrite H1. }
  destruct (numeral_cell (CInt n) num "" "") as (_ & Hnumber & Hstring);
    [done|cbn [str]; by rewrite Hn, append_nil_r|done..|].
  rewrite Hnumber, Hstring, Hn. split; [|done].
  injection Hval as Hs Hc He. rewrite He, representable_integer.
  unfold numeral_value. by rewrite Hs, Hc, He.
Qed.

(** ** The workbook inspector *)

Lemma read_sheets_readable (l : list (string * SheetData)) rest :
  read_sheets ((prod_map id inr <$> l) ++ rest)
  = ((l ≫= λ p, sheet_block p.1 p.2) ++ (read_sheets rest).1, (read_sheets rest).2).
Proof.
  induction l as [|[name df] l IH].
  { change (read_sheets rest = ((read_sheets rest).1, (read_sheets rest).2)).
    by destruct (read_sheets rest). }
  cbn [fmap list_fmap prod_map fst snd id app read_sheets]. rewrite IH.
  cbn [mbind list_bind fst snd]. unfold sheet_block. by rewrite <- !app_assoc.
Qed.

(** X17. The listing of a workbook that opens.  When every sheet can be
    read, the output is the header followed by one block per sheet, in the
    order of the sheets, and no error line.  When a sheet cannot be read,
    the output keeps the header and the blocks of the sheets before it,
    shows the heading of the failing sheet, ends with the one error line,
    and shows nothing of the sheets after it. *)
Theorem listing_stops_at_unreadable_sheet (file_path : string) (disk : Disk) (f : ExcelFile)
    (before : list (string * SheetData)) :
  disk_exists disk = true →
  disk_open disk = inr f →
  (sheets f = prod_map id inr <$> before →
   read_excel_file file_path disk
   = file_header file_path f ++ (before ≫= λ p, sheet_block p.1 p.2))
  ∧ (∀ sheet_name e after,
       sheets f = (prod_map id inr <$> before) ++ (sheet_name, inl e) :: after →
       read_excel_file file_path disk
       = file_header file_path f ++ (before ≫= λ p, sheet_block p.1 p.2)
         ++ sheet_heading sheet_name ++ [ "Error reading Excel file: " +:+ e ]).
Proof.
  intros Hex Hopen. unfold read_excel_file. rewrite Hex, Hopen. cbn [negb]. split.
  - intros Hs. rewrite Hs.
    pose proof (read_sheets_readable before []) as H. rewrite app_nil_r in H.
    rewrite H. cbn [read_sheets fst snd]. by rewrite !app_nil_r.
  - intros name e after Hs. rewrite Hs, read_sheets_readable.
    cbn [read_sheets fst snd]. by rewrite <- !app_assoc.
Qed.

Lemma listing_stops_at_unreadable_sheet_witness :
  let sb := mk_sheet_data 2 5 "['Unnamed: 0', 'Unnamed: 1']" "rows" "types" in
  let f := mk_excel_file "['SB', 'Loan', 'FD']"
             [("SB", inr sb); ("Loan", inl "bad sheet"); ("FD", inr sb)] in
  let disk := mk_disk true (inr f) in
  (sheets f = prod_map id inr <$> [("SB", sb)] →
   read_excel_file "Ashad 2082.xlsx" disk
   = file_header "Ashad 2082.xlsx" f ++ ([("SB", sb)] ≫= λ p, sheet_block p.1 p.2))
  ∧ (∀ sheet_name e after,
       sheets f = (prod_map id inr <$> [("SB", sb)]) ++ (sheet_name, inl e) :: after →
       read_excel_file "Ashad 2082.xlsx" disk
       = file_header "Ashad 2082.xlsx" f ++ ([("SB", sb)] ≫= λ p, sheet_block p.1 p.2)
         ++ sheet_heading sheet_name ++ [ "Error reading Excel file: " +:+ e ]).
Proof.
  intros sb f disk.
  apply (listing_stops_at_unreadable_sheet "Ashad 2082.xlsx" disk f [("SB", sb)]);
    reflexivity.
Defined.
